(** * Terraform validation tools: a shallow embedding and its properties

    The development follows the four Python scripts under
    [Terraform/validation-tools]:

    - [terraform_module_validator.py]  (module [ModuleValidator]),
    - [output_verifier.py]             (module [OutputVerifier]),
    - [variable_validation_tester.py]  (module [VariableTester]),
    - [comprehensive_validator.py]     (module [Orchestrator]).

    Text.  A Python [str] is a Rocq [string], read as its UTF-8 bytes.  The
    character classes ([\s], [str.lower], [str.strip]) are those of the
    ASCII range, so the model and the scripts agree on every ASCII file.
    [str.isdigit] and [int] go by the characters of Unicode, and [int]
    refuses a text of more than 4300 digits, as CPython does.  The glyphs
    of the messages are written as in the source.

    Patterns.  Regular expressions are run by a backtracking matcher
    ([Re.mt]) with the priorities of Python's [re]: greedy repetition, the
    left alternative first, the leftmost match for [search] and [findall].
    Each pattern of the source is transcribed as a term of [Re.re], the
    source text beside it.

    Files.  The scripts read the module directory through [FS]: an entry is
    a text file or a directory, [exists] holds of both, and opening a
    directory raises.  A function that may raise returns an [option], and
    [None] is the exception that nothing catches; the process then ends
    with status 1.

    State.  Each checker appends to its lists of errors, warnings and info;
    the functions take the lists and return them.  What is printed is kept
    for the output verifier, where a reference to a variable or a local
    value is reported by a printed line only; for the other scripts the
    model keeps the findings and the returned values.  Python does not fix
    the order in which a [for] loop goes through a [set]: the output
    verifier takes that order as a parameter, [iter_set]. *)

From Stdlib Require Import String Ascii List Arith Bool Lia NArith ZArith Permutation.
From Stdlib Require Import Numbers.DecimalString.
Import ListNotations.
Local Open Scope string_scope.
Local Open Scope list_scope.

(** ** Python strings *)

Module PyStr.

Definition nl : ascii := "010"%char.
Definition dq : ascii := "034"%char.

Definition code (c : ascii) : N := N_of_ascii c.

Definition in_range (lo hi c : ascii) : bool :=
  ((code lo <=? code c) && (code c <=? code hi))%N.

(** ASCII whitespace of [str.isspace] and of [\s]:
    TAB, LF, VT, FF, CR, FS, GS, RS, US and the space. *)
Definition is_space (c : ascii) : bool :=
  in_range "009" "013" c || in_range "028" "032" c.

Definition is_digit (c : ascii) : bool := in_range "0" "9" c.
Definition is_lower (c : ascii) : bool := in_range "a" "z" c.
Definition is_upper (c : ascii) : bool := in_range "A" "Z" c.

Definition str1 (c : ascii) : string := String c EmptyString.

Fixpoint forall_chars (p : ascii -> bool) (s : string) : bool :=
  match s with
  | EmptyString => true
  | String c s' => p c && forall_chars p s'
  end.

Fixpoint map_chars (f : ascii -> ascii) (s : string) : string :=
  match s with
  | EmptyString => EmptyString
  | String c s' => String (f c) (map_chars f s')
  end.

(** [s.lower()] *)
Definition lower_char (c : ascii) : ascii :=
  if is_upper c then ascii_of_N (code c + 32) else c.
Definition lower : string -> string := map_chars lower_char.

(** [s.startswith(p)] *)
Definition startswith (p s : string) : bool := String.prefix p s.

(** [sub in s] *)
Fixpoint contains (sub s : string) : bool :=
  startswith sub s ||
  match s with
  | EmptyString => false
  | String _ s' => contains sub s'
  end.

(** [s.count(c)] for a one-character needle *)
Fixpoint count_char (c : ascii) (s : string) : nat :=
  match s with
  | EmptyString => 0
  | String x s' => (if Ascii.eqb x c then 1 else 0) + count_char c s'
  end.

(** [s.count(sub)] for a needle of one character or more: occurrences
    are counted from the left and do not overlap.  [skip] is the number
    of characters of the last occurrence still to be passed over. *)
Fixpoint count_from (sub : string) (skip : nat) (s : string) : nat :=
  match s with
  | EmptyString => 0
  | String _ s' =>
      match skip with
      | S k => count_from sub k s'
      | O => if startswith sub s
             then S (count_from sub (String.length sub - 1) s')
             else count_from sub 0 s'
      end
  end.
Definition count (sub s : string) : nat := count_from sub 0 s.

(** [s.split(c)] for a one-character separator *)
Fixpoint split (c : ascii) (s : string) : list string :=
  match s with
  | EmptyString => [EmptyString]
  | String x s' =>
      if Ascii.eqb x c then EmptyString :: split c s'
      else match split c s' with
           | h :: t => String x h :: t
           | [] => [str1 x]
           end
  end.

(** [s.strip()] *)
Fixpoint lstrip (s : string) : string :=
  match s with
  | String c s' => if is_space c then lstrip s' else s
  | EmptyString => EmptyString
  end.
Fixpoint rstrip (s : string) : string :=
  match s with
  | EmptyString => EmptyString
  | String c s' =>
      match rstrip s' with
      | EmptyString => if is_space c then EmptyString else str1 c
      | r => String c r
      end
  end.
Definition strip (s : string) : string := rstrip (lstrip s).

(** *** Characters beyond ASCII

    [str.isdigit] and [int] go by the characters of a text, not by its
    bytes: [decode] gives the code points of a text from its UTF-8
    bytes.  A byte that starts no well-formed sequence is passed over as
    a character outside Unicode; the text of a file that Python has read
    holds none. *)
Definition is_cont (c : ascii) : bool := in_range "128" "191" c.
Definition cont_val (c : ascii) : N := (code c - 128)%N.
Definition outside (c : ascii) : N := (1114112 + code c)%N.

Fixpoint decode (s : string) : list N :=
  match s with
  | EmptyString => []
  | String b0 s1 =>
      let c0 := code b0 in
      if (c0 <? 128)%N then c0 :: decode s1
      else
        match s1 with
        | EmptyString => [outside b0]
        | String b1 s2 =>
            if (c0 <? 224)%N then
              if (194 <=? c0)%N && is_cont b1
              then ((c0 - 192) * 64 + cont_val b1)%N :: decode s2
              else outside b0 :: decode s1
            else
              match s2 with
              | EmptyString => outside b0 :: decode s1
              | String b2 s3 =>
                  if (c0 <? 240)%N then
                    let cp := ((c0 - 224) * 4096 + cont_val b1 * 64
                               + cont_val b2)%N in
                    if is_cont b1 && is_cont b2 && (2048 <=? cp)%N
                       && negb ((55296 <=? cp) && (cp <=? 57343))%N
                    then cp :: decode s3
                    else outside b0 :: decode s1
                  else
                    match s3 with
                    | EmptyString => outside b0 :: decode s1
                    | String b3 s4 =>
                        let cp := ((c0 - 240) * 262144 + cont_val b1 * 4096
                                   + cont_val b2 * 64 + cont_val b3)%N in
                        if (c0 <? 248)%N && is_cont b1 && is_cont b2
                           && is_cont b3 && (65536 <=? cp)%N
                           && (cp <=? 1114111)%N
                        then cp :: decode s4
                        else outside b0 :: decode s1
                    end
              end
        end
  end.

(** The decimal digits of Unicode 14.0.0, the version of Python 3.11: the
    characters of category Nd come in runs of ten, from the digit zero to
    the digit nine, and the list gives the code point of each zero. *)
Definition decimal_zeros : list N :=
  [ 48; 1632; 1776; 1984; 2406; 2534; 2662; 2790; 2918; 3046; 3174; 3302;
    3430; 3558; 3664; 3792; 3872; 4160; 4240; 6112; 6160; 6470; 6608; 6784;
    6800; 6992; 7088; 7232; 7248; 42528; 43216; 43264; 43472; 43504; 43600;
    44016; 65296; 66720; 68912; 69734; 69872; 69942; 70096; 70384; 70736;
    70864; 71248; 71360; 71472; 71904; 72016; 72784; 73040; 73120; 92768;
    92864; 93008; 120782; 120792; 120802; 120812; 120822; 123200; 123632;
    125264; 130032 ]%N.

(** the value of a decimal digit, [unicodedata.decimal] *)
Definition decimal_of (cp : N) : option N :=
  match find (fun z => (z <=? cp) && (cp <=? z + 9))%N decimal_zeros with
  | Some z => Some (cp - z)%N
  | None => None
  end.
Definition is_decimal (cp : N) : bool :=
  match decimal_of cp with Some _ => true | None => false end.

(** The other characters of [str.isdigit], digits that are no decimal
    digits (superscripts, subscripts, circled digits and the like), by
    the first and the last code point of each run. *)
Definition other_digits : list (N * N) :=
  [ (178, 179); (185, 185); (4969, 4977); (6618, 6618); (8304, 8304);
    (8308, 8313); (8320, 8329); (9312, 9320); (9332, 9340); (9352, 9360);
    (9450, 9450); (9461, 9469); (9471, 9471); (10102, 10110);
    (10112, 10120); (10122, 10130); (68160, 68163); (69216, 69224);
    (69714, 69722); (127232, 127242) ]%N.
Definition is_other_digit (cp : N) : bool :=
  existsb (fun r : N * N => (fst r <=? cp) && (cp <=? snd r))%N other_digits.

(** [s.isdigit()]: some character, and digits only *)
Definition isdigit (s : string) : bool :=
  match decode s with
  | [] => false
  | cps => forallb (fun cp => is_decimal cp || is_other_digit cp) cps
  end.

(** [sys.int_info.default_max_str_digits] *)
Definition max_str_digits : N := 4300%N.

(** [int(s)] on the strings that reach it here, those of [isdigit];
    [None] is [ValueError], which a digit that is no decimal digit
    raises, and a text of more than 4300 digits. *)
Fixpoint int_acc (acc : N) (cps : list N) : option N :=
  match cps with
  | [] => Some acc
  | cp :: cps' =>
      match decimal_of cp with
      | Some v => int_acc (acc * 10 + v)%N cps'
      | None => None
      end
  end.
Definition int (s : string) : option N :=
  match decode s with
  | [] => None
  | cps =>
      if (N.of_nat (List.length cps) <=? max_str_digits)%N
      then int_acc 0%N cps
      else None
  end.

(** [str(n)] for a non-negative integer *)
Definition str_nat (n : nat) : string :=
  NilEmpty.string_of_uint (Nat.to_uint n).

(** truth value of a string, [bool(s)] *)
Definition truthy (s : string) : bool := negb (String.eqb s EmptyString).

(** [sep.join(l)] *)
Definition join (sep : string) (l : list string) : string :=
  String.concat sep l.

End PyStr.

(** ** Regular expressions, as Python's [re] runs them *)

Module Re.
Import PyStr.

Inductive re : Type :=
| Eps                          (* empty pattern *)
| Chr (c : ascii)              (* a literal character *)
| Cls (p : ascii -> bool)      (* a character class *)
| Seq (a b : re)
| Alt (a b : re)               (* a|b, a first *)
| Star (a : re)                (* a*, greedy *)
| Grp (i : nat) (a : re)       (* capturing group number i *)
| Bol                          (* ^ *)
| Eol.                         (* $ *)

Definition Plus (a : re) : re := Seq a (Star a).
Definition Opt (a : re) : re := Alt a Eps.

Fixpoint Lit (s : string) : re :=
  match s with
  | EmptyString => Eps
  | String c s' => Seq (Chr c) (Lit s')
  end.

Fixpoint Cat (l : list re) : re :=
  match l with
  | [] => Eps
  | r :: l' => Seq r (Cat l')
  end.

(** a{n} and a{0,n}, greedy *)
Fixpoint Rep (n : nat) (a : re) : re :=
  match n with
  | O => Eps
  | S n' => Seq a (Rep n' a)
  end.
Fixpoint UpTo (n : nat) (a : re) : re :=
  match n with
  | O => Eps
  | S n' => Opt (Seq a (UpTo n' a))
  end.
Definition RepRange (lo hi : nat) (a : re) : re :=
  Seq (Rep lo a) (UpTo (hi - lo) a).

(** character classes of the source patterns *)
Definition ws : re := Cls is_space.                               (* \s *)
Definition Not (c : ascii) : re := Cls (fun x => negb (Ascii.eqb x c)).

(** captured groups: group number and captured text *)
Definition caps := list (nat * string).

Fixpoint get_cap (i : nat) (cs : caps) : string :=
  match cs with
  | [] => EmptyString
  | (j, s) :: cs' => if Nat.eqb i j then s else get_cap i cs'
  end.

(** the text between two positions given by what remains of the subject *)
Definition consumed (s s' : string) : string :=
  String.substring 0 (String.length s - String.length s') s.

Section Matcher.
Context {R : Type}.
(** length of the whole subject: [^] holds where that much remains *)
Variable n0 : nat.

Definition cont : Type := string -> caps -> option R.

(** greedy repetition of [body], then [k].  A turn that takes nothing
    from the subject is refused, so [fuel], the length of the subject
    at the start, is never used up. *)
Fixpoint star_loop (body : string -> caps -> cont -> option R) (k : cont)
         (fuel : nat) (s : string) (cs : caps) {struct fuel} : option R :=
  match fuel with
  | O => k s cs
  | S fuel' =>
      match body s cs
                 (fun s' cs' =>
                    if (String.length s' <? String.length s)%nat
                    then star_loop body k fuel' s' cs' else None) with
      | Some x => Some x
      | None => k s cs
      end
  end.

(** [mt r s cs k]: match [r] at the head of [s], then continue with
    [k] on what remains; the first success in priority order wins. *)
Fixpoint mt (r : re) (s : string) (cs : caps) (k : cont) {struct r}
  : option R :=
  match r with
  | Eps => k s cs
  | Chr c =>
      match s with
      | String x s' => if Ascii.eqb x c then k s' cs else None
      | EmptyString => None
      end
  | Cls p =>
      match s with
      | String x s' => if p x then k s' cs else None
      | EmptyString => None
      end
  | Seq a b => mt a s cs (fun s' cs' => mt b s' cs' k)
  | Alt a b =>
      match mt a s cs k with
      | Some x => Some x
      | None => mt b s cs k
      end
  | Star a => star_loop (mt a) k (String.length s) s cs
  | Grp i a =>
      mt a s cs (fun s' cs' => k s' ((i, consumed s s') :: cs'))
  | Bol => if (String.length s =? n0)%nat then k s cs else None
  | Eol =>
      if String.eqb s EmptyString || String.eqb s (str1 nl)
      then k s cs else None
  end.
End Matcher.

(** a match: the subject from the start of the match, what remains after
    it, and the groups *)
Record mobj : Type := MObj {
  m_from : string;
  m_rest : string;
  m_caps : caps
}.

Definition group0 (m : mobj) : string := consumed (m_from m) (m_rest m).
Definition group (i : nat) (m : mobj) : string := get_cap i (m_caps m).

Definition match_at (n0 : nat) (r : re) (s : string) : option mobj :=
  mt n0 r s [] (fun s' cs => Some (MObj s s' cs)).

(** leftmost match at or after the head of [s] *)
Fixpoint search_from (n0 : nat) (r : re) (s : string) : option mobj :=
  match match_at n0 r s with
  | Some m => Some m
  | None =>
      match s with
      | EmptyString => None
      | String _ s' => search_from n0 r s'
      end
  end.

(** [re.search(r, s)] and [re.match(r, s)] *)
Definition search (r : re) (s : string) : option mobj :=
  search_from (String.length s) r s.
Definition match_ (r : re) (s : string) : option mobj :=
  match_at (String.length s) r s.

Definition is_some {A} (o : option A) : bool :=
  match o with Some _ => true | None => false end.

(** [re.findall(r, s)]: successive leftmost matches that do not overlap.
    After an empty match the scan moves on by one character; no pattern
    of the source matches the empty string. *)
Fixpoint findall_loop (fuel n0 : nat) (r : re) (s : string) : list mobj :=
  match fuel with
  | O => []
  | S fuel' =>
      match search_from n0 r s with
      | None => []
      | Some m =>
          m :: (if (String.length (m_rest m) <? String.length (m_from m))%nat
                then findall_loop fuel' n0 r (m_rest m)
                else match m_rest m with
                     | EmptyString => []
                     | String _ s' => findall_loop fuel' n0 r s'
                     end)
      end
  end.

Definition finditer (r : re) (s : string) : list mobj :=
  findall_loop (S (String.length s)) (String.length s) r s.

(** [findall] by the number of groups of the pattern *)
Definition findall0 (r : re) (s : string) : list string :=
  map group0 (finditer r s).
Definition findall1 (r : re) (s : string) : list string :=
  map (group 1) (finditer r s).
Definition findall2 (r : re) (s : string) : list (string * string) :=
  map (fun m => (group 1 m, group 2 m)) (finditer r s).

End Re.

(** ** Exceptions and the module directory *)

Module Exc.
(** A computation that may raise: [None] is an uncaught exception. *)
Definition bind {A B : Type} (o : option A) (f : A -> option B) : option B :=
  match o with
  | Some a => f a
  | None => None
  end.

(** a [for] loop whose body may raise *)
Fixpoint foldM {A S : Type} (f : S -> A -> option S) (l : list A) (st : S)
  : option S :=
  match l with
  | [] => Some st
  | x :: l' => bind (f st x) (foldM f l')
  end.
End Exc.

Notation "x <- e ;; k" := (Exc.bind e (fun x => k))
  (at level 61, e at next level, right associativity).

Module FS.
Import PyStr.

Inductive entry : Type :=
| Text (content : string)     (* a readable text file *)
| Directory.

(** the entries of the module directory, in the order the system lists
    them; a module path that does not exist has no entry *)
Definition dir := list (string * entry).

Fixpoint lookup (d : dir) (name : string) : option entry :=
  match d with
  | [] => None
  | (n, e) :: d' => if String.eqb n name then Some e else lookup d' name
  end.

(** [Path(module_path) / file]: a trailing slash is dropped *)
Fixpoint path_name (file : string) : string :=
  match file with
  | EmptyString => EmptyString
  | String c s' =>
      match s' with
      | EmptyString => if Ascii.eqb c "/" then EmptyString else file
      | _ => String c (path_name s')
      end
  end.

(** [(module_path / file).exists()] *)
Definition exists_ (d : dir) (file : string) : bool :=
  Re.is_some (lookup d (path_name file)).

(** [open(module_path / file, 'r').read()]; [IsADirectoryError] and
    [FileNotFoundError] are [None] *)
Definition read (d : dir) (file : string) : option string :=
  match lookup d (path_name file) with
  | Some (Text s) => Some s
  | _ => None
  end.

Fixpoint endswith (suf s : string) : bool :=
  String.eqb s suf ||
  match s with
  | EmptyString => false
  | String _ s' => endswith suf s'
  end.

(** the names of [module_path.glob('*.tf')] *)
Definition glob_tf (d : dir) : list string :=
  filter (endswith ".tf") (map fst d).

(** every [*.tf] entry can be opened and read *)
Definition tf_readable (d : dir) : Prop :=
  forall name, In name (glob_tf d) -> exists s, read d name = Some s.
End FS.

(** ** terraform_module_validator.py *)

Module ModuleValidator.
Import PyStr Re.

(** [self.errors], [self.warnings], [self.info] *)
Record findings : Type := Findings {
  errors : list string;
  warnings : list string;
  info : list string
}.

Definition init : findings := Findings [] [] [].

Definition add_error (st : findings) (m : string) : findings :=
  Findings (errors st ++ [m]) (warnings st) (info st).
Definition add_warning (st : findings) (m : string) : findings :=
  Findings (errors st) (warnings st ++ [m]) (info st).
Definition add_info (st : findings) (m : string) : findings :=
  Findings (errors st) (warnings st) (info st ++ [m]).

Definition required_files : list string :=
  ["main.tf"; "variables.tf"; "outputs.tf"; "versions.tf"].
Definition recommended_files : list string := ["README.md"; "examples/"].

Definition validate_file_structure (d : FS.dir) (st : findings) : findings :=
  let st1 :=
    fold_left
      (fun st file =>
         if FS.exists_ d file
         then add_info st ("✓ Required file exists: " ++ file)
         else add_error st ("✗ Missing required file: " ++ file))
      required_files st in
  fold_left
    (fun st file =>
       if FS.exists_ d file
       then add_info st ("✓ Recommended file/directory exists: " ++ file)
       else add_warning st ("⚠ Missing recommended file/directory: " ++ file))
    recommended_files st1.

Definition _check_brackets (content filename : string) (st : findings)
  : findings :=
  let open_braces := count_char "{" content in
  let close_braces := count_char "}" content in
  if negb (open_braces =? close_braces)%nat
  then add_error st ("✗ " ++ filename ++ ": Unbalanced braces - "
                       ++ str_nat open_braces ++ " open, "
                       ++ str_nat close_braces ++ " close")
  else add_info st ("✓ " ++ filename ++ ": Brackets are balanced").

(** the two-character needle of [line.count], a backslash and a double quote *)
Definition escaped_quote : string := String "\" (str1 dq).

(** one turn of the loop over [enumerate(lines, 1)] *)
Definition check_quotes_line (filename : string) (acc : findings * nat)
           (line : string) : findings * nat :=
  let '(st, i) := acc in
  if startswith "#" (strip line) then (st, S i)
  else
    let quote_count :=
      (Z.of_nat (count_char dq line) - Z.of_nat (count escaped_quote line))%Z in
    if negb (quote_count mod 2 =? 0)%Z
    then (add_warning st ("⚠ " ++ filename ++ ":" ++ str_nat i
                            ++ ": Possible unbalanced quotes"), S i)
    else (st, S i).

Definition _check_quotes (content filename : string) (st : findings)
  : findings :=
  fst (fold_left (check_quotes_line filename) (split nl content) (st, 1)).

(** resource\s+\x22[^\x22]+\x22\s+\x22[^\x22]+\x22\s*{ *)
Definition resource_pattern : re :=
  Cat [Lit "resource"; Plus ws; Chr dq; Plus (Not dq); Chr dq;
       Plus ws; Chr dq; Plus (Not dq); Chr dq; Star ws; Chr "{"].
(** variable\s+\x22[^\x22]+\x22\s*{ *)
Definition variable_pattern : re :=
  Cat [Lit "variable"; Plus ws; Chr dq; Plus (Not dq); Chr dq;
       Star ws; Chr "{"].
(** output\s+\x22[^\x22]+\x22\s*{ *)
Definition output_pattern : re :=
  Cat [Lit "output"; Plus ws; Chr dq; Plus (Not dq); Chr dq;
       Star ws; Chr "{"].

Definition _check_resource_syntax (content filename : string)
           (st : findings) : findings :=
  let resources := findall0 resource_pattern content in
  let st1 :=
    match resources with
    | [] => st
    | _ => add_info st ("✓ " ++ filename ++ ": Found "
                          ++ str_nat (List.length resources)
                          ++ " resource blocks")
    end in
  let st2 :=
    if String.eqb filename "variables.tf"
    then add_info st1 ("✓ " ++ filename ++ ": Found "
                         ++ str_nat (List.length
                                       (findall0 variable_pattern content))
                         ++ " variable definitions")
    else st1 in
  if String.eqb filename "outputs.tf"
  then add_info st2 ("✓ " ++ filename ++ ": Found "
                       ++ str_nat (List.length
                                     (findall0 output_pattern content))
                       ++ " output definitions")
  else st2.

Definition validate_terraform_syntax (d : FS.dir) (st : findings)
  : option findings :=
  Exc.foldM
    (fun st tf_file =>
       let st := add_info st ("Checking syntax for: " ++ tf_file) in
       content <- FS.read d tf_file ;;
       Some (_check_resource_syntax content tf_file
               (_check_quotes content tf_file
                  (_check_brackets content tf_file st))))
    (FS.glob_tf d) st.

(** variable\s+\x22([^\x22]+)\x22 *)
Definition variable_name_pattern : re :=
  Cat [Lit "variable"; Plus ws; Chr dq; Grp 1 (Plus (Not dq)); Chr dq].

Definition validate_variables (d : FS.dir) (st : findings)
  : option findings :=
  if negb (FS.exists_ d "variables.tf") || negb (FS.exists_ d "main.tf")
  then Some st
  else
    variables_content <- FS.read d "variables.tf" ;;
    let variable_names := findall1 variable_name_pattern variables_content in
    let st := add_info st ("✓ Found " ++ str_nat (List.length variable_names)
                             ++ " variable definitions") in
    main_content <- FS.read d "main.tf" ;;
    Some (fold_left
            (fun st var_name =>
               if contains ("var." ++ var_name) main_content
               then add_info st ("✓ Variable '" ++ var_name
                                   ++ "' is used in main.tf")
               else add_warning st ("⚠ Variable '" ++ var_name
                                      ++ "' is defined but not used"))
            variable_names st).

(** output\s+\x22([^\x22]+)\x22\s*{([^}]+)} *)
Definition output_block_pattern : re :=
  Cat [Lit "output"; Plus ws; Chr dq; Grp 1 (Plus (Not dq)); Chr dq;
       Star ws; Chr "{"; Grp 2 (Plus (Not "}")); Chr "}"].

Definition validate_outputs (d : FS.dir) (st : findings) : option findings :=
  if negb (FS.exists_ d "outputs.tf") then Some st
  else
    content <- FS.read d "outputs.tf" ;;
    Some (fold_left
            (fun st (blk : string * string) =>
               let '(output_name, output_content) := blk in
               let st :=
                 if contains "description" output_content
                 then add_info st ("✓ Output '" ++ output_name
                                     ++ "' has description")
                 else add_warning st ("⚠ Output '" ++ output_name
                                        ++ "' missing description") in
               if contains "value" output_content
               then add_info st ("✓ Output '" ++ output_name ++ "' has value")
               else add_error st ("✗ Output '" ++ output_name
                                    ++ "' missing value"))
            (findall2 output_block_pattern content) st).

Definition validate_variable_constraints (d : FS.dir) (st : findings)
  : option findings :=
  if negb (FS.exists_ d "variables.tf") then Some st
  else
    content <- FS.read d "variables.tf" ;;
    let st := add_info st ("✓ Found " ++ str_nat (count "validation {" content)
                             ++ " variable validation blocks") in
    let st := add_info st ("✓ Found " ++ str_nat (count "default =" content)
                             ++ " variables with default values") in
    Some (add_info st ("✓ Found " ++ str_nat (count "type =" content)
                         ++ " variables with type definitions")).

(** resource\s+\x22([^\x22]+)\x22\s+\x22([^\x22]+)\x22 *)
Definition resource_name_pattern : re :=
  Cat [Lit "resource"; Plus ws; Chr dq; Grp 1 (Plus (Not dq)); Chr dq;
       Plus ws; Chr dq; Grp 2 (Plus (Not dq)); Chr dq].

(** ^[a-z][a-z0-9_]*$ , the snake_case convention of the validator *)
Definition snake_case_pattern : re :=
  Cat [Bol; Cls is_lower;
       Star (Cls (fun c => is_lower c || is_digit c || Ascii.eqb c "_"));
       Eol].

Definition validate_naming_conventions (d : FS.dir) (st : findings)
  : option findings :=
  Exc.foldM
    (fun st tf_file =>
       content <- FS.read d tf_file ;;
       Some (fold_left
               (fun st (res : string * string) =>
                  let resource_name := snd res in
                  if negb (is_some (match_ snake_case_pattern resource_name))
                  then add_warning st ("⚠ Resource '" ++ resource_name
                                         ++ "' doesn't follow snake_case convention")
                  else add_info st ("✓ Resource '" ++ resource_name
                                      ++ "' follows naming convention"))
               (findall2 resource_name_pattern content) st))
    (FS.glob_tf d) st.

(** [run_validation]: the findings of the run and the boolean summary *)
Definition run_validation (d : FS.dir) : option (findings * bool) :=
  let st := validate_file_structure d init in
  st <- validate_terraform_syntax d st ;;
  st <- validate_variables d st ;;
  st <- validate_outputs d st ;;
  st <- validate_variable_constraints d st ;;
  st <- validate_naming_conventions d st ;;
  Some (st, (List.length (errors st) =? 0)%nat).

(** [exit(0 if success else 1)]; an uncaught exception ends the process
    with status 1 *)
Definition exit_status (r : option (findings * bool)) : Z :=
  match r with
  | Some (_, true) => 0%Z
  | _ => 1%Z
  end.

End ModuleValidator.

(** ** output_verifier.py *)

Module OutputVerifier.
Import PyStr Re.

(** [self.errors], [self.warnings], [self.info], and what was printed:
    one element of [out] for each call of [print] *)
Record state : Type := State {
  errors : list string;
  warnings : list string;
  info : list string;
  out : list string
}.

Definition init : state := State [] [] [] [].

Definition add_error (st : state) (m : string) : state :=
  State (errors st ++ [m]) (warnings st) (info st) (out st).
Definition add_warning (st : state) (m : string) : state :=
  State (errors st) (warnings st ++ [m]) (info st) (out st).
Definition add_info (st : state) (m : string) : state :=
  State (errors st) (warnings st) (info st ++ [m]) (out st).
Definition print (st : state) (m : string) : state :=
  State (errors st) (warnings st) (info st) (out st ++ [m]).

(** a Python [set] of strings, by its elements in the order they came in *)
Definition set_mem (x : string) (l : list string) : bool :=
  existsb (String.eqb x) l.
Definition set_add (l : list string) (x : string) : list string :=
  if set_mem x l then l else l ++ [x].
Definition set_update (l xs : list string) : list string :=
  fold_left set_add xs l.

(** [sorted(...)] on strings *)
Fixpoint insert_sorted (x : string) (l : list string) : list string :=
  match l with
  | [] => [x]
  | y :: l' => if String.leb x y then x :: l else y :: insert_sorted x l'
  end.
Definition sorted (l : list string) : list string :=
  fold_right insert_sorted [] l.

(** the value of [outputs[name]] *)
Record output_info : Type := OutputInfo {
  description : option string;
  value : option string;
  sensitive : bool
}.

(** a [dict] keyed by strings: assigning to a key that is present keeps
    its place, a new key goes last *)
Fixpoint dict_set {V : Type} (d : list (string * V)) (k : string) (v : V)
  : list (string * V) :=
  match d with
  | [] => [(k, v)]
  | (k', v') :: d' =>
      if String.eqb k' k then (k, v) :: d' else (k', v') :: dict_set d' k v
  end.

(** resource\s+\x22([^\x22]+)\x22\s+\x22([^\x22]+)\x22\s*{ *)
Definition resource_pattern : re :=
  Cat [Lit "resource"; Plus ws; Chr dq; Grp 1 (Plus (Not dq)); Chr dq;
       Plus ws; Chr dq; Grp 2 (Plus (Not dq)); Chr dq; Star ws; Chr "{"].
(** data\s+\x22([^\x22]+)\x22\s+\x22([^\x22]+)\x22\s*{ *)
Definition data_pattern : re :=
  Cat [Lit "data"; Plus ws; Chr dq; Grp 1 (Plus (Not dq)); Chr dq;
       Plus ws; Chr dq; Grp 2 (Plus (Not dq)); Chr dq; Star ws; Chr "{"].

Definition load_resources (d : FS.dir) (st : state)
  : option (list (string * string) * list (string * string) * state) :=
  if negb (FS.exists_ d "main.tf")
  then Some ([], [], print st "❌ main.tf not found in the specified path")
  else
    content <- FS.read d "main.tf" ;;
    Some (findall2 resource_pattern content,
          findall2 data_pattern content, st).

(** description\s*=\s*\x22([^\x22]+)\x22 *)
Definition description_pattern : re :=
  Cat [Lit "description"; Star ws; Chr "="; Star ws;
       Chr dq; Grp 1 (Plus (Not dq)); Chr dq].
(** value\s*=\s*([^\n]+) *)
Definition value_pattern : re :=
  Cat [Lit "value"; Star ws; Chr "="; Star ws; Grp 1 (Plus (Not nl))].
(** sensitive\s*=\s*(true|false) *)
Definition sensitive_pattern : re :=
  Cat [Lit "sensitive"; Star ws; Chr "="; Star ws;
       Grp 1 (Alt (Lit "true") (Lit "false"))].

Definition _extract_description (content : string) : option string :=
  match search description_pattern content with
  | Some m => Some (group 1 m)
  | None => None
  end.

Definition _extract_value (content : string) : option string :=
  match search value_pattern content with
  | Some m => Some (strip (group 1 m))
  | None => None
  end.

Definition _extract_sensitive (content : string) : bool :=
  match search sensitive_pattern content with
  | Some m => String.eqb (group 1 m) "true"
  | None => false
  end.

(** output\s+\x22([^\x22]+)\x22\s*{([^}]+(?:{[^}]*}[^}]* )* )}
    (a blank stands between a star and a closing parenthesis) *)
Definition output_pattern : re :=
  Cat [Lit "output"; Plus ws; Chr dq; Grp 1 (Plus (Not dq)); Chr dq;
       Star ws; Chr "{";
       Grp 2 (Seq (Plus (Not "}"))
                  (Star (Cat [Chr "{"; Star (Not "}"); Chr "}";
                              Star (Not "}")])));
       Chr "}"].

Definition load_outputs (d : FS.dir) (st : state)
  : option (list (string * output_info) * state) :=
  if negb (FS.exists_ d "outputs.tf")
  then Some ([], print st "❌ outputs.tf not found in the specified path")
  else
    content <- FS.read d "outputs.tf" ;;
    Some (fold_left
            (fun output_details (blk : string * string) =>
               let '(output_name, output_content) := blk in
               dict_set output_details output_name
                 (OutputInfo (_extract_description output_content)
                             (_extract_value output_content)
                             (_extract_sensitive output_content)))
            (findall2 output_pattern content) [],
          st).

(** truth value of [None] or a string *)
Definition opt_truthy (o : option string) : bool :=
  match o with
  | Some s => truthy s
  | None => false
  end.
(** the text an f-string puts for [None] or a string *)
Definition opt_str (o : option string) : string :=
  match o with
  | Some s => s
  | None => "None"
  end.

Definition lower_us : re := Cls (fun c => is_lower c || Ascii.eqb c "_").

Definition ref_patterns : list re :=
  [ (* aws_[a-z_]+\.[a-z_]+ *)
    Cat [Lit "aws_"; Plus lower_us; Chr "."; Plus lower_us];
    (* azurerm_[a-z_]+\.[a-z_]+ *)
    Cat [Lit "azurerm_"; Plus lower_us; Chr "."; Plus lower_us];
    (* google_[a-z_]+\.[a-z_]+ *)
    Cat [Lit "google_"; Plus lower_us; Chr "."; Plus lower_us];
    (* data\.[a-z_]+\.[a-z_]+ *)
    Cat [Lit "data"; Chr "."; Plus lower_us; Chr "."; Plus lower_us];
    (* local\.[a-z_]+ *)
    Cat [Lit "local"; Chr "."; Plus lower_us];
    (* var\.[a-z_]+ *)
    Cat [Lit "var"; Chr "."; Plus lower_us] ].

(** [found_refs] after the loop over [ref_patterns] *)
Definition find_refs (value : string) : list string :=
  fold_left (fun found pattern => set_update found (findall0 pattern value))
            ref_patterns [].

Definition msg_valid_ref (output_name ref : string) : string :=
  "✓ Output '" ++ output_name ++ "' references valid resource: " ++ ref.
Definition msg_invalid_ref (output_name ref : string) : string :=
  "✗ Output '" ++ output_name ++ "' references invalid resource: " ++ ref.
Definition line_var_local (ref : string) : string :=
  "    ℹ️  Reference: " ++ ref ++ " (variable/local)".

Section SetOrder.
(** The order in which a [for] loop goes through a [set] is not fixed
    by the language: [iter_set] gives it, from the elements in the
    order they were added. *)
Variable iter_set : list string -> list string.

(** one turn of [for ref in found_refs] *)
Definition check_ref (output_name : string) (available_refs : list string)
           (st : state) (ref : string) : state :=
  if startswith "var." ref || startswith "local." ref
  then print st (line_var_local ref)
  else if set_mem ref available_refs
  then print (add_info st (msg_valid_ref output_name ref))
             ("    ✅ Valid reference: " ++ ref)
  else print (add_error st (msg_invalid_ref output_name ref))
             ("    ❌ Invalid reference: " ++ ref).

Definition _verify_value_references (output_name value : string)
           (available_refs : list string) (st : state) : state :=
  fold_left (check_ref output_name available_refs)
            (iter_set (find_refs value)) st.

(** one turn of [for output_name, output_info in outputs.items()] *)
Definition verify_output (available_refs : list string) (st : state)
           (o : string * output_info) : state :=
  let '(output_name, output_info) := o in
  let st := print st (str1 nl ++ "📤 Output: " ++ output_name) in
  let st :=
    if opt_truthy (description output_info)
    then print (add_info st ("✓ Output '" ++ output_name
                               ++ "' has description"))
               ("  Description: " ++ opt_str (description output_info))
    else print (add_warning st ("⚠ Output '" ++ output_name
                                  ++ "' missing description"))
               "  ⚠️  Missing description" in
  let st :=
    if opt_truthy (value output_info)
    then
      let st := print (add_info st ("✓ Output '" ++ output_name
                                      ++ "' has value"))
                      ("  Value: " ++ opt_str (value output_info)) in
      _verify_value_references output_name (opt_str (value output_info))
                               available_refs st
    else print (add_error st ("✗ Output '" ++ output_name
                                ++ "' missing value"))
               "  ❌ Missing value" in
  if sensitive output_info then print st "  🔒 Marked as sensitive"
  else st.

Definition rule (n : nat) : string :=
  String.concat EmptyString (repeat "=" n).

(** [available_refs] after the two loops that fill it *)
Definition available (resources data_sources : list (string * string))
  : list string :=
  let refs :=
    fold_left (fun refs (r : string * string) =>
                 set_add refs (fst r ++ "." ++ snd r))
              resources [] in
  fold_left (fun refs (r : string * string) =>
               set_add refs ("data." ++ fst r ++ "." ++ snd r))
            data_sources refs.

Definition verify_output_references (d : FS.dir) (st : state)
  : option state :=
  r <- load_resources d st ;;
  let '(resources, data_sources, st) := r in
  o <- load_outputs d st ;;
  let '(outputs, st) := o in
  match outputs with
  | [] => Some st
  | _ =>
      let available_refs := available resources data_sources in
      let st := print st "🔍 Verifying Output References..." in
      let st := print st (rule 50) in
      let st := fold_left (verify_output available_refs) outputs st in
      let st := print st (str1 nl ++ "📊 Available Resources ("
                            ++ str_nat (List.length available_refs)
                            ++ "):") in
      Some (fold_left (fun st ref => print st ("  • " ++ ref))
                      (sorted available_refs) st)
  end.
(** the table [common_outputs], in the order it is written *)
Definition common_outputs : list (string * string) :=
  [ ("id", "Resource identifier");
    ("arn", "Amazon Resource Name");
    ("name", "Resource name");
    ("vpc_id", "VPC identifier");
    ("subnet_id", "Subnet identifier");
    ("security_group_id", "Security group identifier");
    ("instance_id", "Instance identifier");
    ("private_ip", "Private IP address");
    ("public_ip", "Public IP address") ].

(** the inner loop of [verify_common_outputs], which stops at the first
    common name found in the lower-cased name of the output *)
Fixpoint first_common (table : list (string * string)) (output_name : string)
  : option string :=
  match table with
  | [] => None
  | (common_name, description) :: table' =>
      if contains common_name (lower output_name) then Some description
      else first_common table' output_name
  end.

(** [found_common] after the loop over [outputs.keys()] *)
Definition find_common (outputs : list (string * output_info))
  : list (string * string) :=
  fold_left
    (fun found_common (o : string * output_info) =>
       match first_common common_outputs (fst o) with
       | Some description => found_common ++ [(fst o, description)]
       | None => found_common
       end)
    outputs [].

Definition verify_common_outputs (d : FS.dir) (st : state) : option state :=
  o <- load_outputs d st ;;
  let '(outputs, st) := o in
  match outputs with
  | [] => Some st
  | _ =>
      let st := print st (str1 nl ++ "🎯 Checking for Common Outputs...") in
      let st := print st (rule 50) in
      match find_common outputs with
      | [] =>
          Some (print st "ℹ️  No common outputs detected (this may be normal depending on the module)")
      | found_common =>
          Some (fold_left
                  (fun st (f : string * string) =>
                     print st ("  • " ++ fst f ++ ": " ++ snd f))
                  found_common (print st "✅ Found common outputs:"))
      end
  end.

(** [prefixes[prefix].append(output_name)], the list being created when
    the key is new *)
Fixpoint dict_append (prefixes : list (string * list string))
         (prefix output_name : string) : list (string * list string) :=
  match prefixes with
  | [] => [(prefix, [output_name])]
  | (k, l) :: prefixes' =>
      if String.eqb k prefix then (k, l ++ [output_name]) :: prefixes'
      else (k, l) :: dict_append prefixes' prefix output_name
  end.

(** [prefixes] after the loop over [outputs.keys()] *)
Definition group_prefixes (names : list string)
  : list (string * list string) :=
  fold_left
    (fun prefixes output_name =>
       match split "_" output_name with
       | prefix :: _ :: _ => dict_append prefixes prefix output_name
       | _ => prefixes
       end)
    names [].

Definition verify_output_organization (d : FS.dir) (st : state)
  : option state :=
  o <- load_outputs d st ;;
  let '(outputs, st) := o in
  match outputs with
  | [] => Some st
  | _ =>
      let st := print st (str1 nl ++ "📂 Output Organization Analysis...") in
      let st := print st (rule 50) in
      let prefixes := group_prefixes (map fst outputs) in
      let st :=
        match prefixes with
        | [] => st
        | _ =>
            fold_left
              (fun st (g : string * list string) =>
                 fold_left (fun st output => print st ("    • " ++ output))
                           (snd g) (print st ("  " ++ fst g ++ ":")))
              prefixes (print st "📁 Outputs grouped by prefix:")
        end in
      let st := print st (str1 nl ++ "📊 Total outputs: "
                            ++ str_nat (List.length outputs)) in
      Some (print st ("📊 Organized prefixes: "
                        ++ str_nat (List.length prefixes)))
  end.

(** the summary that [run_verification] prints *)
Definition print_summary (st : state) : state :=
  let st := print st (str1 nl ++ "📋 Verification Results:") in
  let st := print st (rule 50) in
  let st :=
    match errors st with
    | [] => st
    | _ => fold_left (fun st' error => print st' ("  " ++ error))
                     (errors st) (print st (str1 nl ++ "❌ ERRORS:"))
    end in
  let st :=
    match warnings st with
    | [] => st
    | _ => fold_left (fun st' warning => print st' ("  " ++ warning))
                     (warnings st) (print st (str1 nl ++ "⚠️  WARNINGS:"))
    end in
  let st :=
    match info st with
    | [] => st
    | _ => print st (str1 nl ++ "✅ SUCCESSFUL CHECKS: "
                       ++ str_nat (List.length (info st)))
    end in
  let st := print st (str1 nl ++ "📊 SUMMARY:") in
  let st := print st ("  Errors: " ++ str_nat (List.length (errors st))) in
  let st := print st ("  Warnings: " ++ str_nat (List.length (warnings st))) in
  print st ("  Successful checks: " ++ str_nat (List.length (info st))).

Definition run_verification (d : FS.dir) : option (state * bool) :=
  let st := print init "🔍 Starting Output Verification..." in
  let st := print st (rule 50) in
  st <- verify_output_references d st ;;
  st <- verify_common_outputs d st ;;
  st <- verify_output_organization d st ;;
  let st := print_summary st in
  if (List.length (errors st) =? 0)%nat
  then Some (print st (str1 nl
                         ++ "🎉 Output verification completed successfully!"),
             true)
  else Some (print st (str1 nl
                         ++ "💥 Output verification failed with errors!"),
             false).

(** [exit(0 if success else 1)]; an uncaught exception ends the process
    with status 1 *)
Definition exit_status (r : option (state * bool)) : Z :=
  match r with
  | Some (_, true) => 0%Z
  | _ => 1%Z
  end.

End SetOrder.

End OutputVerifier.

(** ** variable_validation_tester.py *)

Module VariableTester.
Import PyStr Re.

(** the values of the test tables: strings, lists of strings, booleans
    and [None] *)
Inductive pyval : Type :=
| VStr (s : string)
| VList (l : list string)
| VBool (b : bool)
| VNone.

(** [str(v)].  The items of a list are shown between single quotes, which
    is their [repr] when they hold no quote, backslash or control
    character, as in the tables below. *)
Definition py_str (v : pyval) : string :=
  match v with
  | VStr s => s
  | VList l => "[" ++ join ", " (map (fun s => ("'" ++ s ++ "'")%string) l) ++ "]"
  | VBool true => "True"
  | VBool false => "False"
  | VNone => "None"
  end.

(** the value of [validations[var_name]] *)
Record var_info : Type := VarInfo {
  type : option string;
  default : option string;
  validation_rules : list (string * string)   (* condition, error_message *)
}.

(** type\s*=\s*([^\n]+) *)
Definition type_pattern : re :=
  Cat [Lit "type"; Star ws; Chr "="; Star ws; Grp 1 (Plus (Not nl))].
(** default\s*=\s*([^\n]+) *)
Definition default_pattern : re :=
  Cat [Lit "default"; Star ws; Chr "="; Star ws; Grp 1 (Plus (Not nl))].
(** validation\s*{([^}]+)} *)
Definition validation_pattern : re :=
  Cat [Lit "validation"; Star ws; Chr "{"; Grp 1 (Plus (Not "}")); Chr "}"].
(** condition\s*=\s*([^\n]+) *)
Definition condition_pattern : re :=
  Cat [Lit "condition"; Star ws; Chr "="; Star ws; Grp 1 (Plus (Not nl))].
(** error_message\s*=\s*\x22([^\x22]+)\x22 *)
Definition error_message_pattern : re :=
  Cat [Lit "error_message"; Star ws; Chr "="; Star ws;
       Chr dq; Grp 1 (Plus (Not dq)); Chr dq].
(** variable\s+\x22([^\x22]+)\x22\s*{([^}]+(?:{[^}]*}[^}]* )* )}
    (a blank stands between a star and a closing parenthesis) *)
Definition variable_block_pattern : re :=
  Cat [Lit "variable"; Plus ws; Chr dq; Grp 1 (Plus (Not dq)); Chr dq;
       Star ws; Chr "{";
       Grp 2 (Seq (Plus (Not "}"))
                  (Star (Cat [Chr "{"; Star (Not "}"); Chr "}";
                              Star (Not "}")])));
       Chr "}"].

Definition _extract_type (content : string) : option string :=
  match search type_pattern content with
  | Some m => Some (strip (group 1 m))
  | None => None
  end.

Definition _extract_default (content : string) : option string :=
  match search default_pattern content with
  | Some m => Some (strip (group 1 m))
  | None => None
  end.

Definition _extract_validation_rules (content : string)
  : list (string * string) :=
  fold_left
    (fun rules block =>
       match search condition_pattern block,
             search error_message_pattern block with
       | Some condition_match, Some error_match =>
           rules ++ [(strip (group 1 condition_match), group 1 error_match)]
       | _, _ => rules
       end)
    (findall1 validation_pattern content) [].

(** [None] when opening the file raises *)
Definition load_variable_validations (d : FS.dir)
  : option (list (string * var_info)) :=
  if negb (FS.exists_ d "variables.tf") then Some []
  else
    content <- FS.read d "variables.tf" ;;
    Some (fold_left
            (fun validations (blk : string * string) =>
               let '(var_name, var_content) := blk in
               OutputVerifier.dict_set validations var_name
                 (VarInfo (_extract_type var_content)
                          (_extract_default var_content)
                          (_extract_validation_rules var_content)))
            (findall2 variable_block_pattern content) []).

(** [var_info['type'] and sub in var_info['type']] *)
Definition type_has (sub : string) (vi : var_info) : bool :=
  match type vi with
  | Some t => truthy t && contains sub t
  | None => false
  end.

Definition generate_test_cases (var_name : string) (vi : var_info)
  : list (pyval * bool * string) :=
  let name := lower var_name in
  if contains "region" name then
    [ (VStr "us-east-1", true, "Valid US East region");
      (VStr "eu-west-1", true, "Valid EU West region");
      (VStr "invalid-region", false, "Invalid region format");
      (VStr "us-east", false, "Incomplete region format") ]
  else if contains "cidr" name then
    [ (VStr "10.0.0.0/16", true, "Valid private CIDR");
      (VStr "192.168.1.0/24", true, "Valid private CIDR");
      (VStr "172.16.0.0/12", true, "Valid private CIDR");
      (VStr "invalid-cidr", false, "Invalid CIDR format");
      (VStr "10.0.0.0/33", false, "Invalid CIDR mask") ]
  else if contains "instance_type" name then
    [ (VStr "t3.micro", true, "Valid instance type");
      (VStr "m5.large", true, "Valid instance type");
      (VStr "c5.xlarge", true, "Valid instance type");
      (VStr "invalid.type", false, "Invalid instance type");
      (VStr "nonexistent.huge", false, "Non-existent instance type") ]
  else if contains "name" name || contains "prefix" name then
    [ (VStr "valid-name", true, "Valid name");
      (VStr "test123", true, "Valid name with numbers");
      (VStr "INVALID", false, "Uppercase not allowed");
      (VStr "invalid_name", false, "Underscores not allowed");
      (VStr "123invalid", false, "Cannot start with number") ]
  else if contains "environment" name || contains "env" name then
    [ (VStr "dev", true, "Valid environment");
      (VStr "prod", true, "Valid environment");
      (VStr "staging", true, "Valid environment");
      (VStr "invalid-env", false, "Invalid environment") ]
  else if contains "ami" name then
    [ (VStr "ami-12345678", true, "Valid AMI ID");
      (VStr "ami-abcdef1234567890", true, "Valid long AMI ID");
      (VStr "invalid-ami", false, "Invalid AMI format");
      (VStr "ami-", false, "Incomplete AMI ID") ]
  else if type_has "list" vi then
    [ (VList ["item1"; "item2"], true, "Valid list");
      (VList [], true, "Empty list");
      (VStr "not-a-list", false, "Invalid type") ]
  else if type_has "bool" vi then
    [ (VBool true, true, "Valid boolean true");
      (VBool false, true, "Valid boolean false");
      (VStr "true", false, "String instead of boolean") ]
  else
    [ (VStr "valid-value", true, "Generic valid value");
      (VStr EmptyString, false, "Empty string");
      (VNone, false, "Null value") ].

(** [None] is the exception that the bare [except] of [_validate_cidr]
    catches: the [ValueError] of the unpacking, or of [int] *)
Definition validate_cidr_body (cidr_str : string) : option bool :=
  if negb (contains "/" cidr_str) then Some false
  else
    match split "/" cidr_str with
    | [ip; mask] =>
        let octets := split "." ip in
        if negb (List.length octets =? 4)%nat then Some false
        else
          r <- Exc.foldM
                 (fun (ok : bool) octet =>
                    if ok then
                      if negb (isdigit octet) then Some false
                      else n <- int octet ;;
                           Some ((0 <=? n)%N && (n <=? 255)%N)
                    else Some false)
                 octets true ;;
          if negb r then Some false
          else if negb (isdigit mask) then Some false
          else n <- int mask ;;
               Some ((0 <=? n)%N && (n <=? 32)%N)
    | _ => None
    end.

Definition _validate_cidr (cidr_str : string) : bool :=
  match validate_cidr_body cidr_str with
  | Some b => b
  | None => false
  end.

(** ^[a-z]{2}-[a-z]+-[0-9]$ *)
Definition region_pattern : re :=
  Cat [Bol; Rep 2 (Cls is_lower); Chr "-"; Plus (Cls is_lower); Chr "-";
       Cls is_digit; Eol].
(** ^ami-[0-9a-f]{8,17}$ *)
Definition ami_pattern : re :=
  Cat [Bol; Lit "ami-";
       RepRange 8 17 (Cls (fun c => is_digit c || in_range "a" "f" c));
       Eol].
(** ^[a-z][a-z0-9-]*[a-z0-9]$ *)
Definition name_pattern : re :=
  Cat [Bol; Cls is_lower;
       Star (Cls (fun c => is_lower c || is_digit c || Ascii.eqb c "-"));
       Cls (fun c => is_lower c || is_digit c); Eol].

Definition is_bool (v : pyval) : bool :=
  match v with VBool _ => true | _ => false end.
Definition is_list (v : pyval) : bool :=
  match v with VList _ => true | _ => false end.

(** [validation_info] always has the key ['type']: [.get] gives its
    value, which may be [None], and [str(None)] is the text [None] *)
Definition simulate_validation (var_name : string) (test_value : pyval)
           (validation_info : var_info) : bool :=
  let var_type := OutputVerifier.opt_str (type validation_info) in
  if contains "bool" var_type && negb (is_bool test_value) then false
  else if contains "list" var_type && negb (is_list test_value) then false
  else
    let name := lower var_name in
    if contains "region" name then
      is_some (match_ region_pattern (py_str test_value))
    else if contains "cidr" name then
      _validate_cidr (py_str test_value)
    else if contains "ami" name then
      is_some (match_ ami_pattern (py_str test_value))
    else if contains "name" name || contains "prefix" name then
      match test_value with
      | VStr s => is_some (match_ name_pattern s)
      | _ => false
      end
    else true.

(** the two counters after the loops of [test_variable_combinations] *)
Definition run_tests (validations : list (string * var_info)) : nat * nat :=
  fold_left
    (fun (acc : nat * nat) (v : string * var_info) =>
       let '(var_name, vi) := v in
       fold_left
         (fun (acc : nat * nat) (tc : pyval * bool * string) =>
            let '(total_tests, passed_tests) := acc in
            let '(test_value, expected_valid, _) := tc in
            let result := simulate_validation var_name test_value vi in
            if Bool.eqb result expected_valid
            then (S total_tests, S passed_tests)
            else (S total_tests, passed_tests))
         (generate_test_cases var_name vi) acc)
    validations (0, 0).

Definition test_variable_combinations (d : FS.dir) : option bool :=
  validations <- load_variable_validations d ;;
  match validations with
  | [] => Some false
  | _ =>
      let '(total_tests, passed_tests) := run_tests validations in
      Some (passed_tests =? total_tests)%nat
  end.

Definition exit_status (r : option bool) : Z :=
  match r with
  | Some true => 0%Z
  | _ => 1%Z
  end.

End VariableTester.

(** ** comprehensive_validator.py *)

Module Orchestrator.
Import PyStr Re.

(** What the orchestrator sees of the world: the module path it was given
    and the directory there; for each script, the return code of the
    child process, or [None] when [subprocess.run] raises; whether the
    report file can be opened for writing. *)
Record env : Type := Env {
  module_path : string;
  module_dir : FS.dir;
  spawn : string -> option Z;
  report_writable : bool
}.

Definition run_validation_script (e : env) (script_name : string) : bool :=
  match spawn e script_name with
  | Some returncode => (returncode =? 0)%Z
  | None => false
  end.

(** the lines of [best_practices] and the returned value *)
Definition check_terraform_best_practices (d : FS.dir)
  : option (list string * bool) :=
  bp <- (if FS.exists_ d "versions.tf"
         then content <- FS.read d "versions.tf" ;;
              Some (if contains "required_providers" content
                    then ["✅ Provider version constraints defined"]
                    else ["⚠️  Provider version constraints missing"])
         else Some ["⚠️  versions.tf file missing"]) ;;
  let bp :=
    if FS.exists_ d "examples"
    then bp ++ ["✅ Examples directory exists"]
    else bp ++ ["⚠️  Examples directory missing"] in
  bp <- (if FS.exists_ d "README.md"
         then
           let bp := bp ++ ["✅ README.md exists"] in
           content <- FS.read d "README.md" ;;
           let readme_content := lower content in
           let bp :=
             if contains "usage" readme_content
             then bp ++ ["✅ README contains usage section"]
             else bp ++ ["⚠️  README missing usage section"] in
           Some (if contains "requirements" readme_content
                    || contains "prerequisites" readme_content
                 then bp ++ ["✅ README contains requirements section"]
                 else bp ++ ["⚠️  README missing requirements section"])
         else Some (bp ++ ["❌ README.md missing"])) ;;
  let bp :=
    if FS.exists_ d ".gitignore"
    then bp ++ ["✅ .gitignore exists"]
    else bp ++ ["⚠️  .gitignore missing"] in
  let bp :=
    if FS.exists_ d "locals.tf"
    then bp ++ ["✅ locals.tf exists (good for complex expressions)"]
    else bp in
  Some (bp, true).

(** [sum(1 for _, success in results if success)] *)
Definition count_passed (results : list (string * bool)) : nat :=
  fold_left (fun n (r : string * bool) => if snd r then S n else n)
            results 0.

(** what [generate_validation_report] writes, one element for each
    [f.write]; [None] when the file cannot be opened *)
Definition generate_validation_report (e : env)
           (results : list (string * bool)) : option (list string) :=
  if negb (report_writable e) then None
  else
    let passed := count_passed results in
    let total := List.length results in
    let head : list string :=
      [ "# Terraform Module Validation Report" ++ str1 nl ++ str1 nl;
        "**Module Path:** `" ++ module_path e ++ "`" ++ str1 nl;
        "**Generated:** comprehensive_validator.py" ++ str1 nl ++ str1 nl;
        "## Validation Results" ++ str1 nl ++ str1 nl;
        "**Overall Score:** " ++ str_nat passed ++ "/" ++ str_nat total
          ++ " checks passed" ++ str1 nl ++ str1 nl ]%string in
    let rows : list string :=
      map (fun r : string * bool =>
             ("- " ++ (if snd r then "✅ PASS" else "❌ FAIL") ++ " "
                   ++ fst r ++ str1 nl)%string)
          results in
    let advice : list string :=
      if (passed =? total)%nat
      then [ "🎉 Excellent! Your module passes all validation checks."
               ++ str1 nl ++ str1 nl;
             "### Next Steps:" ++ str1 nl;
             "- Consider adding more comprehensive examples" ++ str1 nl;
             "- Add integration tests if not already present" ++ str1 nl;
             "- Document any specific deployment requirements"
               ++ str1 nl ]%string
      else ("⚠️ Your module needs attention in the following areas:"
              ++ str1 nl ++ str1 nl)%string
           :: map (fun r : string * bool =>
                     ("- **" ++ fst r
                        ++ "**: Review and fix identified issues"
                        ++ str1 nl)%string)
                  (filter (fun r : string * bool => negb (snd r)) results) in
    let tail : list string :=
      [ str1 nl ++ "---" ++ str1 nl;
        "*This report was generated automatically. Review all findings manually.*"
          ++ str1 nl ]%string in
    Some (head ++ rows
            ++ [(str1 nl ++ "## Recommendations" ++ str1 nl ++ str1 nl)%string]
            ++ advice ++ tail).

Definition scripts : list (string * string) :=
  [ ("terraform_module_validator.py",
     "Module Structure and Syntax Validation");
    ("variable_validation_tester.py", "Variable Validation Testing");
    ("output_verifier.py", "Output Verification") ].

(** [validation_results] once the best-practices entry is appended *)
Definition validation_results (e : env) : option (list (string * bool)) :=
  let results :=
    fold_left
      (fun results (sd : string * string) =>
         let '(script, description) := sd in
         results ++ [(description, run_validation_script e script)])
      scripts [] in
  bp <- check_terraform_best_practices (module_dir e) ;;
  Some (results ++ [("Terraform Best Practices", snd bp)]).

(** the loop of [main] that counts [passed] *)
Definition count_loop (results : list (string * bool)) : nat :=
  fold_left (fun passed (r : string * bool) =>
               if snd r then passed + 1 else passed)
            results 0.

Definition main (e : env) : option bool :=
  results <- validation_results e ;;
  let passed := count_loop results in
  let total := List.length results in
  _ <- generate_validation_report e results ;;
  Some (passed =? total)%nat.

(** [exit(0 if success else 1)]; an uncaught exception ends the process
    with status 1 *)
Definition exit_status (r : option bool) : Z :=
  match r with
  | Some true => 0%Z
  | _ => 1%Z
  end.

End Orchestrator.

(** ** Notions used to state the properties *)

Module Spec.
Import PyStr Re.

(** A list of findings only grows: [st'] holds what [st] held, and maybe
    more at the end.  [proj] picks the list. *)
Definition grows {S : Type} (proj : S -> list string) (st st' : S) : Prop :=
  exists l, proj st' = proj st ++ l.

(** A decimal numeral, most significant digit first, and its value. *)
Definition decimal_digit (c : ascii) : Prop :=
  In c (list_ascii_of_string "0123456789").

Definition digit_value (c : ascii) : N := (N_of_ascii c - 48)%N.

Fixpoint decimal_value (s : string) : N :=
  match s with
  | EmptyString => 0%N
  | String c s' =>
      (digit_value c * 10 ^ N.of_nat (String.length s') + decimal_value s')%N
  end.

(** [s] is a decimal integer in the range 0 to [hi] *)
Definition decimal_upto (hi : N) (s : string) : Prop :=
  s <> EmptyString /\
  (forall c, In c (list_ascii_of_string s) -> decimal_digit c) /\
  (decimal_value s <= hi)%N.

(** a text of ASCII characters *)
Definition is_ascii (c : ascii) : bool := (code c <? 128)%N.
Definition ascii_text (s : string) : Prop := forall_chars is_ascii s = true.
(** an ASCII text of 4300 characters at most *)
Definition short_ascii (s : string) : Prop :=
  ascii_text s /\ (N.of_nat (String.length s) <= max_str_digits)%N.


(** The shape of a CIDR block in the words of the specification: a single
    slash; before it, four decimal octets between dots, each in the range
    0 to 255; after it, a decimal integer in the range 0 to 32. *)
Definition cidr_shape (s : string) : Prop :=
  count_char "/" s = 1 /\
  exists a b c d m : string,
    s = (a ++ "." ++ b ++ "." ++ c ++ "." ++ d ++ "/" ++ m)%string /\
    decimal_upto 255 a /\ decimal_upto 255 b /\
    decimal_upto 255 c /\ decimal_upto 255 d /\
    decimal_upto 32 m.

(** [value\s*=], the key of an output's value *)
Definition value_key_pattern : re :=
  Cat [Lit "value"; Star ws; Chr "="].

(** no line of [content] has a match of [r] *)
Definition no_line_matches (r : re) (content : string) : bool :=
  forallb (fun line => negb (is_some (search r line))) (split nl content).

(** a reference the verifier takes for a variable or a local value *)
Definition is_var_local (ref : string) : bool :=
  startswith "var." ref || startswith "local." ref.

(** A name in lower case with hyphens: a lower-case letter, then letters,
    digits and hyphens, then a letter or a digit; [$] lets a line break
    follow. *)
Definition hyphenated (s : string) : Prop :=
  exists (c l : ascii) (body tail : string),
    s = String c (body ++ String l tail) /\
    is_lower c = true /\
    forall_chars (fun x => is_lower x || is_digit x || Ascii.eqb x "-") body
    = true /\
    is_lower l || is_digit l = true /\
    (tail = EmptyString \/ tail = str1 nl).

(** the continuation [k2] fails wherever [k1] fails *)
Definition fails_with {R1 R2 : Type} (k1 : @cont R1) (k2 : @cont R2) : Prop :=
  forall s cs, k1 s cs = None -> k2 s cs = None.

(** The findings of the output verifier, output by output. *)
Definition msg_missing_value (output_name : string) : string :=
  "✗ Output '" ++ output_name ++ "' missing value".
Definition msg_has_value (output_name : string) : string :=
  "✓ Output '" ++ output_name ++ "' has value".
Definition msg_has_description (output_name : string) : string :=
  "✓ Output '" ++ output_name ++ "' has description".

(** what one reference of an output adds to the errors and to the info *)
Definition ref_errors (output_name : string) (available_refs : list string)
           (ref : string) : list string :=
  if is_var_local ref then []
  else if OutputVerifier.set_mem ref available_refs then []
  else [OutputVerifier.msg_invalid_ref output_name ref].
Definition ref_info (output_name : string) (available_refs : list string)
           (ref : string) : list string :=
  if is_var_local ref then []
  else if OutputVerifier.set_mem ref available_refs
  then [OutputVerifier.msg_valid_ref output_name ref]
  else [].

(** what one output adds to the errors and to the info *)
Definition output_errors (iter_set : list string -> list string)
           (available_refs : list string)
           (o : string * OutputVerifier.output_info) : list string :=
  let '(output_name, oi) := o in
  if OutputVerifier.opt_truthy (OutputVerifier.value oi)
  then flat_map (ref_errors output_name available_refs)
                (iter_set (OutputVerifier.find_refs
                             (OutputVerifier.opt_str (OutputVerifier.value oi))))
  else [msg_missing_value output_name].
Definition output_findings (iter_set : list string -> list string)
           (available_refs : list string)
           (o : string * OutputVerifier.output_info) : list string :=
  let '(output_name, oi) := o in
  (if OutputVerifier.opt_truthy (OutputVerifier.description oi)
   then [msg_has_description output_name] else [])
  ++ (if OutputVerifier.opt_truthy (OutputVerifier.value oi)
      then msg_has_value output_name
           :: flat_map (ref_info output_name available_refs)
                       (iter_set (OutputVerifier.find_refs
                                    (OutputVerifier.opt_str
                                       (OutputVerifier.value oi))))
      else []).

End Spec.

(** ** Sample modules *)

Module Examples.
Import PyStr.

Definition quoted (s : string) : string := str1 dq ++ s ++ str1 dq.
Definition line (s : string) : string := s ++ str1 nl.

(** a [main.tf] that declares the resource [aws_instance.web] *)
Definition main_tf : string :=
  line ("resource " ++ quoted "aws_instance" ++ " " ++ quoted "web" ++ " {")
  ++ line "  ami = var.ami_id"
  ++ line "}".

(** a [main.tf] that declares another resource only *)
Definition main_tf_other : string :=
  line ("resource " ++ quoted "aws_s3_bucket" ++ " " ++ quoted "logs" ++ " {")
  ++ line "}".

(** an [outputs.tf] with one output, of value [aws_instance.web.id] *)
Definition outputs_tf : string :=
  line ("output " ++ quoted "instance_id" ++ " {")
  ++ line ("  description = " ++ quoted "The instance")
  ++ line "  value = aws_instance.web.id"
  ++ line "}".

(** the same output, its value key and its equals sign on two lines *)
Definition split_content : string :=
  line EmptyString
  ++ line "  value"
  ++ line "    = aws_instance.web.id".
Definition outputs_tf_split : string :=
  "output " ++ quoted "instance_id" ++ " {" ++ split_content ++ line "}".

Definition module_valid : FS.dir :=
  [("main.tf", FS.Text main_tf); ("outputs.tf", FS.Text outputs_tf)].
Definition module_invalid : FS.dir :=
  [("main.tf", FS.Text main_tf_other); ("outputs.tf", FS.Text outputs_tf)].
Definition module_split : FS.dir :=
  [("main.tf", FS.Text main_tf); ("outputs.tf", FS.Text outputs_tf_split)].

(** two resources, the second laid out over two lines *)
Definition two_resources : string :=
  line ("resource " ++ quoted "aws_instance" ++ " " ++ quoted "web" ++ " {")
  ++ line "}"
  ++ line ("resource   " ++ quoted "aws_s3_bucket")
  ++ quoted "logs" ++ "{}".

(** an output whose block holds a nested block *)
Definition nested_output : string :=
  line ("output " ++ quoted "y" ++ " { a = { b = 1 } c = 2 }").

(** a value left empty, the description on the next line *)
Definition empty_value_content : string :=
  line EmptyString
  ++ line "  value = "
  ++ line ("  description = " ++ quoted "Desc").

(** a loop that goes through a set in the order of insertion *)
Definition in_order (l : list string) : list string := l.

(** a module whose [main.tf] uses [var.environment] and whose
    [variables.tf] declares [environment] and [env] *)
Definition module_env : FS.dir :=
  [ ("main.tf", FS.Text (line "locals { e = var.environment }"));
    ("variables.tf",
     FS.Text (line ("variable " ++ quoted "environment" ++ " {}")
              ++ line ("variable " ++ quoted "env" ++ " {}"))) ].

(** a module that the validator passes *)
Definition module_clean : FS.dir :=
  [ ("main.tf", FS.Text main_tf);
    ("variables.tf",
     FS.Text (line ("variable " ++ quoted "ami_id" ++ " {")
              ++ line "  type = string"
              ++ line "}"));
    ("outputs.tf", FS.Text outputs_tf);
    ("versions.tf", FS.Text (line "terraform { required_version = 1 }")) ].

(** an [outputs.tf] that declares the output [instance_id] twice, and the
    output [name] between the two *)
Definition outputs_tf_twice : string :=
  outputs_tf
  ++ line ("output " ++ quoted "name" ++ " {")
  ++ line "  value = var.name"
  ++ line "}"
  ++ line ("output " ++ quoted "instance_id" ++ " {")
  ++ line "  value = aws_instance.other.id"
  ++ line "}".
Definition module_twice : FS.dir :=
  [("main.tf", FS.Text main_tf); ("outputs.tf", FS.Text outputs_tf_twice)].

(** a [variables.tf] that declares one variable, a string *)
Definition variables_tf_of (var_name : string) : string :=
  line ("variable " ++ quoted var_name ++ " {")
  ++ line "  type = string"
  ++ line "}".
Definition module_var (var_name : string) : FS.dir :=
  [("variables.tf", FS.Text (variables_tf_of var_name))].

(** a [variables.tf] whose variable holds a validation block *)
Definition variables_tf_validated : string :=
  line ("variable " ++ quoted "aws_region" ++ " {")
  ++ line "  type = string"
  ++ line "  validation {"
  ++ line "    condition = length(var.aws_region) > 0"
  ++ line ("    error_message = " ++ quoted "The region is empty.")
  ++ line "  }"
  ++ line "}".
Definition module_validated : FS.dir :=
  [("variables.tf", FS.Text variables_tf_validated)].

(** an [outputs.tf] whose output holds a nested block before its value *)
Definition outputs_tf_nested : string :=
  line ("output " ++ quoted "instance_id" ++ " {")
  ++ line "  precondition {"
  ++ line "    condition = true"
  ++ line "  }"
  ++ line "  value = aws_instance.web.id"
  ++ line "}".
Definition module_nested : FS.dir :=
  [("main.tf", FS.Text main_tf); ("outputs.tf", FS.Text outputs_tf_nested)].
(** its text from the opening brace of the output to the first closing
    brace, and the text after that brace *)
Definition nested_body : string :=
  str1 nl ++ line "  precondition {" ++ line "    condition = true" ++ "  ".
Definition nested_rest : string :=
  str1 nl ++ line "  value = aws_instance.web.id" ++ line "}".

(** the orchestrator where the three scripts are run on the module
    directory and the report can be written *)
Definition env_of (d : FS.dir) : Orchestrator.env :=
  Orchestrator.Env
    "."
    d
    (fun script_name =>
       if String.eqb script_name "terraform_module_validator.py"
       then Some (ModuleValidator.exit_status (ModuleValidator.run_validation d))
       else if String.eqb script_name "variable_validation_tester.py"
       then Some (VariableTester.exit_status
                    (VariableTester.test_variable_combinations d))
       else if String.eqb script_name "output_verifier.py"
       then Some (OutputVerifier.exit_status
                    (OutputVerifier.run_verification in_order d))
       else None)
    true.

(** an [outputs.tf] whose output [token] has no value key, and one where
    a second block of that name, with a value, follows the first *)
Definition token_content : string :=
  line EmptyString ++ line "  sensitive = true".
Definition outputs_tf_token : string :=
  "output " ++ quoted "token" ++ " {" ++ token_content ++ line "}".
Definition outputs_tf_shadowed : string :=
  outputs_tf_token
  ++ line ("output " ++ quoted "token" ++ " {")
  ++ line "  value = var.token"
  ++ line "}".
Definition module_token : FS.dir :=
  [("main.tf", FS.Text main_tf); ("outputs.tf", FS.Text outputs_tf_token)].
Definition module_shadowed : FS.dir :=
  [("main.tf", FS.Text main_tf); ("outputs.tf", FS.Text outputs_tf_shadowed)].

(** a numeral of [n] zeros, and a numeral in Arabic-Indic digits *)
Fixpoint zeros (n : nat) : string :=
  match n with
  | O => EmptyString
  | S n' => String "0" (zeros n')
  end.
Definition long_cidr : string := zeros 4301 ++ ".0.0.0/8".
Definition arabic_cidr : string := "١٠.0.0.0/8".

End Examples.

(** ** Notions used to state further properties *)

Module Facts.
Import PyStr Re.

(** *** The module validator *)

(** the files of a list that the directory does not hold *)
Definition missing (d : FS.dir) (files : list string) : list string :=
  filter (fun f => negb (FS.exists_ d f)) files.

Definition msg_missing_required (file : string) : string :=
  "✗ Missing required file: " ++ file.
Definition msg_missing_recommended (file : string) : string :=
  "⚠ Missing recommended file/directory: " ++ file.

(** as many opening braces as closing braces *)
Definition balanced (content : string) : Prop :=
  count_char "{" content = count_char "}" content.

(** A line that the quote check reports: it is no comment, and its double
    quotes, those after a backslash left out, are in odd number. *)
Definition suspect_line (line : string) : bool :=
  negb (startswith "#" (strip line))
  && Nat.odd (count_char dq line - count ModuleValidator.escaped_quote line).

(** the numbers of the suspect lines of a file, the first line being 1 *)
Definition suspect_lines (content : string) : list nat :=
  let lines := split nl content in
  map fst (filter (fun p : nat * string => suspect_line (snd p))
                  (combine (seq 1 (List.length lines)) lines)).

Definition msg_quotes (filename : string) (i : nat) : string :=
  "⚠ " ++ filename ++ ":" ++ str_nat i ++ ": Possible unbalanced quotes".

(** A module that the validator passes: the four required files are there,
    every [*.tf] file has balanced braces, and every output block of
    [outputs.tf] holds the word [value]. *)
Definition module_clean (d : FS.dir) : Prop :=
  (forall f, In f ModuleValidator.required_files -> FS.exists_ d f = true) /\
  (forall name content,
      In name (FS.glob_tf d) -> FS.read d name = Some content ->
      balanced content) /\
  (forall content blk,
      FS.read d "outputs.tf" = Some content ->
      In blk (findall2 ModuleValidator.output_block_pattern content) ->
      contains "value" (snd blk) = true).

(** the error of the bracket check for one [*.tf] entry *)
Definition bracket_errors (d : FS.dir) (name : string) : list string :=
  match FS.read d name with
  | Some content =>
      if (count_char "{" content =? count_char "}" content)%nat then []
      else ["✗ " ++ name ++ ": Unbalanced braces - "
              ++ str_nat (count_char "{" content) ++ " open, "
              ++ str_nat (count_char "}" content) ++ " close"]%string
  | None => []
  end.

(** the errors of the output blocks of [outputs.tf] *)
Definition output_block_errors (d : FS.dir) : list string :=
  match FS.read d "outputs.tf" with
  | Some content =>
      map (fun blk : string * string =>
             ("✗ Output '" ++ fst blk ++ "' missing value")%string)
          (filter (fun blk : string * string =>
                     negb (contains "value" (snd blk)))
                  (findall2 ModuleValidator.output_block_pattern content))
  | None => []
  end.

Definition msg_found_variables (n : nat) : string :=
  "✓ Found " ++ str_nat n ++ " variable definitions".
Definition msg_variable_used (var_name : string) : string :=
  "✓ Variable '" ++ var_name ++ "' is used in main.tf".
Definition msg_variable_unused (var_name : string) : string :=
  "⚠ Variable '" ++ var_name ++ "' is defined but not used".

(** A name in snake case: a lower-case letter, then lower-case letters,
    digits and underscores; [$] lets a line break follow. *)
Definition snake_case (s : string) : Prop :=
  exists (c : ascii) (body tail : string),
    s = String c (body ++ tail) /\
    is_lower c = true /\
    forall_chars (fun x => is_lower x || is_digit x || Ascii.eqb x "_") body
    = true /\
    (tail = EmptyString \/ tail = str1 nl).

(** the warnings of the naming check for one [*.tf] entry *)
Definition naming_warnings (d : FS.dir) (name : string) : list string :=
  match FS.read d name with
  | Some content =>
      flat_map
        (fun res : string * string =>
           if is_some (match_ ModuleValidator.snake_case_pattern (snd res))
           then []
           else ["⚠ Resource '" ++ snd res
                   ++ "' doesn't follow snake_case convention"]%string)
        (findall2 ModuleValidator.resource_name_pattern content)
  | None => []
  end.

(** *** The output verifier *)

(** the record that [load_outputs] builds from the text of a block *)
Definition output_info_of (content : string) : OutputVerifier.output_info :=
  OutputVerifier.OutputInfo (OutputVerifier._extract_description content)
                            (OutputVerifier._extract_value content)
                            (OutputVerifier._extract_sensitive content).

(** what the two loaders return, apart from what they print *)
Definition resources_of (d : FS.dir)
  : option (list (string * string) * list (string * string)) :=
  option_map fst (OutputVerifier.load_resources d OutputVerifier.init).
Definition outputs_of (d : FS.dir)
  : option (list (string * OutputVerifier.output_info)) :=
  option_map fst (OutputVerifier.load_outputs d OutputVerifier.init).

(** An output that passes: it has a value, and each reference found in the
    value is a variable, a local value, or a declared reference. *)
Definition output_ok (available_refs : list string)
           (o : string * OutputVerifier.output_info) : Prop :=
  OutputVerifier.opt_truthy (OutputVerifier.value (snd o)) = true /\
  forall ref,
    In ref (OutputVerifier.find_refs
              (OutputVerifier.opt_str (OutputVerifier.value (snd o)))) ->
    Spec.is_var_local ref = true \/ In ref available_refs.

Definition msg_missing_description (output_name : string) : string :=
  "⚠ Output '" ++ output_name ++ "' missing description".

(** the warnings of a run: the outputs without a description *)
Definition output_warnings (o : string * OutputVerifier.output_info)
  : list string :=
  if OutputVerifier.opt_truthy (OutputVerifier.description (snd o)) then []
  else [msg_missing_description (fst o)].

Definition line_outputs_not_found : string :=
  "❌ outputs.tf not found in the specified path".


(** a step that only prints: the three lists of findings are as before *)
Definition same_findings (st st' : OutputVerifier.state) : Prop :=
  OutputVerifier.errors st' = OutputVerifier.errors st /\
  OutputVerifier.warnings st' = OutputVerifier.warnings st /\
  OutputVerifier.info st' = OutputVerifier.info st.

(** the blocks of a name that a [dict] filled block by block keeps: the
    last one of each name *)
Definition last_block {C : Type} (blocks : list (string * C))
           (name : string) (c : C) : Prop :=
  exists l1 l2, blocks = l1 ++ (name, c) :: l2 /\ ~ In name (map fst l2).

(** the prefix under which [verify_output_organization] files a name: the
    text before its first underscore, when it has one *)
Definition prefix_of (output_name : string) : option string :=
  match split "_" output_name with
  | prefix :: _ :: _ => Some prefix
  | _ => None
  end.

(** the name is filed under [prefix] *)
Definition under (prefix output_name : string) : bool :=
  match prefix_of output_name with
  | Some p => String.eqb p prefix
  | None => false
  end.

(** the descriptions of [common_outputs] that can be reported *)
Definition reported_descriptions : list string :=
  [ "Resource identifier"; "Amazon Resource Name"; "Resource name";
    "Private IP address"; "Public IP address" ].

(** *** The variable tester *)

(** the simulator gives the test case the result that the table expects *)
Definition agrees (var_name : string) (vi : VariableTester.var_info)
           (tc : VariableTester.pyval * bool * string) : bool :=
  let '(test_value, expected_valid, _) := tc in
  Bool.eqb (VariableTester.simulate_validation var_name test_value vi)
           expected_valid.

(** The variables whose table holds a case that the simulator cannot
    meet, in the order of [generate_test_cases]: outside the region and
    CIDR categories, a name that holds [instance_type]; or, outside the
    name category too, a name that holds [env]; or else a name without
    [ami] whose type mentions neither [list] nor [bool]. *)
Definition unpassable (var_name : string) (vi : VariableTester.var_info)
  : bool :=
  let name := lower var_name in
  negb (contains "region" name) && negb (contains "cidr" name)
  && (contains "instance_type" name
      || negb (contains "name" name || contains "prefix" name)
         && (contains "environment" name || contains "env" name
             || negb (contains "ami" name)
                && negb (VariableTester.type_has "list" vi)
                && negb (VariableTester.type_has "bool" vi))).

(** *** Patterns *)

(** every match of the pattern takes the character [c] from the text *)
Fixpoint requires (c : ascii) (r : re) : bool :=
  match r with
  | Chr x => Ascii.eqb x c
  | Seq a b => requires c a || requires c b
  | Alt a b => requires c a && requires c b
  | Grp _ a => requires c a
  | _ => false
  end.

(** a pattern without a capturing group *)
Fixpoint no_group (r : re) : bool :=
  match r with
  | Grp _ _ => false
  | Seq a b | Alt a b => no_group a && no_group b
  | Star a => no_group a
  | _ => true
  end.

(** The text of a block of the kind [word] and of the name [name],
    followed by [post]: the word, the blanks [w1], the name between
    double quotes, the blanks [w2], an opening brace, and [body] up to the
    first closing brace that follows. *)
Definition block_text (word w1 name w2 body post : string) : string :=
  (word ++ w1
        ++ String dq (name ++ String dq (w2
             ++ String "{" (body ++ String "}" post))))%string.
Definition block_shape (w1 name w2 body : string) : Prop :=
  forall_chars is_space w1 = true /\ w1 <> EmptyString /\
  forall_chars is_space w2 = true /\
  name <> EmptyString /\ count_char dq name = 0 /\
  body <> EmptyString /\ count_char "}" body = 0.

(** the text holds such a block *)
Definition block_at (word name body content : string) : Prop :=
  exists pre w1 w2 post : string,
    content = (pre ++ block_text word w1 name w2 body post)%string /\
    block_shape w1 name w2 body.

(** the body of a block in the patterns for variables and outputs:
    [^}]+(?:{[^}]*}[^}]* )*, a blank standing between a star and a
    closing parenthesis *)
Definition block_body : re :=
  Seq (Plus (Not "}"))
      (Star (Cat [Chr "{"; Star (Not "}"); Chr "}"; Star (Not "}")])).

(** *** The orchestrator *)

(** Each child process ends with the status that its script gives for
    the module directory. *)
Definition children_run (iter_set : list string -> list string)
           (e : Orchestrator.env) : Prop :=
  let d := Orchestrator.module_dir e in
  Orchestrator.spawn e "terraform_module_validator.py"
  = Some (ModuleValidator.exit_status (ModuleValidator.run_validation d)) /\
  Orchestrator.spawn e "variable_validation_tester.py"
  = Some (VariableTester.exit_status
            (VariableTester.test_variable_combinations d)) /\
  Orchestrator.spawn e "output_verifier.py"
  = Some (OutputVerifier.exit_status
            (OutputVerifier.run_verification iter_set d)).

(** the text before the first closing brace, and the text after it *)
Fixpoint upto_brace (s : string) : option (string * string) :=
  match s with
  | EmptyString => None
  | String c s' =>
      if Ascii.eqb c "}" then Some (EmptyString, s')
      else match upto_brace s' with
           | Some (run, r) => Some (String c run, r)
           | None => None
           end
  end.

(** the match of a block body and the closing brace, where the body of
    the block starts: the body goes to the first closing brace, and is
    not empty *)
Definition block_result (s0 s : string) (cs : caps) : option mobj :=
  match upto_brace s with
  | Some (String c run, r) => Some (MObj s0 r ((2, String c run) :: cs))
  | _ => None
  end.

(** every character that a match of the pattern takes satisfies [p] *)
Fixpoint takes_only (p : ascii -> bool) (r : re) : Prop :=
  match r with
  | Chr c => p c = true
  | Cls q => forall x, q x = true -> p x = true
  | Seq a b | Alt a b => takes_only p a /\ takes_only p b
  | Star a | Grp _ a => takes_only p a
  | _ => True
  end.

(** a pattern made of literal characters, and the text that every match
    of a pattern starts with: its leading literal characters *)
Fixpoint fixed (r : re) : bool :=
  match r with
  | Eps | Chr _ => true
  | Seq a b => fixed a && fixed b
  | _ => false
  end.
Fixpoint leading (r : re) : string :=
  match r with
  | Chr c => str1 c
  | Seq a b => leading a ++ (if fixed a then leading b else EmptyString)
  | _ => EmptyString
  end.

(** the characters of a reference: lower-case letters, underscores and
    dots *)
Definition ref_char (c : ascii) : bool :=
  is_lower c || Ascii.eqb c "_" || Ascii.eqb c ".".

(** the words that a reference starts with *)
Definition ref_prefixes : list string :=
  ["aws_"; "azurerm_"; "google_"; "data."; "local."; "var."].

(** the lines of the report file after the writes of
    [generate_validation_report], and three of them: the status of a
    check, the congratulation, and the advice for a check that failed *)
Definition report_lines (chunks : list string) : list string :=
  split nl (String.concat "" chunks).
Definition line_row (r : string * bool) : string :=
  "- " ++ (if snd r then "✅ PASS" else "❌ FAIL") ++ " " ++ fst r.
Definition line_congratulation : string :=
  "🎉 Excellent! Your module passes all validation checks.".
Definition line_attention (description : string) : string :=
  "- **" ++ description ++ "**: Review and fix identified issues".

End Facts.

(** * Properties *)

Import PyStr Re.

(** ** Strings *)

Lemma append_assoc (s1 s2 s3 : string) :
  ((s1 ++ s2) ++ s3 = s1 ++ (s2 ++ s3))%string.
Proof. induction s1 as [|c s1 IH]; simpl; [reflexivity | now rewrite IH]. Qed.

Lemma append_nil_r (s : string) : (s ++ EmptyString)%string = s.
Proof. induction s as [|c s IH]; simpl; [reflexivity | now rewrite IH]. Qed.

Lemma length_append (s1 s2 : string) :
  String.length (s1 ++ s2) = String.length s1 + String.length s2.
Proof. induction s1 as [|c s1 IH]; simpl; [reflexivity | now rewrite IH]. Qed.

Lemma append_inv_head (p s1 s2 : string) :
  (p ++ s1)%string = (p ++ s2)%string -> s1 = s2.
Proof.
  induction p as [|c p IH]; simpl; intro H; [exact H|].
  injection H as H. now apply IH.
Qed.

(** ** Lists of findings only grow *)

Section Growth.
Context {S A : Type}.
Variable proj : S -> list string.

Lemma grows_refl st : Spec.grows proj st st.
Proof. exists []. now rewrite app_nil_r. Qed.

Lemma grows_trans st1 st2 st3 : Spec.grows proj st1 st2 -> Spec.grows proj st2 st3 -> Spec.grows proj st1 st3.
Proof.
  intros [l1 H1] [l2 H2]. exists (l1 ++ l2).
  now rewrite H2, H1, app_assoc.
Qed.

Lemma grows_nonempty st st' : Spec.grows proj st st' -> proj st <> [] -> proj st' <> [].
Proof.
  intros [l H] Hne. rewrite H. destruct (proj st); [easy | discriminate].
Qed.

Lemma grows_In st st' m : Spec.grows proj st st' -> In m (proj st) -> In m (proj st').
Proof. intros [l H] Hin. rewrite H. apply in_or_app. now left. Qed.

Lemma fold_left_grows (f : S -> A -> S) :
  (forall st x, Spec.grows proj st (f st x)) ->
  forall l st, Spec.grows proj st (fold_left f l st).
Proof.
  intros Hf l. induction l as [|x l IH]; intro st; simpl.
  - apply grows_refl.
  - eapply grows_trans; [apply Hf | apply IH].
Qed.

Lemma foldM_grows (f : S -> A -> option S) :
  (forall st x st', f st x = Some st' -> Spec.grows proj st st') ->
  forall l st st', Exc.foldM f l st = Some st' -> Spec.grows proj st st'.
Proof.
  intros Hf l. induction l as [|x l IH]; intros st st' H; simpl in H.
  - injection H as <-. apply grows_refl.
  - destruct (f st x) as [st1|] eqn:E; simpl in H; [|discriminate].
    eapply grows_trans; [eapply Hf; eassumption | eapply IH; eassumption].
Qed.

Lemma foldM_total (f : S -> A -> option S) (l : list A) :
  (forall x, In x l -> forall st, exists st', f st x = Some st') ->
  forall st, exists st', Exc.foldM f l st = Some st'.
Proof.
  induction l as [|x l IH]; intros Hf st; simpl.
  - now exists st.
  - destruct (Hf x (or_introl eq_refl) st) as [st1 E]. rewrite E. simpl.
    apply IH. intros y Hy. apply Hf. now right.
Qed.
End Growth.

(** ** The directory model *)

Lemma lookup_In (d : FS.dir) (n : string) (e : FS.entry) :
  FS.lookup d n = Some e -> In n (map fst d).
Proof.
  induction d as [|[n' e'] d IH]; simpl; [discriminate|].
  destruct (String.eqb n' n) eqn:E.
  - apply String.eqb_eq in E. now left.
  - intro H. right. now apply IH.
Qed.

Lemma exists_glob_tf (d : FS.dir) (file : string) :
  FS.path_name file = file -> FS.endswith ".tf" file = true ->
  FS.exists_ d file = true -> In file (FS.glob_tf d).
Proof.
  intros Hp He Hx. unfold FS.exists_ in Hx. rewrite Hp in Hx.
  destruct (FS.lookup d file) as [e|] eqn:E; [|discriminate].
  unfold FS.glob_tf. apply filter_In. split; [|assumption].
  eapply lookup_In; eassumption.
Qed.

Lemma exists_tf_readable (d : FS.dir) (file : string) :
  FS.tf_readable d ->
  FS.path_name file = file -> FS.endswith ".tf" file = true ->
  FS.exists_ d file = true -> exists s, FS.read d file = Some s.
Proof.
  intros Hr Hp He Hx. apply Hr. now apply exists_glob_tf.
Qed.

Lemma read_exists (d : FS.dir) (file content : string) :
  FS.read d file = Some content -> FS.exists_ d file = true.
Proof.
  unfold FS.read, FS.exists_.
  destruct (FS.lookup d (FS.path_name file)) as [[c|]|]; simpl;
    intro H; try discriminate; reflexivity.
Qed.

(** ** Splitting, digits and numerals *)

Section Split.
Variable c : ascii.

Lemma count_char_app (s1 s2 : string) :
  count_char c (s1 ++ s2) = count_char c s1 + count_char c s2.
Proof.
  induction s1 as [|x s1 IH]; simpl; [reflexivity|]. rewrite IH. lia.
Qed.

Lemma split_not_nil (s : string) : split c s <> [].
Proof.
  destruct s as [|x s]; simpl; [discriminate|].
  destruct (Ascii.eqb x c); [discriminate|].
  destruct (split c s); discriminate.
Qed.

(** a text without the separator is one piece *)
Lemma split_single (s : string) : count_char c s = 0 -> split c s = [s].
Proof.
  induction s as [|x s IH]; simpl; [reflexivity|].
  destruct (Ascii.eqb x c); [discriminate|]. simpl.
  intro H. now rewrite (IH H).
Qed.

(** the first piece ends at the first separator *)
Lemma split_app (a rest : string) :
  count_char c a = 0 ->
  split c (a ++ String c rest) = a :: split c rest.
Proof.
  induction a as [|x a IH]; simpl.
  - now rewrite Ascii.eqb_refl.
  - destruct (Ascii.eqb x c); [discriminate|]. simpl.
    intro H. now rewrite (IH H).
Qed.

(** what [split] returns, read backwards *)
Lemma split_cons_inv (s a : string) (l : list string) :
  split c s = a :: l ->
  count_char c a = 0 /\
  ((l = [] /\ s = a) \/
   (exists rest, s = (a ++ String c rest)%string /\ split c rest = l)).
Proof.
  revert a l. induction s as [|x s IH]; intros a l; simpl.
  - intro H. injection H as <- <-. auto.
  - destruct (Ascii.eqb x c) eqn:E.
    + apply Ascii.eqb_eq in E. subst x.
      intro H. injection H as <- <-. split; [reflexivity|].
      right. now exists s.
    + destruct (split c s) as [|h t] eqn:Es; [now destruct (split_not_nil s)|].
      intro H. injection H as <- <-.
      destruct (IH h t eq_refl) as [H0 Hs]. simpl. rewrite E. split; [exact H0|].
      destruct Hs as [[-> ->]|[rest [-> Hr]]]; [now left|].
      right. now exists rest.
Qed.

Lemma contains_char (s : string) :
  contains (str1 c) s = true <-> count_char c s <> 0.
Proof.
  induction s as [|x s IH].
  - simpl. split; [discriminate | congruence].
  - cbn [contains count_char]. unfold startswith, str1.
    cbn [String.prefix]. destruct (ascii_dec c x) as [->|Hne].
    + rewrite Ascii.eqb_refl. destruct s; simpl; split; auto; discriminate.
    + assert (E : Ascii.eqb x c = false)
        by (apply Ascii.eqb_neq; congruence).
      rewrite E. simpl. exact IH.
Qed.
End Split.

Lemma forall_chars_In (p : ascii -> bool) (s : string) :
  forall_chars p s = true <->
  forall x, In x (list_ascii_of_string s) -> p x = true.
Proof.
  induction s as [|x s IH]; simpl.
  - split; [intros _ y [] | reflexivity].
  - rewrite andb_true_iff, IH. split.
    + intros [Hx Hs] y [<-|Hy]; auto.
    + intro H. split; [apply H; now left | intros y Hy; apply H; now right].
Qed.

Lemma is_digit_decimal (x : ascii) :
  is_digit x = true <-> Spec.decimal_digit x.
Proof.
  unfold Spec.decimal_digit.
  assert (E : is_digit x
              = existsb (Ascii.eqb x) (list_ascii_of_string "0123456789")).
  { destruct x as [[] [] [] [] [] [] [] []]; vm_compute; reflexivity. }
  rewrite E, existsb_exists. split.
  - intros [y [Hy Hxy]]. apply Ascii.eqb_eq in Hxy. now subst.
  - intro H. exists x. split; [exact H | apply Ascii.eqb_refl].
Qed.

(** ** Digits: the ASCII texts *)

Lemma is_digit_ascii (x : ascii) : is_digit x = true -> Spec.is_ascii x = true.
Proof.
  destruct x as [[] [] [] [] [] [] [] []]; vm_compute; congruence.
Qed.

(** on an ASCII character the digits of Unicode are the digits 0 to 9 *)
Lemma unicode_digit_ascii (x : ascii) :
  Spec.is_ascii x = true ->
  is_decimal (code x) || is_other_digit (code x) = is_digit x.
Proof.
  destruct x as [[] [] [] [] [] [] [] []]; vm_compute; congruence.
Qed.

Lemma decimal_of_digit (x : ascii) :
  is_digit x = true -> decimal_of (code x) = Some (Spec.digit_value x).
Proof.
  destruct x as [[] [] [] [] [] [] [] []]; vm_compute; congruence.
Qed.

(** the characters of an ASCII text are its bytes *)
Lemma decode_ascii (s : string) :
  Spec.ascii_text s -> decode s = map code (list_ascii_of_string s).
Proof.
  unfold Spec.ascii_text.
  induction s as [|x s IH]; cbn [forall_chars]; [reflexivity|].
  intro H. apply andb_true_iff in H as [Hx Hs].
  cbn [decode list_ascii_of_string map]. unfold Spec.is_ascii in Hx.
  now rewrite Hx, (IH Hs).
Qed.

Lemma digits_ascii (s : string) :
  forall_chars is_digit s = true -> Spec.ascii_text s.
Proof.
  unfold Spec.ascii_text.
  induction s as [|x s IH]; cbn [forall_chars]; [reflexivity|].
  intro H. apply andb_true_iff in H as [Hx Hs].
  now rewrite (is_digit_ascii x Hx), (IH Hs).
Qed.

Lemma forallb_digits (s : string) :
  Spec.ascii_text s ->
  forallb (fun cp => is_decimal cp || is_other_digit cp)
          (map code (list_ascii_of_string s))
  = forall_chars is_digit s.
Proof.
  unfold Spec.ascii_text.
  induction s as [|x s IH]; cbn [forall_chars]; [reflexivity|].
  intro H. apply andb_true_iff in H as [Hx Hs].
  cbn [list_ascii_of_string map forallb].
  now rewrite (unicode_digit_ascii x Hx), (IH Hs).
Qed.

Lemma isdigit_spec (s : string) :
  Spec.ascii_text s ->
  (isdigit s = true <->
   s <> EmptyString /\ forall_chars is_digit s = true).
Proof.
  intro Ha. unfold isdigit. rewrite (decode_ascii s Ha).
  destruct s as [|x s].
  - cbn. split; [discriminate | intros [H _]; congruence].
  - rewrite <- (forallb_digits _ Ha).
    cbn [list_ascii_of_string map]. split.
    + intro H. split; [discriminate | exact H].
    + now intros [_ H].
Qed.

(** the loop of [int] computes the positional value *)
Lemma int_acc_value (s : string) :
  forall_chars is_digit s = true ->
  forall acc,
    int_acc acc (map code (list_ascii_of_string s))
    = Some (acc * 10 ^ N.of_nat (String.length s) + Spec.decimal_value s)%N.
Proof.
  induction s as [|x s IH]; intros H acc.
  - cbn. f_equal. lia.
  - cbn [Spec.decimal_value String.length forall_chars] in *.
    apply andb_true_iff in H as [Hx Hs].
    cbn [list_ascii_of_string map int_acc].
    rewrite (decimal_of_digit x Hx), (IH Hs).
    f_equal. rewrite Nat2N.inj_succ, N.pow_succ_r'. ring.
Qed.

Lemma length_decode_ascii (s : string) :
  Spec.ascii_text s -> List.length (decode s) = String.length s.
Proof.
  intro Ha. rewrite (decode_ascii s Ha), length_map.
  clear. induction s as [|x s IH]; cbn; [reflexivity | now rewrite IH].
Qed.

(** [int] on a numeral of ASCII digits, 4300 of them at most *)
Lemma int_isdigit (s : string) :
  Spec.ascii_text s ->
  (N.of_nat (String.length s) <= max_str_digits)%N ->
  isdigit s = true -> int s = Some (Spec.decimal_value s).
Proof.
  intros Ha Hlen H. apply (isdigit_spec s Ha) in H as [Hne Hd].
  unfold int. rewrite <- (length_decode_ascii s Ha) in Hlen.
  apply N.leb_le in Hlen. rewrite (decode_ascii s Ha) in *.
  destruct s as [|x s]; [congruence|].
  cbn [list_ascii_of_string map] in *. rewrite Hlen.
  change (code x :: map code (list_ascii_of_string s))
    with (map code (list_ascii_of_string (String x s))).
  rewrite (int_acc_value _ Hd). reflexivity.
Qed.

(** a text of more than 4300 characters is no integer for [int] *)
Lemma int_too_long (s : string) :
  (max_str_digits < N.of_nat (List.length (decode s)))%N -> int s = None.
Proof.
  intro H. unfold int. destruct (decode s) as [|cp cps]; [reflexivity|].
  apply N.leb_gt in H. now rewrite H.
Qed.

(** the decimal integers of the specification, as the code tests them *)
Lemma decimal_upto_code (hi : N) (s : string) :
  Spec.decimal_upto hi s <->
  Spec.ascii_text s /\ isdigit s = true /\
  (Spec.decimal_value s <=? hi)%N = true.
Proof.
  unfold Spec.decimal_upto. rewrite N.leb_le. split.
  - intros [H1 [H2 H3]].
    assert (Hd : forall_chars is_digit s = true).
    { apply forall_chars_In. intros x Hx. apply is_digit_decimal. auto. }
    pose proof (digits_ascii s Hd) as Ha.
    split; [exact Ha|]. split; [|exact H3].
    apply (isdigit_spec s Ha). auto.
  - intros [Ha [H H3]]. apply (isdigit_spec s Ha) in H as [H1 H2].
    repeat split; try assumption.
    intros x Hx. apply is_digit_decimal.
    now apply (proj1 (forall_chars_In _ _) H2).
Qed.

(** a decimal numeral holds no other character *)
Lemma isdigit_count (x : ascii) (s : string) :
  is_digit x = false -> forall_chars is_digit s = true -> count_char x s = 0.
Proof.
  intros Hx H.
  induction s as [|y s IH]; simpl; [reflexivity|].
  simpl in H. apply andb_true_iff in H as [Hy Hs].
  destruct (Ascii.eqb y x) eqn:E.
  - apply Ascii.eqb_eq in E. congruence.
  - now rewrite (IH Hs).
Qed.

(** the pieces of a text are no longer than the text, and keep what
    holds of its characters *)
Lemma split_pieces (p : ascii -> bool) (c : ascii) (s : string) :
  forall_chars p s = true ->
  forall t, In t (split c s) ->
            forall_chars p t = true /\ String.length t <= String.length s.
Proof.
  induction s as [|x s IH]; cbn [split forall_chars].
  - intros _ t [<-|[]]. auto.
  - intro H. apply andb_true_iff in H as [Hx Hs]. specialize (IH Hs).
    destruct (Ascii.eqb x c).
    + intros t [<-|Ht]; [cbn; split; [reflexivity | lia]|].
      destruct (IH t Ht) as [H1 H2]. cbn. split; [exact H1 | lia].
    + destruct (split c s) as [|h tl] eqn:E.
      * intros t [<-|[]]. cbn. rewrite Hx. split; [reflexivity | lia].
      * intros t [<-|Ht].
        -- destruct (IH h (or_introl eq_refl)) as [H1 H2].
           cbn. rewrite Hx, H1. split; [reflexivity | lia].
        -- destruct (IH t (or_intror Ht)) as [H1 H2]. cbn. split; [exact H1 | lia].
Qed.

Lemma split_two (c : ascii) (s a b : string) :
  split c s = [a; b] <->
  s = (a ++ String c b)%string /\ count_char c a = 0 /\ count_char c b = 0.
Proof.
  split.
  - intro H. apply split_cons_inv in H as [Ha [[H _]|[rest [-> Hr]]]];
      [discriminate|].
    apply split_cons_inv in Hr as [Hb [[_ ->]|[rest' [_ Hr']]]].
    + auto.
    + now destruct (split_not_nil c rest').
  - intros [-> [Ha Hb]]. rewrite (split_app c a b Ha).
    now rewrite (split_single c b Hb).
Qed.

Lemma split_four (c : ascii) (s x1 x2 x3 x4 : string) :
  split c s = [x1; x2; x3; x4] <->
  s = (x1 ++ String c (x2 ++ String c (x3 ++ String c x4)))%string /\
  count_char c x1 = 0 /\ count_char c x2 = 0 /\
  count_char c x3 = 0 /\ count_char c x4 = 0.
Proof.
  split.
  - intro H. apply split_cons_inv in H as [H1 [[H _]|[r1 [-> Hr]]]];
      [discriminate|].
    apply split_cons_inv in Hr as [H2 [[H _]|[r2 [-> Hr]]]];
      [discriminate|].
    apply split_two in Hr as [-> [H3 H4]]. auto.
  - intros [-> [H1 [H2 [H3 H4]]]].
    rewrite (split_app c x1 _ H1), (split_app c x2 _ H2).
    now rewrite (proj2 (split_two c _ x3 x4)).
Qed.

(** ** The matcher: a pattern that fails, fails with any continuation *)

Section MatcherFailure.
Context {R1 R2 : Type}.
Variable n0 : nat.

Lemma star_loop_none
      (body1 : string -> caps -> @cont R1 -> option R1)
      (body2 : string -> caps -> @cont R2 -> option R2) :
  (forall s cs k1 k2,
      Spec.fails_with k1 k2 -> body1 s cs k1 = None -> body2 s cs k2 = None) ->
  forall k1 k2, Spec.fails_with k1 k2 ->
  forall fuel s cs,
    star_loop body1 k1 fuel s cs = None ->
    star_loop body2 k2 fuel s cs = None.
Proof.
  intros Hbody k1 k2 Hk fuel.
  induction fuel as [|fuel IH]; intros s cs; simpl.
  - apply Hk.
  - destruct (body1 s cs _) eqn:E1; [discriminate|]. intro H1.
    assert (Hin : Spec.fails_with
                    (fun s' cs' =>
                       if (String.length s' <? String.length s)%nat
                       then star_loop body1 k1 fuel s' cs' else None)
                    (fun s' cs' =>
                       if (String.length s' <? String.length s)%nat
                       then star_loop body2 k2 fuel s' cs' else None)).
    { intros s' cs'. destruct (_ <? _)%nat; [apply IH | reflexivity]. }
    rewrite (Hbody s cs _ _ Hin E1). now apply Hk.
Qed.

Lemma mt_none (r : re) :
  forall s cs (k1 : @cont R1) (k2 : @cont R2),
    Spec.fails_with k1 k2 ->
    mt n0 r s cs k1 = None -> mt n0 r s cs k2 = None.
Proof.
  induction r as [|c|p|a IHa b IHb|a IHa b IHb|a IHa|i a IHa| |];
    intros s cs k1 k2 Hk; simpl.
  - apply Hk.
  - destruct s as [|x s]; [reflexivity|].
    destruct (Ascii.eqb x c); [apply Hk | reflexivity].
  - destruct s as [|x s]; [reflexivity|].
    destruct (p x); [apply Hk | reflexivity].
  - apply IHa. intros s' cs'. now apply IHb.
  - destruct (mt n0 a s cs k1) eqn:E1; [discriminate|]. intro H1.
    rewrite (IHa s cs k1 k2 Hk E1). now apply (IHb s cs k1 k2).
  - apply star_loop_none; [|exact Hk].
    intros s' cs' k1' k2' Hk'. now apply IHa.
  - apply IHa. intros s' cs'. apply Hk.
  - destruct (String.length s =? n0)%nat; [apply Hk | reflexivity].
  - destruct (_ || _); [apply Hk | reflexivity].
Qed.
End MatcherFailure.

(** a pattern that does not match: neither does the pattern followed by
    more *)
Lemma match_at_prefix_none (n0 : nat) (a b : re) (s : string) :
  match_at n0 a s = None -> match_at n0 (Seq a b) s = None.
Proof.
  unfold match_at. simpl. apply mt_none.
  intros s' cs' H. discriminate H.
Qed.

Lemma search_from_prefix_none (n0 : nat) (a b : re) (s : string) :
  search_from n0 a s = None -> search_from n0 (Seq a b) s = None.
Proof.
  induction s as [|x s IH]; simpl.
  - destruct (match_at n0 a EmptyString) eqn:E; [discriminate|]. intros _.
    now rewrite (match_at_prefix_none _ _ b _ E).
  - destruct (match_at n0 a (String x s)) eqn:E; [discriminate|]. intro H.
    rewrite (match_at_prefix_none _ _ b _ E). now apply IH.
Qed.

Lemma search_from_ext (n0 : nat) (r1 r2 : re) :
  (forall s, match_at n0 r1 s = match_at n0 r2 s) ->
  forall s, search_from n0 r1 s = search_from n0 r2 s.
Proof.
  intros H s. induction s as [|x s IH]; simpl; rewrite H; [reflexivity|].
  now rewrite IH.
Qed.

(** ** The matcher: results come from the continuation, and fuel is enough *)

Section MatcherResults.
Context {R : Type}.
Variable n0 : nat.

(** a result of the loop is a result of [k], on what is left of the text *)
Lemma star_loop_result
      (body : string -> caps -> @cont R -> option R) (k : @cont R) :
  (forall s cs k' x,
      body s cs k' = Some x ->
      exists pre s' cs', s = (pre ++ s')%string /\ k' s' cs' = Some x) ->
  forall fuel s cs x,
    star_loop body k fuel s cs = Some x ->
    exists pre s' cs', s = (pre ++ s')%string /\ k s' cs' = Some x.
Proof.
  intros Hbody fuel.
  induction fuel as [|fuel IH]; intros s cs x; cbn [star_loop].
  - intro H. now exists EmptyString, s, cs.
  - destruct (body s cs _) as [y|] eqn:E.
    + intro H. injection H as <-.
      apply Hbody in E as [pre [s' [cs' [-> E]]]].
      destruct (_ <? _)%nat; [|discriminate].
      apply IH in E as [pre' [s'' [cs'' [-> E]]]].
      exists (pre ++ pre')%string, s'', cs''. now rewrite append_assoc.
    + intro H. now exists EmptyString, s, cs.
Qed.

Lemma mt_result (r : re) :
  forall s cs (k : @cont R) x,
    mt n0 r s cs k = Some x ->
    exists pre s' cs', s = (pre ++ s')%string /\ k s' cs' = Some x.
Proof.
  induction r as [|c|p|a IHa b IHb|a IHa b IHb|a IHa|i a IHa| |];
    intros s cs k x; cbn [mt].
  - intro H. now exists EmptyString, s, cs.
  - destruct s as [|y s]; [discriminate|].
    destruct (Ascii.eqb y c); [|discriminate].
    intro H. now exists (str1 y), s, cs.
  - destruct s as [|y s]; [discriminate|].
    destruct (p y); [|discriminate].
    intro H. now exists (str1 y), s, cs.
  - intro H. apply IHa in H as [pre [s' [cs' [-> H]]]].
    apply IHb in H as [pre' [s'' [cs'' [-> H]]]].
    exists (pre ++ pre')%string, s'', cs''. now rewrite append_assoc.
  - destruct (mt n0 a s cs k) as [y|] eqn:E.
    + intro H. injection H as <-. now apply IHa in E.
    + apply IHb.
  - apply star_loop_result. intros s0 cs0 k' y. apply IHa.
  - intro H. apply IHa in H as [pre [s' [cs' [-> H]]]]. eauto.
  - destruct (_ =? _)%nat; [|discriminate].
    intro H. now exists EmptyString, s, cs.
  - destruct (_ || _); [|discriminate].
    intro H. now exists EmptyString, s, cs.
Qed.

(** continuations that agree give the same result *)
Lemma star_loop_ext
      (body : string -> caps -> @cont R -> option R) :
  (forall s cs k1 k2,
      (forall s' cs', k1 s' cs' = k2 s' cs') ->
      body s cs k1 = body s cs k2) ->
  forall k1 k2,
    (forall s' cs', k1 s' cs' = k2 s' cs') ->
    forall fuel s cs,
      star_loop body k1 fuel s cs = star_loop body k2 fuel s cs.
Proof.
  intros Hbody k1 k2 Hk fuel.
  induction fuel as [|fuel IH]; intros s cs; cbn [star_loop]; [apply Hk|].
  rewrite (Hbody s cs _
             (fun s' cs' =>
                if (String.length s' <? String.length s)%nat
                then star_loop body k2 fuel s' cs' else None)).
  - now rewrite Hk.
  - intros s' cs'. now rewrite IH.
Qed.

Lemma mt_ext (r : re) :
  forall s cs (k1 k2 : @cont R),
    (forall s' cs', k1 s' cs' = k2 s' cs') ->
    mt n0 r s cs k1 = mt n0 r s cs k2.
Proof.
  induction r as [|c|p|a IHa b IHb|a IHa b IHb|a IHa|i a IHa| |];
    intros s cs k1 k2 Hk; cbn [mt].
  - apply Hk.
  - destruct s as [|y s]; [reflexivity|].
    destruct (Ascii.eqb y c); [apply Hk | reflexivity].
  - destruct s as [|y s]; [reflexivity|].
    destruct (p y); [apply Hk | reflexivity].
  - apply IHa. intros s' cs'. now apply IHb.
  - now rewrite (IHa s cs k1 k2 Hk), (IHb s cs k1 k2 Hk).
  - apply star_loop_ext; [|exact Hk].
    intros s0 cs0 k1' k2' Hk'. now apply IHa.
  - apply IHa. intros s' cs'. apply Hk.
  - destruct (_ =? _)%nat; [apply Hk | reflexivity].
  - destruct (_ || _); [apply Hk | reflexivity].
Qed.

(** the fuel of the loop, the length of the text, is never used up: more
    fuel changes nothing *)
Lemma star_loop_fuel (a : re) (k : @cont R) (fuel1 : nat) :
  forall fuel2 s cs,
    String.length s <= fuel1 -> String.length s <= fuel2 ->
    star_loop (mt n0 a) k fuel1 s cs = star_loop (mt n0 a) k fuel2 s cs.
Proof.
  assert (Hnone : forall s cs (k1 : @cont R),
             (forall s' cs', k1 s' cs' = None) -> mt n0 a s cs k1 = None).
  { intros s cs k1 Hk1. destruct (mt n0 a s cs k1) as [x|] eqn:E; [|reflexivity].
    apply mt_result in E as [pre [s' [cs' [_ E]]]]. now rewrite Hk1 in E. }
  assert (Hempty : forall fuel cs,
             star_loop (mt n0 a) k fuel EmptyString cs = k EmptyString cs).
  { intros [|fuel] cs; cbn [star_loop]; [reflexivity|].
    now rewrite Hnone. }
  induction fuel1 as [|fuel1 IH]; intros fuel2 s cs H1 H2.
  - destruct s; [|simpl in H1; lia]. now rewrite !Hempty.
  - destruct fuel2 as [|fuel2].
    + destruct s; [|simpl in H2; lia]. now rewrite !Hempty.
    + cbn [star_loop].
      rewrite (mt_ext a s cs _
                 (fun s' cs' =>
                    if (String.length s' <? String.length s)%nat
                    then star_loop (mt n0 a) k fuel2 s' cs' else None));
        [reflexivity|].
      intros s' cs'. destruct (_ <? _)%nat eqn:E; [|reflexivity].
      apply Nat.ltb_lt in E. apply IH; lia.
Qed.
End MatcherResults.

Lemma consumed_app (pre rest : string) : consumed (pre ++ rest) rest = pre.
Proof.
  unfold consumed. rewrite length_append.
  replace (String.length pre + String.length rest - String.length rest)
    with (String.length pre) by lia.
  induction pre as [|c pre IH]; simpl.
  - now destruct rest.
  - now rewrite IH.
Qed.

(** a match starts where it was looked for and ends further on *)
Lemma match_at_result (n0 : nat) (r : re) (s : string) (m : mobj) :
  match_at n0 r s = Some m ->
  m_from m = s /\ exists pre, s = (pre ++ m_rest m)%string /\ group0 m = pre.
Proof.
  unfold match_at. intro H.
  apply mt_result in H as [pre [s' [cs' [-> H]]]].
  injection H as <-. split; [reflexivity|]. exists pre.
  split; [reflexivity|]. apply consumed_app.
Qed.

Lemma search_from_result (n0 : nat) (r : re) (s : string) (m : mobj) :
  search_from n0 r s = Some m ->
  String.length (m_from m) <= String.length s /\
  String.length (m_rest m) <= String.length (m_from m).
Proof.
  assert (Hat : forall s0 m0,
             match_at n0 r s0 = Some m0 ->
             String.length (m_from m0) = String.length s0 /\
             String.length (m_rest m0) <= String.length (m_from m0)).
  { intros s0 m0 E. apply match_at_result in E as [Hfrom [pre [Hs _]]].
    rewrite Hfrom. split; [reflexivity|].
    apply (f_equal String.length) in Hs. rewrite length_append in Hs. lia. }
  induction s as [|c s IH]; cbn [search_from].
  - destruct (match_at n0 r EmptyString) as [m'|] eqn:E; [|discriminate].
    intro H. injection H as <-. apply Hat in E. lia.
  - destruct (match_at n0 r (String c s)) as [m'|] eqn:E.
    + intro H. injection H as <-. apply Hat in E. lia.
    + intro H. apply IH in H. simpl. lia.
Qed.

(** the fuel of [findall] is never used up either *)
Lemma findall_loop_fuel (n0 : nat) (r : re) (fuel1 : nat) :
  forall fuel2 s,
    String.length s < fuel1 -> String.length s < fuel2 ->
    findall_loop fuel1 n0 r s = findall_loop fuel2 n0 r s.
Proof.
  induction fuel1 as [|fuel1 IH]; intros fuel2 s H1 H2; [lia|].
  destruct fuel2 as [|fuel2]; [lia|]. cbn [findall_loop].
  destruct (search_from n0 r s) as [m|] eqn:E; [|reflexivity].
  apply search_from_result in E as [Hf Hr]. f_equal.
  destruct (_ <? _)%nat eqn:Hlt.
  - apply Nat.ltb_lt in Hlt. apply IH; lia.
  - destruct (m_rest m) as [|c s'] eqn:Er; [reflexivity|].
    simpl in Hr. apply IH; lia.
Qed.

(** ** Searching and finding *)

Lemma finditer_none (r : re) (s : string) :
  search r s = None -> finditer r s = [].
Proof.
  unfold search, finditer. simpl. now intros ->.
Qed.

(** ** The matcher: repeating a character class *)

Section StarClass.
Context {R : Type}.
Variable n0 : nat.
Variable p : ascii -> bool.
Variable k : @cont R.

Lemma mt_cls (s : string) (cs : caps) (k' : @cont R) :
  mt n0 (Cls p) s cs k'
  = match s with
    | String x s' => if p x then k' s' cs else None
    | EmptyString => None
    end.
Proof. reflexivity. Qed.

(** a success of [p*] then [k]: [k] succeeds after some characters of [p] *)
Lemma star_cls_sound (fuel : nat) :
  forall s cs x,
    star_loop (mt n0 (Cls p)) k fuel s cs = Some x ->
    exists pre rest,
      s = (pre ++ rest)%string /\ forall_chars p pre = true /\
      k rest cs = Some x.
Proof.
  induction fuel as [|fuel IH]; intros s cs x; cbn [star_loop].
  - intro H. now exists EmptyString, s.
  - rewrite mt_cls.
    destruct s as [|c s1]; [intro H; now exists EmptyString, EmptyString|].
    destruct (p c) eqn:Hp; [|intro H; now exists EmptyString, (String c s1)].
    replace (String.length s1 <? String.length (String c s1))%nat with true
      by (symmetry; apply Nat.ltb_lt; simpl; lia).
    destruct (star_loop (mt n0 (Cls p)) k fuel s1 cs) as [y|] eqn:E.
    + intro H. injection H as <-.
      destruct (IH s1 cs y E) as [pre [rest [-> [Hpre Hk]]]].
      exists (String c pre), rest. simpl. now rewrite Hp, Hpre.
    + intro H. now exists EmptyString, (String c s1).
Qed.

(** when [k] succeeds after some characters of [p], so does [p*] then [k] *)
Lemma star_cls_complete (pre : string) :
  forall fuel rest cs,
    String.length pre <= fuel ->
    forall_chars p pre = true ->
    is_some (k rest cs) = true ->
    is_some (star_loop (mt n0 (Cls p)) k fuel (pre ++ rest) cs) = true.
Proof.
  induction pre as [|c pre IH]; intros fuel rest cs Hf Hp Hk.
  - destruct fuel as [|fuel]; cbn [star_loop append]; [exact Hk|].
    destruct (mt n0 (Cls p) rest cs _); [reflexivity | exact Hk].
  - destruct fuel as [|fuel]; [simpl in Hf; lia|].
    cbn [forall_chars] in Hp. apply andb_true_iff in Hp as [Hc Hp].
    cbn [star_loop append]. rewrite mt_cls, Hc.
    replace (String.length (pre ++ rest)
             <? String.length (String c (pre ++ rest)))%nat with true
      by (symmetry; apply Nat.ltb_lt; simpl; lia).
    assert (H := IH fuel rest cs ltac:(simpl in Hf; lia) Hp Hk).
    destruct (star_loop (mt n0 (Cls p)) k fuel (pre ++ rest) cs);
      [reflexivity | discriminate H].
Qed.
End StarClass.

(** the name pattern, step by step *)
Lemma name_pattern_steps (c : ascii) (s1 : string) :
  match_ VariableTester.name_pattern (String c s1)
  = if is_lower c
    then star_loop
           (mt (String.length (String c s1))
               (Cls (fun x => is_lower x || is_digit x || Ascii.eqb x "-")))
           (fun s' cs' =>
              match s' with
              | String l tail =>
                  if is_lower l || is_digit l
                  then if String.eqb tail EmptyString
                          || String.eqb tail (str1 nl)
                       then Some (MObj (String c s1) tail cs')
                       else None
                  else None
              | EmptyString => None
              end)
           (String.length s1) s1 []
    else None.
Proof.
  unfold match_, match_at, VariableTester.name_pattern.
  cbn [Cat mt]. now rewrite Nat.eqb_refl.
Qed.

(** what the name pattern of the simulator matches *)
Lemma name_pattern_hyphenated (s : string) :
  is_some (match_ VariableTester.name_pattern s) = true <-> Spec.hyphenated s.
Proof.
  unfold Spec.hyphenated. split.
  - destruct s as [|c s1]; [discriminate|]. rewrite name_pattern_steps.
    destruct (is_lower c) eqn:Hc; [|discriminate].
    destruct (star_loop _ _ _ s1 []) as [m|] eqn:E; [|discriminate].
    intros _. apply star_cls_sound in E as [body [rest [-> [Hb Hk]]]].
    destruct rest as [|l tail]; [discriminate|].
    destruct (is_lower l || is_digit l) eqn:Hl; [|discriminate].
    destruct (String.eqb tail EmptyString || String.eqb tail (str1 nl))
      eqn:Ht; [|discriminate].
    exists c, l, body, tail. repeat split; try assumption.
    apply orb_true_iff in Ht as [Ht|Ht]; apply String.eqb_eq in Ht; auto.
  - intros [c [l [body [tail [-> [Hc [Hb [Hl Ht]]]]]]]].
    rewrite name_pattern_steps, Hc. apply star_cls_complete.
    + rewrite length_append. lia.
    + exact Hb.
    + rewrite Hl. destruct Ht as [-> | ->]; reflexivity.
Qed.

(** a text that holds an underscore is not such a name *)
Lemma hyphenated_no_underscore (s : string) :
  Spec.hyphenated s -> count_char "_" s = 0.
Proof.
  intros [c [l [body [tail [-> [Hc [Hb [Hl Ht]]]]]]]].
  assert (Hchar : forall x, is_lower x || is_digit x || Ascii.eqb x "-" = true ->
                            Ascii.eqb x "_" = false).
  { intro x. destruct x as [[] [] [] [] [] [] [] []]; vm_compute;
      congruence. }
  cbn [count_char]. rewrite count_char_app. cbn [count_char].
  rewrite (Hchar c) by now rewrite Hc.
  rewrite (Hchar l) by now rewrite Hl, orb_true_l.
  assert (Hbody : count_char "_" body = 0).
  { clear - Hb Hchar. induction body as [|x body IH]; [reflexivity|].
    cbn [forall_chars count_char] in *.
    apply andb_true_iff in Hb as [Hx Hb]. now rewrite (Hchar x Hx), IH. }
  rewrite Hbody. destruct Ht as [-> | ->]; reflexivity.
Qed.

(** ** The model on sample inputs *)

Example split_samples :
  split "," "a,b,,c" = ["a"; "b"; EmptyString; "c"] /\
  split "," EmptyString = [EmptyString] /\
  split "," "," = [EmptyString; EmptyString].
Proof. repeat split; reflexivity. Qed.

Example count_samples :
  count "ab" "ababab aab" = 4 /\ count_char "b" "ababab aab" = 4.
Proof. split; reflexivity. Qed.

Example strip_samples :
  strip (String "009" " x y " ++ str1 nl) = "x y" /\
  strip (String "028" " x" ++ str1 "031") = "x".
Proof. split; reflexivity. Qed.

Example findall_resources :
  findall2 OutputVerifier.resource_pattern Examples.two_resources
  = [("aws_instance", "web"); ("aws_s3_bucket", "logs")].
Proof. vm_compute. reflexivity. Qed.

(** the block of an output ends at the first closing brace *)
Example findall_nested_output :
  findall2 OutputVerifier.output_pattern Examples.nested_output
  = [("y", " a = { b = 1 ")].
Proof. vm_compute. reflexivity. Qed.

(** a data source reference holds a resource-shaped reference *)
Example find_refs_data :
  OutputVerifier.find_refs "data.aws_ami.x.id"
  = ["aws_ami.x"; "data.aws_ami.x"].
Proof. vm_compute. reflexivity. Qed.

Example find_refs_twice :
  OutputVerifier.find_refs "${var.environment}-${local.suffix}-${var.environment}"
  = ["local.suffix"; "var.environment"].
Proof. vm_compute. reflexivity. Qed.

(** a value left empty takes the text of the next line *)
Example extract_value_next_line :
  OutputVerifier._extract_value Examples.empty_value_content
  = Some ("description = " ++ Examples.quoted "Desc")%string.
Proof. vm_compute. reflexivity. Qed.

(** [$] holds before one final line break, not before two *)
Example dollar_line_break :
  is_some (match_ ModuleValidator.snake_case_pattern ("abc" ++ str1 nl)) = true /\
  is_some (match_ ModuleValidator.snake_case_pattern
                  ("abc" ++ str1 nl ++ str1 nl)) = false.
Proof. split; vm_compute; reflexivity. Qed.

Example ami_samples :
  map (fun s => is_some (match_ VariableTester.ami_pattern s))
      ["ami-12345678"; "ami-abcdef1234567890"; "invalid-ami"; "ami-";
       "ami-1234567"; "ami-12345678901234567"; "ami-123456789012345678"]
  = [true; true; false; false; false; true; false].
Proof. vm_compute. reflexivity. Qed.

Example cidr_samples :
  map VariableTester._validate_cidr
      ["10.0.0.0/16"; "10.0.0.0/33"; "1.2.3/4"; "1.2.3.4/5/6"; "256.1.1.1/8";
       "1.2.3.4/"; "01.002.3.4/032"; "a.b.c.d/1"; "invalid-cidr"]
  = [true; false; false; false; false; false; true; false; false].
Proof. vm_compute. reflexivity. Qed.

Example py_str_samples :
  VariableTester.py_str (VariableTester.VList ["item1"; "item2"])
  = "['item1', 'item2']" /\
  VariableTester.py_str (VariableTester.VList []) = "[]" /\
  VariableTester.py_str (VariableTester.VBool true) = "True" /\
  VariableTester.py_str VariableTester.VNone = "None".
Proof. repeat split; reflexivity. Qed.

(** the tables of the simulator against its own rules: the numbers of tests
    run and passed for one variable of each category *)
Example test_tables :
  map (fun name =>
         VariableTester.run_tests
           [(name, VariableTester.VarInfo (Some "string") None [])])
      ["aws_region"; "vpc_cidr"; "instance_type"; "name_prefix";
       "environment"; "ami_id"; "tags"]
  = [(4, 4); (5, 5); (5, 3); (5, 5); (4, 3); (4, 4); (3, 1)].
Proof. vm_compute. reflexivity. Qed.

(** ** terraform_module_validator.py *)

Module ModuleValidatorProofs.
Import ModuleValidator.

Lemma add_error_grows st m : Spec.grows errors st (add_error st m).
Proof. now exists [m]. Qed.
Lemma add_warning_grows st m : Spec.grows errors st (add_warning st m).
Proof. exists []. simpl. now rewrite app_nil_r. Qed.
Lemma add_info_grows st m : Spec.grows errors st (add_info st m).
Proof. exists []. simpl. now rewrite app_nil_r. Qed.

Create HintDb findings.
#[local] Hint Resolve add_error_grows add_warning_grows add_info_grows
  grows_refl : findings.

Ltac grow_cases :=
  repeat match goal with
         | |- Spec.grows errors _ (if ?b then _ else _) => destruct b
         | |- Spec.grows errors _ (match ?l with [] => _ | _ :: _ => _ end) => destruct l
         | |- Spec.grows errors _ (let '(_, _) := ?p in _) => destruct p
         end;
  eauto with findings.

Lemma check_brackets_grows content filename st :
  Spec.grows errors st (_check_brackets content filename st).
Proof. unfold _check_brackets. grow_cases. Qed.

Lemma check_quotes_line_grows filename acc line :
  Spec.grows (fun a : findings * nat => errors (fst a)) acc
        (check_quotes_line filename acc line).
Proof.
  destruct acc as [st i]. unfold check_quotes_line.
  destruct (startswith "#" (strip line));
    [|destruct (negb _)]; exists []; simpl; now rewrite app_nil_r.
Qed.

Lemma check_quotes_grows content filename st :
  Spec.grows errors st (_check_quotes content filename st).
Proof.
  unfold _check_quotes.
  destruct (fold_left_grows (fun a : findings * nat => errors (fst a))
              (check_quotes_line filename)
              (check_quotes_line_grows filename)
              (split nl content) (st, 1)) as [l H].
  exists l. exact H.
Qed.

Lemma check_resource_syntax_grows content filename st :
  Spec.grows errors st (_check_resource_syntax content filename st).
Proof.
  unfold _check_resource_syntax.
  repeat match goal with
         | |- Spec.grows errors _ (if ?b then add_info ?s _ else _) =>
             destruct b; [eapply grows_trans; [|apply add_info_grows]|]
         end;
    destruct (findall0 resource_pattern content); eauto with findings.
Qed.

Lemma validate_file_structure_grows d st :
  Spec.grows errors st (validate_file_structure d st).
Proof.
  unfold validate_file_structure.
  match goal with
  | |- Spec.grows errors _ (fold_left _ _ ?mid) =>
      apply (grows_trans errors st mid)
  end; apply fold_left_grows; intros; grow_cases.
Qed.

Lemma validate_terraform_syntax_grows d st st' :
  validate_terraform_syntax d st = Some st' -> Spec.grows errors st st'.
Proof.
  apply foldM_grows. clear. intros st f st' H.
  destruct (FS.read d f) as [content|]; simpl in H; [|discriminate].
  injection H as <-.
  eapply grows_trans; [apply add_info_grows|].
  eapply grows_trans; [apply check_brackets_grows|].
  eapply grows_trans; [apply check_quotes_grows|].
  apply check_resource_syntax_grows.
Qed.

Lemma validate_variables_grows d st st' :
  validate_variables d st = Some st' -> Spec.grows errors st st'.
Proof.
  unfold validate_variables. destruct (_ || _).
  - intro H. injection H as <-. apply grows_refl.
  - destruct (FS.read d "variables.tf"); simpl; [|discriminate].
    destruct (FS.read d "main.tf"); simpl; [|discriminate].
    intro H. injection H as <-.
    eapply grows_trans; [apply add_info_grows|].
    apply fold_left_grows. intros; grow_cases.
Qed.

Lemma validate_outputs_grows d st st' :
  validate_outputs d st = Some st' -> Spec.grows errors st st'.
Proof.
  unfold validate_outputs. destruct (negb _).
  - intro H. injection H as <-. apply grows_refl.
  - destruct (FS.read d "outputs.tf"); simpl; [|discriminate].
    intro H. injection H as <-.
    apply fold_left_grows. intros st0 [n c]. cbv zeta.
    destruct (contains "description" c), (contains "value" c);
      (eapply grows_trans;
       [|first [apply add_info_grows | apply add_error_grows]]);
      eauto with findings.
Qed.

Lemma validate_variable_constraints_grows d st st' :
  validate_variable_constraints d st = Some st' -> Spec.grows errors st st'.
Proof.
  unfold validate_variable_constraints. destruct (negb _).
  - intro H. injection H as <-. apply grows_refl.
  - destruct (FS.read d "variables.tf"); simpl; [|discriminate].
    intro H. injection H as <-.
    repeat (eapply grows_trans; [|apply add_info_grows]). apply grows_refl.
Qed.

Lemma validate_naming_conventions_grows d st st' :
  validate_naming_conventions d st = Some st' -> Spec.grows errors st st'.
Proof.
  apply foldM_grows. clear. intros st f st' H.
  destruct (FS.read d f) as [content|]; simpl in H; [|discriminate].
  injection H as <-. apply fold_left_grows. intros; grow_cases.
Qed.

(** a missing required file leaves its error *)
Lemma required_loop_records d file (l : list string) :
  forall st,
    In file l -> FS.exists_ d file = false ->
    In ("✗ Missing required file: " ++ file)%string
       (errors (fold_left
                  (fun st file =>
                     if FS.exists_ d file
                     then add_info st ("✓ Required file exists: " ++ file)
                     else add_error st ("✗ Missing required file: " ++ file))
                  l st)).
Proof.
  induction l as [|f l IH]; intros st Hin Hx; simpl; [destruct Hin|].
  destruct Hin as [->|Hin]; [|now apply IH].
  rewrite Hx.
  eapply grows_In; [apply fold_left_grows; intros; grow_cases|].
  simpl. apply in_or_app. right. now left.
Qed.

Section Total.
Variable d : FS.dir.
Hypothesis Hr : FS.tf_readable d.

Lemma validate_terraform_syntax_total st :
  exists st', validate_terraform_syntax d st = Some st'.
Proof.
  apply foldM_total. intros x Hx st0.
  destruct (Hr x Hx) as [s ->]. simpl. eauto.
Qed.

Lemma validate_variables_total st :
  exists st', validate_variables d st = Some st'.
Proof.
  unfold validate_variables.
  destruct (FS.exists_ d "variables.tf") eqn:Xv; simpl; [|eauto].
  destruct (FS.exists_ d "main.tf") eqn:Xm; simpl; [|eauto].
  destruct (exists_tf_readable d "variables.tf" Hr eq_refl eq_refl Xv)
    as [s ->].
  destruct (exists_tf_readable d "main.tf" Hr eq_refl eq_refl Xm)
    as [s' ->].
  simpl. eauto.
Qed.

Lemma validate_outputs_total st :
  exists st', validate_outputs d st = Some st'.
Proof.
  unfold validate_outputs.
  destruct (FS.exists_ d "outputs.tf") eqn:Xo; simpl; [|eauto].
  destruct (exists_tf_readable d "outputs.tf" Hr eq_refl eq_refl Xo)
    as [s ->].
  simpl. eauto.
Qed.

Lemma validate_variable_constraints_total st :
  exists st', validate_variable_constraints d st = Some st'.
Proof.
  unfold validate_variable_constraints.
  destruct (FS.exists_ d "variables.tf") eqn:Xv; simpl; [|eauto].
  destruct (exists_tf_readable d "variables.tf" Hr eq_refl eq_refl Xv)
    as [s ->].
  simpl. eauto.
Qed.

Lemma validate_naming_conventions_total st :
  exists st', validate_naming_conventions d st = Some st'.
Proof.
  apply foldM_total. intros x Hx st0.
  destruct (Hr x Hx) as [s ->]. simpl. eauto.
Qed.

Lemma run_validation_total : exists r, run_validation d = Some r.
Proof.
  unfold run_validation.
  destruct (validate_terraform_syntax_total (validate_file_structure d init))
    as [st1 ->]; simpl.
  destruct (validate_variables_total st1) as [st2 ->]; simpl.
  destruct (validate_outputs_total st2) as [st3 ->]; simpl.
  destruct (validate_variable_constraints_total st3) as [st4 ->]; simpl.
  destruct (validate_naming_conventions_total st4) as [st5 ->]; simpl.
  eauto.
Qed.
End Total.

Lemma run_validation_errors d st b :
  run_validation d = Some (st, b) ->
  Spec.grows errors (validate_file_structure d init) st /\
  b = (List.length (errors st) =? 0)%nat.
Proof.
  unfold run_validation. intro H.
  destruct (validate_terraform_syntax d _) as [st1|] eqn:E1;
    simpl in H; [|discriminate].
  destruct (validate_variables d st1) as [st2|] eqn:E2;
    simpl in H; [|discriminate].
  destruct (validate_outputs d st2) as [st3|] eqn:E3;
    simpl in H; [|discriminate].
  destruct (validate_variable_constraints d st3) as [st4|] eqn:E4;
    simpl in H; [|discriminate].
  destruct (validate_naming_conventions d st4) as [st5|] eqn:E5;
    simpl in H; [|discriminate].
  injection H as <- <-. split; [|reflexivity].
  eapply grows_trans; [eapply validate_terraform_syntax_grows; eassumption|].
  eapply grows_trans; [eapply validate_variables_grows; eassumption|].
  eapply grows_trans; [eapply validate_outputs_grows; eassumption|].
  eapply grows_trans;
    [eapply validate_variable_constraints_grows; eassumption|].
  eapply validate_naming_conventions_grows; eassumption.
Qed.

(** C3.  In a directory where one of the required files does not exist, the
    structure checker records an error-level finding, the one that names the
    file.  The summary of the run is then never [True]: whatever
    [run_validation] returns it returns [False], with a non-empty error
    list; it does return when every [*.tf] entry can be read; and the
    process ends with status 1 in any case. *)
Theorem missing_required_file_fails (d : FS.dir) (file : string) :
  In file required_files ->
  FS.exists_ d file = false ->
  In ("✗ Missing required file: " ++ file)%string
     (errors (validate_file_structure d init)) /\
  (forall st b, run_validation d = Some (st, b) ->
                errors st <> [] /\ b = false) /\
  (FS.tf_readable d -> exists st, run_validation d = Some (st, false)) /\
  exit_status (run_validation d) = 1%Z.
Proof.
  intros Hin Hx.
  assert (Hrec : In ("✗ Missing required file: " ++ file)%string
                    (errors (validate_file_structure d init))).
  { unfold validate_file_structure.
    eapply grows_In; [apply fold_left_grows; intros; grow_cases|].
    now apply required_loop_records. }
  assert (Hret : forall st b, run_validation d = Some (st, b) ->
                              errors st <> [] /\ b = false).
  { intros st b H. apply run_validation_errors in H as [Hg ->].
    assert (Hne : errors st <> []).
    { eapply grows_nonempty; [exact Hg|].
      intro E. rewrite E in Hrec. destruct Hrec. }
    split; [exact Hne|]. destruct (errors st); [easy|reflexivity]. }
  repeat split; try assumption.
  - apply (Hret st b H).
  - apply (Hret st b H).
  - intro Hr. destruct (run_validation_total d Hr) as [[st b] E].
    exists st. destruct (Hret st b E) as [_ ->]. exact E.
  - destruct (run_validation d) as [[st b]|] eqn:E; [|reflexivity].
    now destruct (Hret st b eq_refl) as [_ ->].
Qed.

(** a module with [main.tf] alone: [versions.tf] is among the missing *)
Lemma missing_required_file_fails_witness :
  In "✗ Missing required file: versions.tf"
     (errors (validate_file_structure [("main.tf", FS.Text "x = 1")] init)) /\
  exit_status (run_validation [("main.tf", FS.Text "x = 1")]) = 1%Z.
Proof.
  destruct (missing_required_file_fails
              [("main.tf", FS.Text "x = 1")] "versions.tf")
    as [H1 [_ [_ H4]]].
  - simpl. tauto.
  - reflexivity.
  - split; [exact H1 | exact H4].
Defined.

(** C4.  The bracket check compares the number of opening and of closing
    braces of the file.  When they are equal it records no error; when they
    differ it records exactly one, and the message shows both counts. *)
Theorem check_brackets_counts (content filename : string) (st : findings) :
  let open_braces := count_char "{" content in
  let close_braces := count_char "}" content in
  (open_braces = close_braces ->
   errors (_check_brackets content filename st) = errors st) /\
  (open_braces <> close_braces ->
   exists pre mid post : string,
     errors (_check_brackets content filename st)
     = errors st ++ [(pre ++ str_nat open_braces ++ mid
                          ++ str_nat close_braces ++ post)%string]).
Proof.
  cbv zeta. unfold _check_brackets. split; intro H.
  - rewrite H, Nat.eqb_refl. reflexivity.
  - apply Nat.eqb_neq in H. rewrite H. simpl.
    exists ("✗ " ++ filename ++ ": Unbalanced braces - ")%string,
      " open, ", " close".
    simpl. now rewrite !append_assoc.
Qed.

(** two opening braces and one closing brace *)
Lemma check_brackets_counts_witness :
  exists pre mid post : string,
    errors (_check_brackets "a { b { c }" "main.tf" init)
    = [(pre ++ "2" ++ mid ++ "1" ++ post)%string].
Proof.
  apply (proj2 (check_brackets_counts "a { b { c }" "main.tf" init)).
  vm_compute. discriminate.
Defined.

End ModuleValidatorProofs.

(** ** comprehensive_validator.py *)

Module OrchestratorProofs.
Import Orchestrator.

(** the loop that counts [passed], from any starting count *)
Lemma count_loop_from (results : list (string * bool)) :
  forall n,
    fold_left (fun passed (r : string * bool) =>
                 if snd r then passed + 1 else passed) results n
    = n + List.length (filter snd results).
Proof.
  induction results as [|[desc b] results IH]; intro n; simpl.
  - lia.
  - rewrite IH. destruct b; simpl; lia.
Qed.

Lemma filter_length_all {A : Type} (p : A -> bool) (l : list A) :
  (List.length (filter p l) =? List.length l)%nat = forallb p l.
Proof.
  induction l as [|x l IH]; simpl; [reflexivity|].
  destruct (p x); simpl; [exact IH|].
  pose proof (filter_length_le p l).
  apply Nat.eqb_neq. lia.
Qed.

Lemma passed_is_total (results : list (string * bool)) :
  (count_loop results =? List.length results)%nat = forallb snd results.
Proof.
  unfold count_loop. rewrite count_loop_from. simpl. apply filter_length_all.
Qed.

Lemma best_practices_value (d : FS.dir) (r : list string * bool) :
  check_terraform_best_practices d = Some r -> snd r = true.
Proof.
  unfold check_terraform_best_practices. intro H.
  repeat match type of H with
         | Exc.bind ?c _ = Some _ =>
             let E := fresh "E" in
             destruct c eqn:E; simpl in H; [|discriminate]
         end.
  injection H as <-. reflexivity.
Qed.

(** the four entries of [validation_results] *)
Lemma validation_results_entries (e : env) (results : list (string * bool)) :
  validation_results e = Some results ->
  results =
    [ ("Module Structure and Syntax Validation",
       run_validation_script e "terraform_module_validator.py");
      ("Variable Validation Testing",
       run_validation_script e "variable_validation_tester.py");
      ("Output Verification", run_validation_script e "output_verifier.py");
      ("Terraform Best Practices", true) ].
Proof.
  unfold validation_results. intro H.
  destruct (check_terraform_best_practices (module_dir e)) as [bp|] eqn:E;
    simpl in H; [|discriminate].
  apply best_practices_value in E. rewrite E in H.
  injection H as <-. reflexivity.
Qed.

Lemma main_value (e : env) (results : list (string * bool)) :
  validation_results e = Some results ->
  report_writable e = true ->
  main e = Some (forallb snd results).
Proof.
  intros Hres Hw. unfold main. rewrite Hres. simpl.
  unfold generate_validation_report. rewrite Hw. simpl.
  now rewrite passed_is_total.
Qed.

Lemma main_returns (e : env) (b : bool) :
  main e = Some b ->
  exists results, validation_results e = Some results /\
                  report_writable e = true /\ b = forallb snd results.
Proof.
  unfold main. intro H.
  destruct (validation_results e) as [results|] eqn:Hres;
    simpl in H; [|discriminate].
  unfold generate_validation_report in H.
  destruct (report_writable e) eqn:Hw; simpl in H; [|discriminate].
  exists results. rewrite passed_is_total in H. injection H as <-. auto.
Qed.

(** C8, as stated, fails: here the three child processes leave with
    status 0 and the best-practices check returns [True], so every entry
    of the results list is a success; but the report cannot be written,
    [generate_validation_report] raises before [main] returns, and the
    process ends with status 1. *)
Lemma unwritable_report_exits_1 :
  validation_results (Env "." [] (fun _ => Some 0%Z) false)
  = Some [ ("Module Structure and Syntax Validation", true);
           ("Variable Validation Testing", true);
           ("Output Verification", true);
           ("Terraform Best Practices", true) ] /\
  main (Env "." [] (fun _ => Some 0%Z) false) = None /\
  exit_status (main (Env "." [] (fun _ => Some 0%Z) false)) = 1%Z.
Proof. repeat split. Qed.

(** C8, amended.  The process ends with status 0 exactly when the four
    sub-checks have been recorded -- the three child processes and the
    best-practices check --, every entry of the results list is a
    success, and the report could be written.  Once the results are
    recorded there are four of them; [main] returns their conjunction
    when the report can be written, and raises, so that the process ends
    with status 1, when it cannot. *)
Theorem exit_status_is_conjunction (e : env) :
  (exit_status (main e) = 0%Z <->
   exists results,
     validation_results e = Some results /\
     (forall r, In r results -> snd r = true) /\
     report_writable e = true) /\
  (forall results,
      validation_results e = Some results ->
      List.length results = 4 /\
      (report_writable e = true -> main e = Some (forallb snd results)) /\
      (report_writable e = false ->
       main e = None /\ exit_status (main e) = 1%Z)).
Proof.
  split.
  - split.
    + intro H. destruct (main e) as [[|]|] eqn:E; try discriminate.
      apply main_returns in E as [results [H1 [H2 H3]]].
      exists results. split; [exact H1|]. split; [|exact H2].
      now apply forallb_forall.
    + intros [results [H1 [H2 H3]]].
      rewrite (main_value e results H1 H3).
      apply forallb_forall in H2. now rewrite H2.
  - intros results Hres.
    split; [rewrite (validation_results_entries e results Hres); reflexivity|].
    split; [now apply main_value|].
    intro Hw. assert (E : main e = None).
    { unfold main. rewrite Hres. cbn [Exc.bind].
      unfold generate_validation_report. now rewrite Hw. }
    now rewrite E.
Qed.

(** all three children leave with status 0, in an empty module directory *)
Lemma exit_status_is_conjunction_witness :
  exit_status (main (Env "." [] (fun _ => Some 0%Z) true)) = 0%Z.
Proof.
  apply (exit_status_is_conjunction (Env "." [] (fun _ => Some 0%Z) true)).
  eexists. split; [reflexivity|]. split; [|reflexivity].
  intros r [<-|[<-|[<-|[<-|[]]]]]; reflexivity.
Defined.




End OrchestratorProofs.

(** ** variable_validation_tester.py *)

Module VariableTesterProofs.
Import VariableTester.

(** C10.  When [variables.tf] is missing, or holds no text that the
    variable-block pattern matches, nothing is extracted and the top-level
    check returns [False]: the process ends with status 1. *)
Theorem no_variable_is_failure (d : FS.dir) :
  FS.exists_ d "variables.tf" = false \/
  (exists content, FS.read d "variables.tf" = Some content /\
                   search variable_block_pattern content = None) ->
  load_variable_validations d = Some [] /\
  test_variable_combinations d = Some false /\
  exit_status (test_variable_combinations d) = 1%Z.
Proof.
  intro H.
  assert (E : load_variable_validations d = Some []).
  { unfold load_variable_validations.
    destruct H as [-> | [content [Hread Hnone]]]; [reflexivity|].
    rewrite (read_exists d _ _ Hread), Hread. simpl.
    unfold findall2. now rewrite (finditer_none _ _ Hnone). }
  unfold test_variable_combinations. rewrite E. auto.
Qed.

(** a [variables.tf] that holds a comment and a [locals] block *)
Lemma no_variable_is_failure_witness :
  test_variable_combinations
    [("variables.tf", FS.Text "# no variable yet  locals { a = 1 }")]
  = Some false.
Proof.
  apply (no_variable_is_failure
           [("variables.tf", FS.Text "# no variable yet  locals { a = 1 }")]).
  right. eexists. split; [reflexivity | vm_compute; reflexivity].
Defined.

(** the name rule, on any value and any declared type *)
Lemma simulate_validation_name (var_name : string) (vi : var_info) (v : pyval) :
  contains "name" (lower var_name) || contains "prefix" (lower var_name) = true ->
  contains "region" (lower var_name) = false ->
  contains "cidr" (lower var_name) = false ->
  contains "ami" (lower var_name) = false ->
  simulate_validation var_name v vi =
  match v with
  | VStr s =>
      negb (contains "bool" (OutputVerifier.opt_str (type vi)))
      && negb (contains "list" (OutputVerifier.opt_str (type vi)))
      && is_some (match_ name_pattern s)
  | _ => false
  end.
Proof.
  intros Hn Hr Hc Ha. unfold simulate_validation.
  rewrite Hr, Hc, Ha, Hn.
  destruct (contains "bool" _), (contains "list" _), v; reflexivity.
Qed.

(** C6, as stated, fails: the variable [bucket_name] is in the name
    category, the value [invalid_name] is snake case -- it matches the
    snake-case pattern of the module validator -- and the simulator judges
    it invalid. *)
Lemma name_rule_rejects_snake_case :
  let var_name := "bucket_name" in
  let vi := VarInfo (Some "string") None [] in
  (contains "name" (lower var_name) || contains "prefix" (lower var_name)) = true /\
  contains "region" (lower var_name) = false /\
  contains "cidr" (lower var_name) = false /\
  contains "ami" (lower var_name) = false /\
  is_some (match_ ModuleValidator.snake_case_pattern "invalid_name") = true /\
  simulate_validation var_name (VStr "invalid_name") vi = false /\
  simulate_validation var_name (VStr "invalid_name") vi
  <> is_some (match_ ModuleValidator.snake_case_pattern "invalid_name").
Proof.
  vm_compute. repeat split; discriminate.
Qed.

(** C6, amended.  For a variable of the name category the simulator matches
    a string value against [^[a-z][a-z0-9-]*[a-z0-9]$] when the declared
    type mentions neither [bool] nor [list]: the value is valid when it is a
    lower-case letter, then lower-case letters, digits and hyphens, then a
    letter or a digit.  Any other value is judged invalid; so is every
    text that holds an underscore, and [invalid_name] among them; and so
    is any value, of any kind, when the declared type mentions [bool] or
    [list]. *)
Theorem name_rule_is_hyphenated (var_name : string) (vi : var_info) :
  contains "name" (lower var_name) || contains "prefix" (lower var_name) = true ->
  contains "region" (lower var_name) = false ->
  contains "cidr" (lower var_name) = false ->
  contains "ami" (lower var_name) = false ->
  (forall s,
     contains "bool" (OutputVerifier.opt_str (type vi)) = false ->
     contains "list" (OutputVerifier.opt_str (type vi)) = false ->
     simulate_validation var_name (VStr s) vi = is_some (match_ name_pattern s) /\
     (simulate_validation var_name (VStr s) vi = true <-> Spec.hyphenated s)) /\
  (forall v,
     simulate_validation var_name v vi = true ->
     exists s, v = VStr s /\ Spec.hyphenated s) /\
  (forall s,
     count_char "_" s <> 0 ->
     simulate_validation var_name (VStr s) vi = false) /\
  simulate_validation var_name (VStr "invalid_name") vi = false /\
  (forall v,
     contains "bool" (OutputVerifier.opt_str (type vi))
     || contains "list" (OutputVerifier.opt_str (type vi)) = true ->
     simulate_validation var_name v vi = false).
Proof.
  intros Hn Hr Hc Ha.
  assert (Hval : forall v,
             simulate_validation var_name v vi = true ->
             exists s, v = VStr s /\ Spec.hyphenated s).
  { intros v H. rewrite simulate_validation_name in H by assumption.
    destruct v as [s| | |]; try discriminate.
    exists s. split; [reflexivity|].
    apply andb_true_iff in H as [_ H]. now apply name_pattern_hyphenated. }
  assert (Hus : forall s, count_char "_" s <> 0 ->
                          simulate_validation var_name (VStr s) vi = false).
  { intros s Hs.
    destruct (simulate_validation var_name (VStr s) vi) eqn:E; [|reflexivity].
    apply Hval in E as [s' [E Hh]]. injection E as <-.
    now apply hyphenated_no_underscore in Hh. }
  split; [|split; [exact Hval | split; [exact Hus | split]]].
  - intros s Hb Hl. rewrite simulate_validation_name by assumption.
    rewrite Hb, Hl. cbn [negb andb]. split; [reflexivity|].
    apply name_pattern_hyphenated.
  - apply Hus. vm_compute. discriminate.
  - intros v Hty. rewrite simulate_validation_name by assumption.
    destruct v as [s| | |]; try reflexivity.
    apply orb_true_iff in Hty as [-> | ->]; cbn [negb andb];
      [reflexivity | now rewrite andb_false_r].
Qed.

(** the variable [name_prefix], declared a string *)
Lemma name_rule_is_hyphenated_witness :
  simulate_validation "name_prefix" (VStr "invalid_name")
                      (VarInfo (Some "string") None []) = false /\
  simulate_validation "name_prefix" (VStr "valid-name")
                      (VarInfo (Some "string") None [])
  = is_some (match_ name_pattern "valid-name").
Proof.
  destruct (name_rule_is_hyphenated
              "name_prefix" (VarInfo (Some "string") None []))
    as [H1 [_ [_ [H4 _]]]]; try reflexivity.
  split; [exact H4 | exact (proj1 (H1 "valid-name" eq_refl eq_refl))].
Defined.

End VariableTesterProofs.

(** ** The CIDR validator *)

Module CidrProofs.
Import VariableTester.

Lemma leb_0_l (n : N) : (0 <=? n)%N = true.
Proof. now destruct n. Qed.

Lemma short_ascii_pieces (c : ascii) (s : string) :
  Spec.short_ascii s -> forall t, In t (split c s) -> Spec.short_ascii t.
Proof.
  intros [Ha Hl] t Ht.
  destruct (split_pieces Spec.is_ascii c s Ha t Ht) as [H1 H2].
  split; [exact H1 | lia].
Qed.

Lemma short_ascii_app (a b : string) :
  Spec.short_ascii (a ++ b) -> Spec.short_ascii a /\ Spec.short_ascii b.
Proof.
  unfold Spec.short_ascii, Spec.ascii_text. intros [Ha Hl].
  rewrite length_append in Hl.
  assert (E : forall x y, forall_chars Spec.is_ascii (x ++ y)
                          = forall_chars Spec.is_ascii x
                            && forall_chars Spec.is_ascii y).
  { intros x y. induction x as [|c x IH]; cbn; [reflexivity|].
    now rewrite IH, andb_assoc. }
  rewrite E in Ha. apply andb_true_iff in Ha as [H1 H2].
  repeat split; try assumption; lia.
Qed.

(** the loop over the octets: on short ASCII octets it never raises, and
    holds the conjunction of the two tests made on each octet *)
Lemma octets_loop (octets : list string) :
  (forall o, In o octets -> Spec.short_ascii o) ->
  forall ok : bool,
    Exc.foldM
      (fun (ok : bool) octet =>
         if ok then
           if negb (isdigit octet) then Some false
           else n <- int octet ;;
                Some ((0 <=? n)%N && (n <=? 255)%N)
         else Some false)
      octets ok
    = Some (ok && forallb (fun o => isdigit o
                                    && (Spec.decimal_value o <=? 255)%N)
                          octets).
Proof.
  induction octets as [|o octets IH]; intros Hs ok; simpl.
  - now rewrite andb_true_r.
  - assert (Ho : Spec.short_ascii o) by (apply Hs; now left).
    assert (Hs' : forall o', In o' octets -> Spec.short_ascii o')
      by (intros o' H; apply Hs; now right).
    destruct ok; simpl.
    + destruct (isdigit o) eqn:Hd; simpl.
      * rewrite (int_isdigit o (proj1 Ho) (proj2 Ho) Hd). simpl.
        rewrite (IH Hs'), leb_0_l. reflexivity.
      * rewrite (IH Hs'). reflexivity.
    + rewrite (IH Hs'). reflexivity.
Qed.

Lemma dotted_assoc (a b c d m : string) :
  ((a ++ String "." (b ++ String "." (c ++ String "." d)))
     ++ String "/" m)%string
  = (a ++ "." ++ b ++ "." ++ c ++ "." ++ d ++ "/" ++ m)%string.
Proof. repeat (rewrite append_assoc; simpl). reflexivity. Qed.

(** what the validator computes, test by test *)
Lemma validate_cidr_tests (s : string) :
  Spec.short_ascii s ->
  (_validate_cidr s = true <->
   exists a b c d m : string,
     split "/" s = [(a ++ String "." (b ++ String "." (c ++ String "." d)))%string;
                    m] /\
     split "." (a ++ String "." (b ++ String "." (c ++ String "." d)))
     = [a; b; c; d] /\
     forallb (fun o => isdigit o && (Spec.decimal_value o <=? 255)%N)
             [a; b; c; d] = true /\
     isdigit m = true /\ (Spec.decimal_value m <=? 32)%N = true).
Proof.
  intro Hshort.
  pose proof (short_ascii_pieces "/" s Hshort) as Hp.
  unfold _validate_cidr, validate_cidr_body. split.
  - destruct (contains "/" s); simpl; [|discriminate].
    destruct (split "/" s) as [|ip [|m [|]]]; try discriminate.
    assert (Hip : Spec.short_ascii ip) by (apply Hp; now left).
    assert (Hm' : Spec.short_ascii m) by (apply Hp; right; now left).
    destruct (List.length (split "." ip) =? 4)%nat eqn:Hl;
      simpl; [|discriminate].
    rewrite (octets_loop _ (short_ascii_pieces "." ip Hip)).
    simpl (true && _).
    destruct (forallb _ (split "." ip)) eqn:Hf; simpl; [|discriminate].
    destruct (isdigit m) eqn:Hm; simpl; [|discriminate].
    rewrite (int_isdigit m (proj1 Hm') (proj2 Hm') Hm). simpl.
    rewrite leb_0_l. simpl. intro Hle.
    apply Nat.eqb_eq in Hl.
    destruct (split "." ip) as [|a [|b [|c [|d [|]]]]] eqn:Hs;
      try discriminate.
    pose proof (proj1 (split_four "." ip a b c d) Hs) as [-> _].
    exists a, b, c, d, m. auto.
  - intros [a [b [c [d [m [Hs [Hip [Hf [Hm Hle]]]]]]]]].
    assert (Hc : contains "/" s = true).
    { apply (contains_char "/"). apply split_two in Hs as [-> _].
      rewrite count_char_app. simpl. lia. }
    rewrite Hs in Hp.
    assert (Hip' : Spec.short_ascii
                     (a ++ String "." (b ++ String "." (c ++ String "." d))))
      by (apply Hp; now left).
    assert (Hm' : Spec.short_ascii m) by (apply Hp; right; now left).
    rewrite Hc, Hs. simpl.
    rewrite (octets_loop _ (short_ascii_pieces "." _ Hip')).
    rewrite Hip. simpl (List.length _ =? 4)%nat.
    simpl negb. cbv iota. simpl (true && _).
    simpl in Hf. rewrite Hf. simpl. rewrite Hm. simpl.
    rewrite (int_isdigit m (proj1 Hm') (proj2 Hm') Hm). simpl.
    rewrite leb_0_l. exact Hle.
Qed.

Lemma cidr_shape_iff (s : string) :
  Spec.short_ascii s -> (_validate_cidr s = true <-> Spec.cidr_shape s).
Proof.
  intro Hshort. rewrite (validate_cidr_tests s Hshort).
  unfold Spec.cidr_shape. split.
  - intros [a [b [c [d [m [Hs [Hip [Hf [Hm Hle]]]]]]]]].
    simpl in Hf. rewrite !andb_true_iff in Hf.
    destruct Hf as [[Ha Ha'] [[Hb Hb'] [[Hc Hc'] [[Hd Hd'] _]]]].
    apply split_two in Hs as [-> [Hip0 Hm0]].
    apply short_ascii_app in Hshort as [Hipa Hma].
    assert (Hma' : Spec.short_ascii m).
    { destruct Hma as [H1 H2]. unfold Spec.ascii_text in H1.
      cbn [forall_chars String.length] in H1, H2.
      apply andb_true_iff in H1 as [_ H1]. split; [exact H1 | lia]. }
    pose proof (short_ascii_pieces "." _ Hipa) as Hp. rewrite Hip in Hp.
    assert (Aa : Spec.ascii_text a) by (apply Hp; cbn; tauto).
    assert (Ab : Spec.ascii_text b) by (apply Hp; cbn; tauto).
    assert (Ac : Spec.ascii_text c) by (apply Hp; cbn; tauto).
    assert (Ad : Spec.ascii_text d) by (apply Hp; cbn; tauto).
    split.
    + rewrite count_char_app. simpl. lia.
    + exists a, b, c, d, m. split.
      * apply dotted_assoc.
      * rewrite !decimal_upto_code. destruct Hma' as [Am _]. auto 15.
  - intros [Hcount [a [b [c [d [m [-> [Ha [Hb [Hc [Hd Hm]]]]]]]]]]].
    rewrite decimal_upto_code in Ha, Hb, Hc, Hd, Hm.
    destruct Ha as [Aa [Ha Ha']], Hb as [Ab [Hb Hb']], Hc as [Ac [Hc Hc']],
             Hd as [Ad [Hd Hd']], Hm as [Am [Hm Hm']].
    exists a, b, c, d, m.
    assert (Hdot : forall x, Spec.ascii_text x -> isdigit x = true ->
                             count_char "." x = 0).
    { intros x Ax Hx. apply isdigit_count; [reflexivity|].
      now apply (isdigit_spec x Ax). }
    assert (Hsl : forall x, Spec.ascii_text x -> isdigit x = true ->
                            count_char "/" x = 0).
    { intros x Ax Hx. apply isdigit_count; [reflexivity|].
      now apply (isdigit_spec x Ax). }
    split; [|split; [|split; [|auto]]].
    + apply split_two. split.
      * symmetry. apply dotted_assoc.
      * repeat (rewrite count_char_app; simpl).
        rewrite (Hsl a Aa Ha), (Hsl b Ab Hb), (Hsl c Ac Hc), (Hsl d Ad Hd),
          (Hsl m Am Hm).
        auto.
    + apply split_four. auto 10.
    + simpl. now rewrite Ha, Ha', Hb, Hb', Hc, Hc', Hd, Hd'.
Qed.

(** C5, as stated, fails in both directions.  The validator accepts a
    CIDR block whose first octet is written in Arabic-Indic digits, which
    are digits for [str.isdigit] and for [int] but no decimal octet of
    the claim; and it refuses a block whose first octet is 4301 zeros, a
    decimal octet of value 0, because [int] raises on more than 4300
    digits and the validator turns the exception into [False]. *)
Lemma cidr_shape_not_exact :
  (_validate_cidr Examples.arabic_cidr = true /\
   ~ Spec.cidr_shape Examples.arabic_cidr) /\
  (Spec.cidr_shape Examples.long_cidr /\
   _validate_cidr Examples.long_cidr = false).
Proof.
  split; split.
  - vm_compute. reflexivity.
  - intros [_ [a [b [c [d [m [E [[Ha [Hd _]] _]]]]]]]].
    destruct a as [|x a]; [congruence|].
    unfold Examples.arabic_cidr in E. cbn [append] in E.
    injection E as Ex _. specialize (Hd x (or_introl eq_refl)).
    subst x. unfold Spec.decimal_digit in Hd. cbn in Hd.
    repeat (destruct Hd as [Hd|Hd]; [discriminate Hd|]). exact Hd.
  - assert (Hz : forall n, Spec.decimal_value (Examples.zeros n) = 0%N /\
                           forall x, In x (list_ascii_of_string
                                             (Examples.zeros n)) ->
                                     Spec.decimal_digit x).
    { induction n as [|n [IH1 IH2]]; cbn [Examples.zeros Spec.decimal_value].
      - split; [reflexivity | intros x []].
      - rewrite IH1. split; [reflexivity|].
        intros x [<-|Hx]; [cbn; tauto | now apply IH2]. }
    assert (H8 : forall hi t,
               In t ["0"; "8"]%string -> (8 <= hi)%N ->
               Spec.decimal_upto hi t).
    { intros hi t [<-|[<-|[]]] Hhi; (split; [discriminate|]);
        (split; [intros x [<-|[]]; cbn; tauto|]); cbn; lia. }
    split; [vm_compute; reflexivity|].
    exists (Examples.zeros 4301), "0", "0", "0", "8".
    split; [reflexivity|].
    split.
    { destruct (Hz 4301) as [Hv Hc]. split; [discriminate|].
      split; [exact Hc | rewrite Hv; lia]. }
    split; [apply H8; [cbn; tauto | lia]|].
    split; [apply H8; [cbn; tauto | lia]|].
    split; [apply H8; [cbn; tauto | lia]|].
    apply H8; [cbn; tauto | lia].
  - vm_compute. reflexivity.
Qed.

(** C5, amended.  The CIDR validator accepts [10.0.0.0/16] and refuses
    [10.0.0.0/33]; and on a text of ASCII characters, 4300 of them at
    most, it accepts the text exactly when the text has a single slash,
    four dot-separated decimal octets in the range 0 to 255 before it,
    and a decimal integer in the range 0 to 32 after it. *)
Theorem validate_cidr_shape (s : string)
        (Hascii : Spec.ascii_text s)
        (Hlen : (N.of_nat (String.length s) <= 4300)%N) :
  _validate_cidr "10.0.0.0/16" = true /\
  _validate_cidr "10.0.0.0/33" = false /\
  (_validate_cidr s = true <-> Spec.cidr_shape s).
Proof.
  split; [vm_compute; reflexivity|]. split; [vm_compute; reflexivity|].
  apply cidr_shape_iff. split; [exact Hascii | exact Hlen].
Qed.

Lemma validate_cidr_shape_witness :
  _validate_cidr "192.168.1.0/24" = true <-> Spec.cidr_shape "192.168.1.0/24".
Proof.
  apply (validate_cidr_shape "192.168.1.0/24").
  - reflexivity.
  - vm_compute. discriminate.
Defined.

End CidrProofs.

(** ** output_verifier.py *)

Module OutputVerifierProofs.
Import OutputVerifier.

Lemma set_mem_In (x : string) (l : list string) :
  set_mem x l = true <-> In x l.
Proof.
  unfold set_mem. rewrite existsb_exists. split.
  - intros [y [Hy E]]. apply String.eqb_eq in E. now subst.
  - intro H. exists x. split; [exact H | apply String.eqb_refl].
Qed.

Lemma set_add_In (x y : string) (l : list string) :
  In x (set_add l y) <-> In x l \/ x = y.
Proof.
  unfold set_add. destruct (set_mem y l) eqn:E.
  - apply set_mem_In in E. split; [auto|]. intros [H| ->]; assumption.
  - rewrite in_app_iff. simpl. intuition.
Qed.

Lemma fold_set_add_In {A : Type} (f : A -> string) (xs : list A) :
  forall l x,
    In x (fold_left (fun refs r => set_add refs (f r)) xs l) <->
    In x l \/ exists r, In r xs /\ f r = x.
Proof.
  induction xs as [|r xs IH]; intros l x; simpl.
  - split; [auto | intros [H|[r [[] _]]]; exact H].
  - rewrite IH, set_add_In. split.
    + intros [[H| ->]|[r' [H1 H2]]]; eauto.
    + intros [H|[r' [[<-|H1] H2]]]; eauto.
Qed.

Lemma available_In (x : string) (rs ds : list (string * string)) :
  In x (available rs ds) <->
  (exists r, In r rs /\ (fst r ++ "." ++ snd r)%string = x) \/
  (exists r, In r ds /\ ("data." ++ fst r ++ "." ++ snd r)%string = x).
Proof.
  unfold available. rewrite fold_set_add_In, fold_set_add_In. simpl.
  intuition.
Qed.

(** the declared resource [aws_instance.web], and nothing else, gives the
    reference [aws_instance.web] *)
Lemma available_aws_instance_web (rs ds : list (string * string)) :
  set_mem "aws_instance.web" (available rs ds) = true <->
  In ("aws_instance", "web") rs.
Proof.
  rewrite set_mem_In, available_In. split.
  - intros [[[t n] [Hin E]]|[[t n] [_ E]]]; simpl in E; [|discriminate].
    assert (Hc : count_char "." (t ++ String "." n) = 1).
    { change (t ++ "." ++ n)%string with (t ++ String "." n)%string in E.
      now rewrite E. }
    rewrite count_char_app in Hc. simpl in Hc.
    assert (Hs : split "." (t ++ String "." n) = [t; n])
      by (apply split_two; repeat split; lia).
    change (t ++ "." ++ n)%string with (t ++ String "." n)%string in E.
    rewrite E in Hs. vm_compute in Hs. injection Hs as <- <-. exact Hin.
  - intro H. left. exists ("aws_instance", "web"). split; [exact H|reflexivity].
Qed.

(** *** One reference *)

Lemma check_ref_errors name av st ref :
  errors (check_ref name av st ref) = errors st ++ Spec.ref_errors name av ref.
Proof.
  unfold check_ref, Spec.ref_errors, Spec.is_var_local.
  destruct (_ || _); [|destruct (set_mem ref av)]; simpl;
    now rewrite ?app_nil_r.
Qed.

Lemma check_ref_info name av st ref :
  info (check_ref name av st ref) = info st ++ Spec.ref_info name av ref.
Proof.
  unfold check_ref, Spec.ref_info, Spec.is_var_local.
  destruct (_ || _); [|destruct (set_mem ref av)]; simpl;
    now rewrite ?app_nil_r.
Qed.

Lemma check_ref_warnings name av st ref :
  warnings (check_ref name av st ref) = warnings st.
Proof.
  unfold check_ref.
  destruct (_ || _); [|destruct (set_mem ref av)]; reflexivity.
Qed.

Lemma check_ref_out name av st ref :
  Spec.grows out st (check_ref name av st ref) /\
  (Spec.is_var_local ref = true ->
   out (check_ref name av st ref) = out st ++ [line_var_local ref]).
Proof.
  unfold check_ref, Spec.is_var_local.
  destruct (_ || _); [|destruct (set_mem ref av)]; simpl;
    (split; [eexists; reflexivity | intro; congruence]).
Qed.

Lemma check_refs_errors name av refs :
  forall st,
    errors (fold_left (check_ref name av) refs st)
    = errors st ++ flat_map (Spec.ref_errors name av) refs.
Proof.
  induction refs as [|r refs IH]; intro st; simpl.
  - now rewrite app_nil_r.
  - now rewrite IH, check_ref_errors, app_assoc.
Qed.

Lemma check_refs_info name av refs :
  forall st,
    info (fold_left (check_ref name av) refs st)
    = info st ++ flat_map (Spec.ref_info name av) refs.
Proof.
  induction refs as [|r refs IH]; intro st; simpl.
  - now rewrite app_nil_r.
  - now rewrite IH, check_ref_info, app_assoc.
Qed.

Lemma check_refs_warnings name av refs :
  forall st, warnings (fold_left (check_ref name av) refs st) = warnings st.
Proof.
  induction refs as [|r refs IH]; intro st; simpl; [reflexivity|].
  now rewrite IH, check_ref_warnings.
Qed.

Lemma check_refs_out name av refs :
  forall st ref,
    In ref refs -> Spec.is_var_local ref = true ->
    In (line_var_local ref) (out (fold_left (check_ref name av) refs st)).
Proof.
  induction refs as [|r refs IH]; intros st ref Hin Hv; simpl;
    [destruct Hin|].
  destruct Hin as [->|Hin]; [|now apply IH].
  eapply grows_In.
  - apply fold_left_grows. intros st' x. apply check_ref_out.
  - rewrite (proj2 (check_ref_out name av st ref) Hv).
    apply in_or_app. right. now left.
Qed.

(** the message of an invalid reference tells the reference *)
Lemma msg_invalid_ref_inj name r1 r2 :
  msg_invalid_ref name r1 = msg_invalid_ref name r2 -> r1 = r2.
Proof.
  unfold msg_invalid_ref. intro H.
  apply append_inv_head in H. apply append_inv_head in H.
  now apply append_inv_head in H.
Qed.

Lemma msg_valid_ref_inj name r1 r2 :
  msg_valid_ref name r1 = msg_valid_ref name r2 -> r1 = r2.
Proof.
  unfold msg_valid_ref. intro H.
  apply append_inv_head in H. apply append_inv_head in H.
  now apply append_inv_head in H.
Qed.

(** *** One output *)

Section Outputs.
Variable iter_set : list string -> list string.
Variable av : list string.

Lemma verify_output_errors st name oi :
  errors (verify_output iter_set av st (name, oi))
  = errors st ++ Spec.output_errors iter_set av (name, oi).
Proof.
  unfold verify_output, Spec.output_errors, _verify_value_references.
  destruct (opt_truthy (description oi)), (opt_truthy (value oi)),
    (sensitive oi); simpl; rewrite ?check_refs_errors; reflexivity.
Qed.

Lemma verify_output_info st name oi :
  info (verify_output iter_set av st (name, oi))
  = info st ++ Spec.output_findings iter_set av (name, oi).
Proof.
  unfold verify_output, Spec.output_findings, _verify_value_references.
  destruct (opt_truthy (description oi)), (opt_truthy (value oi)),
    (sensitive oi); simpl; rewrite ?check_refs_info; simpl;
    rewrite <- ?app_assoc, ?app_nil_r; reflexivity.
Qed.

Lemma verify_outputs_errors outs :
  forall st,
    errors (fold_left (verify_output iter_set av) outs st)
    = errors st ++ flat_map (Spec.output_errors iter_set av) outs.
Proof.
  induction outs as [|[name oi] outs IH]; intro st; cbn [fold_left flat_map].
  - now rewrite app_nil_r.
  - now rewrite IH, verify_output_errors, app_assoc.
Qed.

Lemma verify_outputs_info outs :
  forall st,
    info (fold_left (verify_output iter_set av) outs st)
    = info st ++ flat_map (Spec.output_findings iter_set av) outs.
Proof.
  induction outs as [|[name oi] outs IH]; intro st; cbn [fold_left flat_map].
  - now rewrite app_nil_r.
  - now rewrite IH, verify_output_info, app_assoc.
Qed.
End Outputs.

(** *** The whole check *)

Lemma load_resources_findings d st rs ds st1 :
  load_resources d st = Some (rs, ds, st1) ->
  errors st1 = errors st /\ info st1 = info st.
Proof.
  unfold load_resources. destruct (negb _).
  - intro H. injection H as _ _ <-. auto.
  - destruct (FS.read d "main.tf"); simpl; [|discriminate].
    intro H. injection H as _ _ <-. auto.
Qed.

Lemma load_outputs_findings d st outs st1 :
  load_outputs d st = Some (outs, st1) ->
  errors st1 = errors st /\ info st1 = info st.
Proof.
  unfold load_outputs. destruct (negb _).
  - intro H. injection H as _ <-. auto.
  - destruct (FS.read d "outputs.tf"); simpl; [|discriminate].
    intro H. injection H as _ <-. auto.
Qed.

Lemma bullets_findings (l : list string) :
  forall st,
    errors (fold_left (fun st ref => print st ("  • " ++ ref)) l st)
    = errors st /\
    info (fold_left (fun st ref => print st ("  • " ++ ref)) l st) = info st.
Proof.
  induction l as [|x l IH]; intro st; cbn [fold_left]; [auto|].
  destruct (IH (print st ("  • " ++ x))) as [-> ->]. auto.
Qed.

(** once the two files are loaded the check returns, and its findings are
    those of the outputs, one after the other *)
Lemma verify_output_references_run iter_set d st0 rs ds st1 outs st2 :
  load_resources d st0 = Some (rs, ds, st1) ->
  load_outputs d st1 = Some (outs, st2) ->
  exists st',
    verify_output_references iter_set d st0 = Some st' /\
    errors st'
    = errors st0 ++ flat_map (Spec.output_errors iter_set (available rs ds)) outs /\
    info st'
    = info st0 ++ flat_map (Spec.output_findings iter_set (available rs ds)) outs.
Proof.
  intros H1 H2. unfold verify_output_references.
  rewrite H1. cbn [Exc.bind]. rewrite H2. cbn [Exc.bind].
  apply load_resources_findings in H1 as [E1 I1].
  apply load_outputs_findings in H2 as [E2 I2].
  destruct outs as [|o outs].
  - exists st2. cbn [flat_map]. rewrite !app_nil_r. split; [reflexivity|].
    split; congruence.
  - eexists. split; [reflexivity|].
    rewrite (proj1 (bullets_findings _ _)), (proj2 (bullets_findings _ _)).
    cbn [errors info print].
    rewrite verify_outputs_errors, verify_outputs_info.
    cbn [errors info print]. split; congruence.
Qed.

(** *** The value [aws_instance.web.id] *)

Lemma iter_set_single (iter_set : list string -> list string) (x : string) :
  (forall l, Permutation (iter_set l) l) -> iter_set [x] = [x].
Proof.
  intro Hperm. apply Permutation_length_1_inv, Permutation_sym, Hperm.
Qed.

Lemma web_id_errors iter_set av name oi :
  (forall l, Permutation (iter_set l) l) ->
  value oi = Some "aws_instance.web.id" ->
  Spec.output_errors iter_set av (name, oi)
  = if set_mem "aws_instance.web" av then []
    else [msg_invalid_ref name "aws_instance.web"].
Proof.
  intros Hperm Hv. unfold Spec.output_errors. rewrite Hv.
  change (find_refs (opt_str (Some "aws_instance.web.id")))
    with (find_refs "aws_instance.web.id").
  replace (find_refs "aws_instance.web.id") with ["aws_instance.web"]
    by (vm_compute; reflexivity).
  rewrite (iter_set_single iter_set _ Hperm).
  cbn [opt_truthy flat_map]. unfold Spec.ref_errors.
  replace (Spec.is_var_local "aws_instance.web") with false
    by (vm_compute; reflexivity).
  replace (truthy "aws_instance.web.id") with true by reflexivity.
  destruct (set_mem "aws_instance.web" av); reflexivity.
Qed.

Lemma web_id_info iter_set av name oi :
  (forall l, Permutation (iter_set l) l) ->
  value oi = Some "aws_instance.web.id" ->
  set_mem "aws_instance.web" av = true ->
  In (msg_valid_ref name "aws_instance.web")
     (Spec.output_findings iter_set av (name, oi)).
Proof.
  intros Hperm Hv Hm. unfold Spec.output_findings. rewrite Hv.
  change (find_refs (opt_str (Some "aws_instance.web.id")))
    with (find_refs "aws_instance.web.id").
  replace (find_refs "aws_instance.web.id") with ["aws_instance.web"]
    by (vm_compute; reflexivity).
  rewrite (iter_set_single iter_set _ Hperm).
  cbn [opt_truthy flat_map]. unfold Spec.ref_info.
  replace (Spec.is_var_local "aws_instance.web") with false
    by (vm_compute; reflexivity).
  replace (truthy "aws_instance.web.id") with true by reflexivity.
  rewrite Hm. apply in_or_app. right. right. now left.
Qed.

(** C1.  Take an output whose value is [aws_instance.web.id].  The check
    returns, and its errors are those of the outputs, one after the other.
    When [main.tf] declares the resource [aws_instance] [web], the info
    holds the finding that the reference [aws_instance.web] is valid, and
    the output adds no error.  When [main.tf] does not declare it, the
    errors hold the finding that the reference is invalid; no data source
    can stand for it. *)
Theorem reference_to_resource
        (iter_set : list string -> list string)
        (d : FS.dir) (st0 st1 st2 : state)
        (resources data_sources : list (string * string))
        (outputs : list (string * output_info))
        (output_name : string) (oi : output_info) :
  (forall l, Permutation (iter_set l) l) ->
  load_resources d st0 = Some (resources, data_sources, st1) ->
  load_outputs d st1 = Some (outputs, st2) ->
  In (output_name, oi) outputs ->
  value oi = Some "aws_instance.web.id" ->
  exists st',
    verify_output_references iter_set d st0 = Some st' /\
    errors st'
    = errors st0
      ++ flat_map (Spec.output_errors iter_set
                     (available resources data_sources)) outputs /\
    (In ("aws_instance", "web") resources ->
     In (msg_valid_ref output_name "aws_instance.web") (info st') /\
     Spec.output_errors iter_set (available resources data_sources)
                        (output_name, oi) = []) /\
    (~ In ("aws_instance", "web") resources ->
     In (msg_invalid_ref output_name "aws_instance.web") (errors st')).
Proof.
  intros Hperm H1 H2 Hin Hv.
  destruct (verify_output_references_run iter_set d st0 _ _ _ _ _ H1 H2)
    as [st' [Hrun [He Hi]]].
  exists st'. split; [exact Hrun|]. split; [exact He|]. split.
  - intro Hdecl. apply available_aws_instance_web with (ds := data_sources) in Hdecl.
    split.
    + rewrite Hi. apply in_or_app. right. apply in_flat_map.
      exists (output_name, oi). split; [exact Hin|].
      now apply web_id_info.
    + rewrite (web_id_errors iter_set _ output_name oi Hperm Hv).
      now rewrite Hdecl.
  - intro Hno. rewrite He. apply in_or_app. right. apply in_flat_map.
    exists (output_name, oi). split; [exact Hin|].
    rewrite (web_id_errors iter_set _ output_name oi Hperm Hv).
    destruct (set_mem "aws_instance.web" (available resources data_sources))
      eqn:E; [|now left].
    apply available_aws_instance_web in E. contradiction.
Qed.

(** the two sample modules: the resource declared, and not declared *)
Lemma reference_to_resource_witness :
  (exists st',
      verify_output_references Examples.in_order Examples.module_valid init
      = Some st' /\
      In (msg_valid_ref "instance_id" "aws_instance.web") (info st') /\
      errors st' = []) /\
  (exists st',
      verify_output_references Examples.in_order Examples.module_invalid init
      = Some st' /\
      In (msg_invalid_ref "instance_id" "aws_instance.web") (errors st')).
Proof.
  split.
  - destruct (reference_to_resource
                Examples.in_order Examples.module_valid init init init
                [("aws_instance", "web")] []
                [("instance_id",
                  OutputInfo (Some "The instance")
                             (Some "aws_instance.web.id") false)]
                "instance_id"
                (OutputInfo (Some "The instance")
                            (Some "aws_instance.web.id") false))
      as [st' [Hrun [He [Hv _]]]].
    + intro l. apply Permutation_refl.
    + vm_compute. reflexivity.
    + vm_compute. reflexivity.
    + now left.
    + reflexivity.
    + exists st'. split; [exact Hrun|].
      destruct (Hv (or_introl eq_refl)) as [Hinfo Hnone].
      split; [exact Hinfo|].
      rewrite He. cbn [flat_map]. rewrite Hnone. reflexivity.
  - destruct (reference_to_resource
                Examples.in_order Examples.module_invalid init init init
                [("aws_s3_bucket", "logs")] []
                [("instance_id",
                  OutputInfo (Some "The instance")
                             (Some "aws_instance.web.id") false)]
                "instance_id"
                (OutputInfo (Some "The instance")
                            (Some "aws_instance.web.id") false))
      as [st' [Hrun [_ [_ Hinv]]]].
    + intro l. apply Permutation_refl.
    + vm_compute. reflexivity.
    + vm_compute. reflexivity.
    + now left.
    + reflexivity.
    + exists st'. split; [exact Hrun|]. apply Hinv.
      intros [H|[]]. discriminate H.
Defined.

(** *** Variables and local values *)

(** C7.  A reference found in the value of an output that begins with
    [var.] or [local.] is reported on a line of its own as a variable or a
    local value and adds no finding: whatever the set of declared
    references, the errors that the value adds are those of the other
    references, the ones that are not declared. *)
Theorem var_local_is_never_an_error
        (iter_set : list string -> list string)
        (output_name value : string) (available_refs : list string)
        (st : state) (ref : string) :
  (forall l, Permutation (iter_set l) l) ->
  In ref (find_refs value) ->
  startswith "var." ref || startswith "local." ref = true ->
  let st' :=
    _verify_value_references iter_set output_name value available_refs st in
  In (line_var_local ref) (out st') /\
  (exists new_errors,
      errors st' = errors st ++ new_errors /\
      ~ In (msg_invalid_ref output_name ref) new_errors /\
      forall m, In m new_errors ->
                exists r, m = msg_invalid_ref output_name r /\
                          In r (find_refs value) /\
                          startswith "var." r || startswith "local." r = false /\
                          set_mem r available_refs = false) /\
  (exists new_info,
      info st' = info st ++ new_info /\
      ~ In (msg_valid_ref output_name ref) new_info) /\
  warnings st' = warnings st.
Proof.
  intros Hperm Hin Hv st'. subst st'. unfold _verify_value_references.
  assert (Hin' : In ref (iter_set (find_refs value)))
    by (eapply Permutation_in; [apply Permutation_sym, Hperm | exact Hin]).
  split; [now apply check_refs_out|]. split; [|split].
  - eexists. split; [apply check_refs_errors|].
    assert (Hall : forall m,
               In m (flat_map (Spec.ref_errors output_name available_refs)
                              (iter_set (find_refs value))) ->
               exists r, m = msg_invalid_ref output_name r /\
                         In r (find_refs value) /\
                         startswith "var." r || startswith "local." r = false /\
                         set_mem r available_refs = false).
    { intros m Hm. apply in_flat_map in Hm as [r [Hr Hm]].
      unfold Spec.ref_errors, Spec.is_var_local in Hm.
      destruct (startswith "var." r || startswith "local." r) eqn:E1;
        [destruct Hm|].
      destruct (set_mem r available_refs) eqn:E2; [destruct Hm|].
      destruct Hm as [<-|[]]. exists r. repeat split; auto.
      eapply Permutation_in; [apply Hperm | exact Hr]. }
    split; [|exact Hall].
    intro Hm. apply Hall in Hm as [r [E [_ [Hr _]]]].
    apply msg_invalid_ref_inj in E. subst r. congruence.
  - eexists. split; [apply check_refs_info|].
    intro Hm. apply in_flat_map in Hm as [r [Hr Hm]].
    unfold Spec.ref_info, Spec.is_var_local in Hm.
    destruct (startswith "var." r || startswith "local." r) eqn:E1;
      [destruct Hm|].
    destruct (set_mem r available_refs); [|destruct Hm].
    destruct Hm as [E|[]]. apply msg_valid_ref_inj in E. subst r. congruence.
  - apply check_refs_warnings.
Qed.

(** a value that joins a variable and a local value *)
Lemma var_local_is_never_an_error_witness :
  In (line_var_local "var.environment")
     (out (_verify_value_references
             Examples.in_order "bucket" "${var.environment}-${local.suffix}"
             [] init)).
Proof.
  apply (var_local_is_never_an_error
           Examples.in_order "bucket" "${var.environment}-${local.suffix}"
           [] init "var.environment").
  - intro l. apply Permutation_refl.
  - vm_compute. auto.
  - reflexivity.
Defined.

(** *** An output without a value *)

(** the pattern of [_extract_value] begins with the key *)
Lemma value_pattern_key (n0 : nat) (s : string) :
  match_at n0 value_pattern s
  = match_at n0 (Seq Spec.value_key_pattern
                     (Cat [Star ws; Grp 1 (Plus (Not nl))])) s.
Proof. reflexivity. Qed.

Lemma extract_value_none (content : string) :
  search Spec.value_key_pattern content = None ->
  _extract_value content = None.
Proof.
  unfold _extract_value, search. intro H.
  rewrite (search_from_ext _ _ _ (value_pattern_key _)).
  now rewrite (search_from_prefix_none _ _ _ _ H).
Qed.

Lemma msg_missing_value_not_ref name ref :
  Spec.msg_missing_value name <> msg_invalid_ref name ref.
Proof.
  unfold Spec.msg_missing_value, msg_invalid_ref. intro H.
  apply append_inv_head in H. apply append_inv_head in H. discriminate H.
Qed.

Lemma msg_has_description_not_ref name ref :
  Spec.msg_has_description name <> msg_valid_ref name ref.
Proof.
  unfold Spec.msg_has_description, msg_valid_ref. intro H.
  apply append_inv_head in H. apply append_inv_head in H. discriminate H.
Qed.

(** The key and the equals sign need not stand on one line.  In the
    sample module the captured content of the output has the key [value]
    on one line and the equals sign on the next: no line of it matches
    [value\s*=].  The verifier still reads a value, classifies its
    reference, and records no error for the output. *)
Lemma value_key_on_two_lines :
  findall2 output_pattern Examples.outputs_tf_split
  = [("instance_id", Examples.split_content)] /\
  Spec.no_line_matches Spec.value_key_pattern Examples.split_content = true /\
  _extract_value Examples.split_content = Some "aws_instance.web.id" /\
  option_map (fun st => (errors st, info st))
             (verify_output_references Examples.in_order
                                       Examples.module_split init)
  = Some ([],
          [ "✓ Output 'instance_id' has value";
            "✓ Output 'instance_id' references valid resource: aws_instance.web" ]).
Proof.
  vm_compute. repeat split; reflexivity.
Qed.

(** one turn of the loop on an output whose content holds no value key *)
Lemma verify_output_no_value_key
      (iter_set : list string -> list string)
      (available_refs : list string) (output_name content : string) :
  search Spec.value_key_pattern content = None ->
  Spec.output_errors iter_set available_refs
                     (output_name, Facts.output_info_of content)
  = [Spec.msg_missing_value output_name] /\
  forall ref,
    ~ In (msg_valid_ref output_name ref)
         (Spec.output_findings iter_set available_refs
                               (output_name, Facts.output_info_of content)).
Proof.
  intro H. unfold Spec.output_errors, Spec.output_findings,
             Facts.output_info_of.
  cbn [value description]. rewrite (extract_value_none content H).
  change (opt_truthy None) with false. cbv iota.
  split; [reflexivity|].
  intros ref Hin. rewrite app_nil_r in Hin.
  destruct (opt_truthy (_extract_description content)); [|destruct Hin].
  destruct Hin as [E|[]]. now apply msg_has_description_not_ref in E.
Qed.

End OutputVerifierProofs.

(** * Further properties *)

(** ** terraform_module_validator.py, function by function *)

Module ModuleValidatorFacts.
Import ModuleValidator.

(** The structure check gives one finding for each of the six names it
    looks for.  Its errors are the required files that are missing, in the
    order of the list, its warnings the recommended entries that are
    missing: a missing recommended entry is never an error.  So it leaves
    no error exactly when the four required files are there. *)
Theorem file_structure_findings (d : FS.dir) (st : findings) :
  let st' := validate_file_structure d st in
  errors st'
  = errors st ++ map Facts.msg_missing_required
                     (Facts.missing d required_files) /\
  warnings st'
  = warnings st ++ map Facts.msg_missing_recommended
                       (Facts.missing d recommended_files) /\
  List.length (errors st') + List.length (warnings st')
  + List.length (info st')
  = List.length (errors st) + List.length (warnings st)
    + List.length (info st) + 6 /\
  (errors (validate_file_structure d init) = [] <->
   forall f, In f required_files -> FS.exists_ d f = true).
Proof.
  cbv zeta.
  unfold validate_file_structure, Facts.missing, required_files,
    recommended_files.
  cbn [fold_left filter].
  assert (Hall : (forall f, In f ["main.tf"; "variables.tf"; "outputs.tf";
                                  "versions.tf"] -> FS.exists_ d f = true) <->
                 FS.exists_ d "main.tf" = true /\
                 FS.exists_ d "variables.tf" = true /\
                 FS.exists_ d "outputs.tf" = true /\
                 FS.exists_ d "versions.tf" = true).
  { split.
    - intro H. repeat split; apply H; simpl; tauto.
    - intros [H1 [H2 [H3 H4]]] f [<-|[<-|[<-|[<-|[]]]]]; assumption. }
  rewrite Hall.
  destruct (FS.exists_ d "main.tf"), (FS.exists_ d "variables.tf"),
    (FS.exists_ d "outputs.tf"), (FS.exists_ d "versions.tf"),
    (FS.exists_ d "README.md"), (FS.exists_ d "examples/");
    cbn [negb map add_error add_info add_warning errors warnings info
         init app];
    rewrite <- ?app_assoc, ?app_nil_r, ?length_app; cbn [app List.length];
    (repeat split; try reflexivity; try lia; try discriminate;
     try (intros [? [? [? ?]]]; discriminate); auto).
Qed.

(** an escaped quote holds a quote: there are no more of the former *)
Lemma escaped_quotes_le (line : string) :
  count escaped_quote line <= count_char dq line.
Proof.
  unfold count, escaped_quote.
  assert (H : count_from (String "\" (str1 dq)) 0 line <= count_char dq line /\
              count_from (String "\" (str1 dq)) 1 line <= count_char dq line /\
              (startswith (str1 dq) line = true ->
               S (count_from (String "\" (str1 dq)) 1 line)
               <= count_char dq line)).
  { induction line as [|c line [IH0 [IH1 IH2]]].
    - repeat split; simpl; auto; discriminate.
    - split; [|split].
      + cbn [count_from count_char].
        destruct (startswith (String "\" (str1 dq)) (String c line)) eqn:E.
        * unfold startswith in E. cbn [String.prefix] in E.
          destruct (ascii_dec "\" c) as [<-|]; [|discriminate].
          change (String.length (String "\" (str1 dq)) - 1) with 1.
          change (Ascii.eqb "\" dq) with false. cbn [Nat.add].
          apply IH2. exact E.
        * destruct (Ascii.eqb c dq); lia.
      + cbn [count_from count_char]. destruct (Ascii.eqb c dq); lia.
      + intro E. unfold startswith, str1 in E. cbn [String.prefix] in E.
        destruct (ascii_dec dq c) as [<-|]; [|discriminate].
        cbn [count_from count_char]. rewrite Ascii.eqb_refl. lia. }
  apply H.
Qed.

(** the parity test of the source, on integers, is the parity of the
    number of quotes that are not escaped *)
Lemma quote_parity (line : string) :
  negb ((Z.of_nat (count_char dq line)
         - Z.of_nat (count escaped_quote line)) mod 2 =? 0)%Z
  = Nat.odd (count_char dq line - count escaped_quote line).
Proof.
  pose proof (escaped_quotes_le line) as Hle.
  rewrite <- Nat2Z.inj_sub by exact Hle.
  generalize (count_char dq line - count escaped_quote line). intro n.
  rewrite <- Nat.negb_even. f_equal.
  destruct (Nat.even n) eqn:E.
  - apply Nat.even_spec in E as [k ->]. apply Z.eqb_eq.
    rewrite Nat2Z.inj_mul. change (Z.of_nat 2) with 2%Z.
    rewrite Z.mul_comm. apply Z.mod_mul. lia.
  - apply Z.eqb_neq.
    assert (Ho : Nat.odd n = true) by (now rewrite <- Nat.negb_even, E).
    apply Nat.odd_spec in Ho as [k ->].
    rewrite Nat2Z.inj_add, Nat2Z.inj_mul. change (Z.of_nat 2) with 2%Z.
    change (Z.of_nat 1) with 1%Z.
    rewrite Z.add_comm, Z.mul_comm, Z.mod_add by lia. discriminate.
Qed.

Lemma check_quotes_lines (filename : string) (lines : list string) :
  forall st i,
    let r := fold_left (check_quotes_line filename) lines (st, i) in
    warnings (fst r)
    = warnings st
      ++ map (Facts.msg_quotes filename)
             (map fst (filter (fun p : nat * string => Facts.suspect_line (snd p))
                              (combine (seq i (List.length lines)) lines))) /\
    errors (fst r) = errors st /\ info (fst r) = info st.
Proof.
  induction lines as [|line lines IH]; intros st i; cbv zeta.
  - cbn. now rewrite app_nil_r.
  - cbn [fold_left List.length seq combine filter snd].
    assert (E : check_quotes_line filename (st, i) line
                = if Facts.suspect_line line
                  then (add_warning st (Facts.msg_quotes filename i), S i)
                  else (st, S i)).
    { unfold check_quotes_line, Facts.suspect_line.
      rewrite quote_parity.
      destruct (startswith "#" (strip line)); reflexivity. }
    rewrite E. destruct (Facts.suspect_line line); cbn [map fst].
    + destruct (IH (add_warning st (Facts.msg_quotes filename i)) (S i))
        as [-> [-> ->]].
      cbn [warnings errors info add_warning]. rewrite <- app_assoc.
      auto.
    + apply IH.
Qed.

(** The quote check reports, as warnings, the lines that are no comments
    and hold an odd number of double quotes, the escaped ones left out;
    each warning carries the number of its line, counted from 1.  It never
    touches the errors or the info. *)
Theorem check_quotes_findings (content filename : string) (st : findings) :
  warnings (_check_quotes content filename st)
  = warnings st ++ map (Facts.msg_quotes filename) (Facts.suspect_lines content) /\
  errors (_check_quotes content filename st) = errors st /\
  info (_check_quotes content filename st) = info st.
Proof.
  unfold _check_quotes, Facts.suspect_lines.
  apply (check_quotes_lines filename (split nl content) st 1).
Qed.

(** what the lemmas on the whole run need of the two checks above *)
Lemma file_structure_errors (d : FS.dir) (st : findings) :
  errors (validate_file_structure d st)
  = errors st ++ map Facts.msg_missing_required
                     (Facts.missing d required_files).
Proof.
  unfold validate_file_structure, Facts.missing, required_files,
    recommended_files.
  cbn [fold_left filter].
  destruct (FS.exists_ d "main.tf"), (FS.exists_ d "variables.tf"),
    (FS.exists_ d "outputs.tf"), (FS.exists_ d "versions.tf"),
    (FS.exists_ d "README.md"), (FS.exists_ d "examples/");
    cbn [negb map add_error add_info add_warning errors warnings info app];
    rewrite <- ?app_assoc, ?app_nil_r; reflexivity.
Qed.

Lemma check_quotes_errors (content filename : string) (st : findings) :
  errors (_check_quotes content filename st) = errors st.
Proof.
  unfold _check_quotes.
  apply (check_quotes_lines filename (split nl content) st 1).
Qed.

End ModuleValidatorFacts.

(** ** Substrings *)

Lemma forall_chars_app (p : ascii -> bool) (s1 s2 : string) :
  forall_chars p (s1 ++ s2) = forall_chars p s1 && forall_chars p s2.
Proof.
  induction s1 as [|c s1 IH]; cbn [append forall_chars]; [reflexivity|].
  now rewrite IH, andb_assoc.
Qed.

Lemma append_inv_tail (a b t : string) :
  (a ++ t)%string = (b ++ t)%string -> a = b.
Proof.
  revert b. induction a as [|x a IH]; intros [|y b] H; cbn [append] in H.
  - reflexivity.
  - exfalso. apply (f_equal String.length) in H. cbn in H.
    rewrite length_append in H. lia.
  - exfalso. apply (f_equal String.length) in H. cbn in H.
    rewrite length_append in H. lia.
  - injection H as -> H. now rewrite (IH b H).
Qed.

Lemma prefix_inv (p s : string) :
  String.prefix p s = true -> exists post, s = (p ++ post)%string.
Proof.
  revert s. induction p as [|c p IH]; intros s H.
  - now exists s.
  - destruct s as [|x s]; [discriminate|]. cbn [String.prefix] in H.
    destruct (ascii_dec c x) as [<-|]; [|discriminate].
    destruct (IH s H) as [post ->]. now exists post.
Qed.

Lemma prefix_app (p post : string) : String.prefix p (p ++ post) = true.
Proof.
  induction p as [|c p IH]; cbn [String.prefix append].
  - now destruct post.
  - destruct (ascii_dec c c); [exact IH | congruence].
Qed.

(** [sub in s]: the text [s] holds [sub] somewhere *)
Lemma contains_iff (sub s : string) :
  contains sub s = true <->
  exists pre post, s = (pre ++ sub ++ post)%string.
Proof.
  split.
  - induction s as [|x s IH]; cbn [contains]; intro H.
    + rewrite orb_false_r in H. apply prefix_inv in H as [post ->].
      now exists EmptyString, post.
    + apply orb_true_iff in H as [H|H].
      * apply prefix_inv in H as [post ->]. now exists EmptyString, post.
      * destruct (IH H) as [pre [post ->]]. now exists (String x pre), post.
  - intros [pre [post ->]]. induction pre as [|x pre IH].
    + cbn [append]. destruct (sub ++ post)%string eqn:E; cbn [contains];
        unfold startswith; rewrite <- E, prefix_app; reflexivity.
    + cbn [append contains]. rewrite IH. apply orb_true_r.
Qed.

(** a text that holds [a ++ x ++ b] holds [x] *)
Lemma contains_sub (a x b s : string) :
  contains (a ++ x ++ b) s = true -> contains x s = true.
Proof.
  rewrite !contains_iff. intros [pre [post ->]].
  exists (pre ++ a)%string, (b ++ post)%string.
  now rewrite !append_assoc.
Qed.

(** ** terraform_module_validator.py, the whole run *)

Module ModuleValidatorRun.
Import ModuleValidator.

Lemma add_info_info_grows st m : Spec.grows info st (add_info st m).
Proof. now exists [m]. Qed.
Lemma add_warning_info_grows st m : Spec.grows info st (add_warning st m).
Proof. exists []. simpl. now rewrite app_nil_r. Qed.
Lemma add_info_warnings_grows st m : Spec.grows warnings st (add_info st m).
Proof. exists []. simpl. now rewrite app_nil_r. Qed.
Lemma add_warning_warnings_grows st m :
  Spec.grows warnings st (add_warning st m).
Proof. now exists [m]. Qed.

(** the loop over the declared variables *)
Lemma variables_loop (main_content : string) (names : list string) :
  forall st,
    let st' :=
      fold_left
        (fun st var_name =>
           if contains ("var." ++ var_name) main_content
           then add_info st ("✓ Variable '" ++ var_name
                               ++ "' is used in main.tf")
           else add_warning st ("⚠ Variable '" ++ var_name
                                  ++ "' is defined but not used"))
        names st in
    errors st' = errors st /\
    Spec.grows info st st' /\ Spec.grows warnings st st' /\
    forall name,
      In name names ->
      if contains ("var." ++ name) main_content
      then In (Facts.msg_variable_used name) (info st')
      else In (Facts.msg_variable_unused name) (warnings st').
Proof.
  induction names as [|n names IH]; intro st; cbv zeta; cbn [fold_left].
  - repeat split; try apply grows_refl. intros name [].
  - match goal with
    | |- context [fold_left ?f names ?x] =>
        destruct (IH x) as [He [Hi [Hw Hin]]]; set (st1 := x) in *
    end.
    assert (H1 : errors st1 = errors st /\ Spec.grows info st st1 /\
                 Spec.grows warnings st st1).
    { subst st1. destruct (contains _ main_content); repeat split;
        auto using add_info_info_grows, add_warning_info_grows,
          add_info_warnings_grows, add_warning_warnings_grows. }
    destruct H1 as [He1 [Hi1 Hw1]].
    split; [congruence|]. split; [eapply grows_trans; eassumption|].
    split; [eapply grows_trans; eassumption|].
    intros name [<-|Hname]; [|now apply Hin].
    destruct (contains ("var." ++ n) main_content) eqn:E.
    + eapply grows_In; [exact Hi|]. subst st1. rewrite ?E. cbv iota.
      cbn [info add_info]. apply in_or_app. right. now left.
    + eapply grows_In; [exact Hw|]. subst st1. rewrite ?E. cbv iota.
      cbn [warnings add_warning]. apply in_or_app. right. now left.
Qed.

Lemma validate_variables_errors (d : FS.dir) (st st' : findings) :
  validate_variables d st = Some st' -> errors st' = errors st.
Proof.
  unfold validate_variables. intro H.
  destruct (_ || _); [now injection H as <-|].
  destruct (FS.read d "variables.tf") as [vc|];
    cbn [Exc.bind] in H; [|discriminate].
  destruct (FS.read d "main.tf") as [mc|];
    cbn [Exc.bind] in H; [|discriminate].
  injection H as <-.
  match goal with
  | |- context [fold_left ?f ?l ?x] =>
      destruct (variables_loop mc l x) as [He _]; exact He
  end.
Qed.

Lemma validate_variables_findings (d : FS.dir) (st st' : findings) :
  validate_variables d st = Some st' ->
  errors st' = errors st /\
  (FS.exists_ d "variables.tf" = false \/ FS.exists_ d "main.tf" = false ->
   st' = st) /\
  (forall variables_content main_content name,
      FS.read d "variables.tf" = Some variables_content ->
      FS.read d "main.tf" = Some main_content ->
      In name (findall1 variable_name_pattern variables_content) ->
      (contains ("var." ++ name) main_content = true ->
       In (Facts.msg_variable_used name) (info st')) /\
      (contains ("var." ++ name) main_content = false ->
       In (Facts.msg_variable_unused name) (warnings st')) /\
      (forall suffix,
          contains ("var." ++ name ++ suffix) main_content = true ->
          In (Facts.msg_variable_used name) (info st'))).
Proof.
  unfold validate_variables. intro H.
  destruct (FS.exists_ d "variables.tf") eqn:Xv;
    [destruct (FS.exists_ d "main.tf") eqn:Xm|];
    cbn [negb orb] in H.
  - destruct (FS.read d "variables.tf") as [vc|] eqn:Rv;
      cbn [Exc.bind] in H; [|discriminate].
    destruct (FS.read d "main.tf") as [mc|] eqn:Rm;
      cbn [Exc.bind] in H; [|discriminate].
    injection H as <-.
    match goal with
    | |- context [fold_left ?f ?l ?x] =>
        destruct (variables_loop mc l x) as [He [_ [_ Hin]]]
    end.
    split; [exact He|]. split; [intros [E|E]; discriminate E|].
    intros vc' mc' name E1 E2 Hname.
    injection E1 as <-. injection E2 as <-.
    specialize (Hin name Hname).
    assert (Hused : contains ("var." ++ name) mc = true ->
                    In (Facts.msg_variable_used name)
                       (info (fold_left
                                (fun st0 var_name =>
                                   if contains ("var." ++ var_name) mc
                                   then add_info st0
                                          ("✓ Variable '" ++ var_name
                                             ++ "' is used in main.tf")
                                   else add_warning st0
                                          ("⚠ Variable '" ++ var_name
                                             ++ "' is defined but not used"))
                                (findall1 variable_name_pattern vc)
                                (add_info st
                                   ("✓ Found "
                                      ++ str_nat
                                           (List.length
                                              (findall1 variable_name_pattern
                                                        vc))
                                      ++ " variable definitions"))))).
    { intro E. now rewrite E in Hin. }
    split; [exact Hused|]. split.
    + intro E. now rewrite E in Hin.
    + intros suffix E. apply Hused.
      apply (contains_sub EmptyString ("var." ++ name) suffix).
      cbn [append] in E |- *. exact E.
  - injection H as <-. split; [reflexivity|]. split; [reflexivity|].
    intros vc mc name _ Rm. apply read_exists in Rm. congruence.
  - injection H as <-. split; [reflexivity|]. split; [reflexivity|].
    intros vc mc name Rv. apply read_exists in Rv. congruence.
Qed.

(** the two lists that the loop over the declared variables fills *)
Lemma variables_loop_lists (main_content : string) (names : list string) :
  forall st,
    let st' :=
      fold_left
        (fun st var_name =>
           if contains ("var." ++ var_name) main_content
           then add_info st ("✓ Variable '" ++ var_name
                               ++ "' is used in main.tf")
           else add_warning st ("⚠ Variable '" ++ var_name
                                  ++ "' is defined but not used"))
        names st in
    info st'
    = info st
      ++ map Facts.msg_variable_used
             (filter (fun n => contains ("var." ++ n) main_content) names) /\
    warnings st'
    = warnings st
      ++ map Facts.msg_variable_unused
             (filter (fun n => negb (contains ("var." ++ n) main_content))
                     names).
Proof.
  induction names as [|n names IH]; intro st; cbv zeta;
    cbn [fold_left filter map].
  - now rewrite !app_nil_r.
  - destruct (contains ("var." ++ n) main_content); cbn [negb];
      match goal with
      | |- context [fold_left ?f names ?x] => destruct (IH x) as [-> ->]
      end;
      cbn [info warnings add_info add_warning map];
      rewrite <- ?app_assoc; auto.
Qed.

Lemma msg_variable_used_inj (n1 n2 : string) :
  Facts.msg_variable_used n1 = Facts.msg_variable_used n2 -> n1 = n2.
Proof.
  unfold Facts.msg_variable_used. intro H.
  apply append_inv_head in H. now apply append_inv_tail in H.
Qed.

Lemma msg_variable_unused_inj (n1 n2 : string) :
  Facts.msg_variable_unused n1 = Facts.msg_variable_unused n2 -> n1 = n2.
Proof.
  unfold Facts.msg_variable_unused. intro H.
  apply append_inv_head in H. now apply append_inv_tail in H.
Qed.

(** The usage check returns when the files it opens can be read, and
    never records an error; it does nothing when [variables.tf] or
    [main.tf] is missing.  Otherwise its info findings are the count of
    the declared variables, then one line for each variable in use, and
    its warnings one line for each variable not in use, a variable being
    in use when the text [var.] followed by its name stands anywhere in
    [main.tf]: a declared variable is reported as used exactly when it
    does, and as unused exactly when it does not.  So a name that begins
    the name of another variable in use is reported as used. *)
Theorem variable_usage_by_substring
        (d : FS.dir) (st : findings) (Hr : FS.tf_readable d) :
  exists st',
    validate_variables d st = Some st' /\
    errors st' = errors st /\
    (FS.exists_ d "variables.tf" = false \/ FS.exists_ d "main.tf" = false ->
     st' = st) /\
    (forall variables_content main_content name,
        FS.read d "variables.tf" = Some variables_content ->
        FS.read d "main.tf" = Some main_content ->
        In name (findall1 variable_name_pattern variables_content) ->
        (contains ("var." ++ name) main_content = true ->
         In (Facts.msg_variable_used name) (info st')) /\
        (contains ("var." ++ name) main_content = false ->
         In (Facts.msg_variable_unused name) (warnings st')) /\
        (forall suffix,
            contains ("var." ++ name ++ suffix) main_content = true ->
            In (Facts.msg_variable_used name) (info st'))) /\
    (forall variables_content main_content,
        FS.read d "variables.tf" = Some variables_content ->
        FS.read d "main.tf" = Some main_content ->
        exists new_info new_warnings,
          info st' = info st ++ new_info /\
          warnings st' = warnings st ++ new_warnings /\
          new_info
          = Facts.msg_found_variables
              (List.length (findall1 variable_name_pattern variables_content))
            :: map Facts.msg_variable_used
                   (filter (fun n => contains ("var." ++ n) main_content)
                           (findall1 variable_name_pattern
                                     variables_content)) /\
          new_warnings
          = map Facts.msg_variable_unused
                (filter (fun n => negb (contains ("var." ++ n) main_content))
                        (findall1 variable_name_pattern variables_content)) /\
          forall name,
            (In (Facts.msg_variable_used name) new_info <->
             In name (findall1 variable_name_pattern variables_content) /\
             contains ("var." ++ name) main_content = true) /\
            (In (Facts.msg_variable_unused name) new_warnings <->
             In name (findall1 variable_name_pattern variables_content) /\
             contains ("var." ++ name) main_content = false)).
Proof.
  destruct (ModuleValidatorProofs.validate_variables_total d Hr st)
    as [st' H].
  exists st'. split; [exact H|].
  destruct (validate_variables_findings d st st' H) as [He [Hm Hf]].
  split; [exact He|]. split; [exact Hm|]. split; [exact Hf|].
  intros vc mc Rv Rm. unfold validate_variables in H.
  rewrite (read_exists d _ _ Rv), (read_exists d _ _ Rm), Rv, Rm in H.
  cbn [negb orb Exc.bind] in H. injection H as <-.
  match goal with
  | |- context [fold_left ?f ?l ?x] =>
      destruct (variables_loop_lists mc l x) as [Ei Ew]
  end.
  cbv zeta in Ei, Ew. cbn [info warnings add_info] in Ei, Ew.
  rewrite <- app_assoc in Ei. cbn [app] in Ei.
  eexists. eexists. split; [exact Ei|]. split; [exact Ew|].
  split; [reflexivity|]. split; [reflexivity|].
  intro name. split.
  - cbn [In]. rewrite in_map_iff. split.
    + intros [E|[n [E Hn]]]; [discriminate E|].
      apply msg_variable_used_inj in E. subst n.
      now apply filter_In in Hn.
    + intros [Hn Hc]. right. exists name. split; [reflexivity|].
      apply filter_In. auto.
  - rewrite in_map_iff. split.
    + intros [n [E Hn]]. apply msg_variable_unused_inj in E. subst n.
      apply filter_In in Hn as [Hn Hc]. apply negb_true_iff in Hc. auto.
    + intros [Hn Hc]. exists name. split; [reflexivity|].
      apply filter_In. split; [exact Hn|]. now rewrite Hc.
Qed.

(** [env] is reported as used where only [var.environment] is *)
Lemma variable_usage_by_substring_witness :
  exists st',
    validate_variables Examples.module_env init = Some st' /\
    In (Facts.msg_variable_used "env") (info st').
Proof.
  assert (Hr : FS.tf_readable Examples.module_env).
  { intros name Hin. vm_compute in Hin.
    repeat (destruct Hin as [<-|Hin]; [eexists; vm_compute; reflexivity|]).
    destruct Hin. }
  destruct (variable_usage_by_substring Examples.module_env init Hr)
    as [st' [H [_ [_ [Hall _]]]]].
  exists st'. split; [exact H|].
  refine (proj2 (proj2 (Hall _ _ "env" eq_refl eq_refl _)) "ironment" _).
  - vm_compute. auto.
  - vm_compute. reflexivity.
Defined.

(** *** Where the errors of a run come from *)

Lemma foldM_errors {A : Type} (f : findings -> A -> option findings)
      (g : A -> list string) (l : list A) :
  (forall st x st1, f st x = Some st1 -> errors st1 = errors st ++ g x) ->
  forall st st',
    Exc.foldM f l st = Some st' ->
    errors st' = errors st ++ flat_map g l.
Proof.
  intro Hf. induction l as [|x l IH]; intros st st' H; cbn [Exc.foldM] in H.
  - injection H as <-. cbn. now rewrite app_nil_r.
  - destruct (f st x) as [st1|] eqn:E; cbn [Exc.bind] in H; [|discriminate].
    rewrite (IH st1 st' H), (Hf st x st1 E). cbn [flat_map].
    now rewrite app_assoc.
Qed.

Lemma check_resource_syntax_errors content filename st :
  errors (_check_resource_syntax content filename st) = errors st.
Proof.
  unfold _check_resource_syntax.
  destruct (findall0 resource_pattern content),
    (String.eqb filename "variables.tf"), (String.eqb filename "outputs.tf");
    reflexivity.
Qed.

Lemma validate_terraform_syntax_errors d st st' :
  validate_terraform_syntax d st = Some st' ->
  errors st' = errors st ++ flat_map (Facts.bracket_errors d) (FS.glob_tf d).
Proof.
  apply foldM_errors. clear. intros st name st1 H.
  unfold Facts.bracket_errors.
  destruct (FS.read d name) as [content|]; cbn [Exc.bind] in H;
    [|discriminate].
  injection H as <-.
  rewrite check_resource_syntax_errors.
  rewrite ModuleValidatorFacts.check_quotes_errors.
  unfold _check_brackets.
  destruct (count_char "{" content =? count_char "}" content)%nat;
    cbn [negb errors add_error add_info]; [now rewrite app_nil_r | reflexivity].
Qed.

Lemma validate_naming_conventions_errors d st st' :
  validate_naming_conventions d st = Some st' -> errors st' = errors st.
Proof.
  intro H.
  assert (E : errors st' = errors st ++ flat_map (fun _ => []) (FS.glob_tf d)).
  { revert H. apply foldM_errors. clear. intros st name st1 H.
    destruct (FS.read d name) as [content|]; cbn [Exc.bind] in H;
      [|discriminate].
    injection H as <-. rewrite app_nil_r.
    generalize (findall2 resource_name_pattern content). intro l.
    revert st. induction l as [|r l IH]; intro st; cbn [fold_left];
      [reflexivity|].
    rewrite IH. now destruct (negb _). }
  rewrite E. clear.
  induction (FS.glob_tf d); cbn; [apply app_nil_r | assumption].
Qed.

Lemma validate_variable_constraints_errors d st st' :
  validate_variable_constraints d st = Some st' -> errors st' = errors st.
Proof.
  unfold validate_variable_constraints. destruct (negb _).
  - intro H. now injection H as <-.
  - destruct (FS.read d "variables.tf"); cbn [Exc.bind]; [|discriminate].
    intro H. now injection H as <-.
Qed.

Lemma output_blocks_errors (blocks : list (string * string)) :
  forall st,
    errors (fold_left
              (fun st (blk : string * string) =>
                 let '(output_name, output_content) := blk in
                 let st :=
                   if contains "description" output_content
                   then add_info st ("✓ Output '" ++ output_name
                                       ++ "' has description")
                   else add_warning st ("⚠ Output '" ++ output_name
                                          ++ "' missing description") in
                 if contains "value" output_content
                 then add_info st ("✓ Output '" ++ output_name ++ "' has value")
                 else add_error st ("✗ Output '" ++ output_name
                                      ++ "' missing value"))
              blocks st)
    = errors st
      ++ map (fun blk : string * string =>
                ("✗ Output '" ++ fst blk ++ "' missing value")%string)
             (filter (fun blk : string * string =>
                        negb (contains "value" (snd blk))) blocks).
Proof.
  induction blocks as [|[n c] blocks IH]; intro st;
    cbn [fold_left filter snd].
  - cbn. now rewrite app_nil_r.
  - rewrite IH.
    destruct (contains "description" c), (contains "value" c);
      cbn [negb map fst errors add_info add_warning add_error];
      now rewrite <- ?app_assoc.
Qed.

Lemma validate_outputs_errors d st st' :
  validate_outputs d st = Some st' ->
  errors st' = errors st ++ Facts.output_block_errors d.
Proof.
  unfold validate_outputs, Facts.output_block_errors.
  destruct (FS.exists_ d "outputs.tf") eqn:X; cbn [negb].
  - destruct (FS.read d "outputs.tf") as [content|]; cbn [Exc.bind];
      [|discriminate].
    intro H. injection H as <-. apply output_blocks_errors.
  - intro H. injection H as <-.
    destruct (FS.read d "outputs.tf") as [content|] eqn:R.
    + apply read_exists in R. congruence.
    + now rewrite app_nil_r.
Qed.

Lemma run_validation_error_list d r :
  run_validation d = Some r ->
  errors (fst r)
  = map Facts.msg_missing_required (Facts.missing d required_files)
    ++ flat_map (Facts.bracket_errors d) (FS.glob_tf d)
    ++ Facts.output_block_errors d /\
  snd r = (List.length (errors (fst r)) =? 0)%nat.
Proof.
  unfold run_validation. intro H.
  destruct (validate_terraform_syntax d _) as [st1|] eqn:E1;
    cbn [Exc.bind] in H; [|discriminate].
  destruct (validate_variables d st1) as [st2|] eqn:E2;
    cbn [Exc.bind] in H; [|discriminate].
  destruct (validate_outputs d st2) as [st3|] eqn:E3;
    cbn [Exc.bind] in H; [|discriminate].
  destruct (validate_variable_constraints d st3) as [st4|] eqn:E4;
    cbn [Exc.bind] in H; [|discriminate].
  destruct (validate_naming_conventions d st4) as [st5|] eqn:E5;
    cbn [Exc.bind] in H; [|discriminate].
  injection H as <-. cbn [fst snd]. split; [|reflexivity].
  rewrite (validate_naming_conventions_errors _ _ _ E5).
  rewrite (validate_variable_constraints_errors _ _ _ E4).
  rewrite (validate_outputs_errors _ _ _ E3).
  rewrite (validate_variables_errors d st1 st2 E2).
  rewrite (validate_terraform_syntax_errors _ _ _ E1).
  rewrite ModuleValidatorFacts.file_structure_errors.
  cbn [errors init app]. now rewrite app_assoc.
Qed.

Lemma filter_nil_iff {A : Type} (p : A -> bool) (l : list A) :
  filter p l = [] <-> forall x, In x l -> p x = false.
Proof.
  induction l as [|x l IH]; cbn [filter].
  - split; [intros _ y [] | reflexivity].
  - destruct (p x) eqn:E.
    + split; [discriminate|]. intro H. specialize (H x (or_introl eq_refl)).
      congruence.
    + rewrite IH. split.
      * intros H y [<-|Hy]; auto.
      * intros H y Hy. apply H. now right.
Qed.

Lemma flat_map_nil_iff {A B : Type} (g : A -> list B) (l : list A) :
  flat_map g l = [] <-> forall x, In x l -> g x = [].
Proof.
  induction l as [|x l IH]; cbn [flat_map].
  - split; [intros _ y [] | reflexivity].
  - split.
    + intro H. apply app_eq_nil in H as [H1 H2].
      intros y [<-|Hy]; [exact H1 | now apply IH].
    + intro H. rewrite (H x (or_introl eq_refl)). cbn [app].
      apply IH. intros y Hy. apply H. now right.
Qed.

Lemma run_validation_clean (d : FS.dir) (r : findings * bool) :
  run_validation d = Some r ->
  errors (fst r)
  = map Facts.msg_missing_required (Facts.missing d required_files)
    ++ flat_map (Facts.bracket_errors d) (FS.glob_tf d)
    ++ Facts.output_block_errors d /\
  (snd r = true <-> Facts.module_clean d).
Proof.
  intro H. apply run_validation_error_list in H as [He Hb].
  split; [exact He|]. rewrite Hb, He.
  assert (Hnil : forall l : list string,
             (List.length l =? 0)%nat = true <-> l = []).
  { intros [|x l]; cbn; split; congruence. }
  rewrite Hnil. unfold Facts.module_clean. split.
  - intro E. apply app_eq_nil in E as [E1 E23].
    apply app_eq_nil in E23 as [E2 E3].
    split; [|split].
    + intros f Hf. apply map_eq_nil in E1.
      unfold Facts.missing in E1.
      apply (proj1 (filter_nil_iff _ _)) with (x := f) in E1; [|exact Hf].
      now apply negb_false_iff in E1.
    + intros name content Hin Hr.
      apply (proj1 (flat_map_nil_iff _ _)) with (x := name) in E2;
        [|exact Hin].
      unfold Facts.bracket_errors in E2. rewrite Hr in E2.
      unfold Facts.balanced.
      destruct (count_char "{" content =? count_char "}" content)%nat eqn:Eb;
        [now apply Nat.eqb_eq in Eb | discriminate].
    + intros content blk Hr Hin.
      unfold Facts.output_block_errors in E3. rewrite Hr in E3.
      apply map_eq_nil in E3.
      apply (proj1 (filter_nil_iff _ _)) with (x := blk) in E3; [|exact Hin].
      now apply negb_false_iff in E3.
  - intros [H1 [H2 H3]].
    assert (E1 : Facts.missing d required_files = []).
    { apply filter_nil_iff. intros f Hf. now rewrite (H1 f Hf). }
    assert (E2 : flat_map (Facts.bracket_errors d) (FS.glob_tf d) = []).
    { apply flat_map_nil_iff. intros name Hin. unfold Facts.bracket_errors.
      destruct (FS.read d name) as [content|] eqn:Hr; [|reflexivity].
      specialize (H2 name content Hin Hr). unfold Facts.balanced in H2.
      now rewrite H2, Nat.eqb_refl. }
    assert (E3 : Facts.output_block_errors d = []).
    { unfold Facts.output_block_errors.
      destruct (FS.read d "outputs.tf") as [content|] eqn:Hr; [|reflexivity].
      replace (filter _ _) with (@nil (string * string)); [reflexivity|].
      symmetry. apply filter_nil_iff. intros blk Hin.
      now rewrite (H3 content blk eq_refl Hin). }
    now rewrite E1, E2, E3.
Qed.

(** When every [*.tf] file of the module can be read, a run returns, and
    it passes exactly the clean modules.  The errors of a run are the
    required files that are missing, then the [*.tf] files whose braces
    are not balanced, then the output blocks of [outputs.tf] that do not
    hold the word [value]; no other check records an error.  So the
    summary is [True] exactly when the four files are there, the braces
    of every [*.tf] file are balanced and every output block holds
    [value]. *)
Theorem run_validation_passes (d : FS.dir) (Hr : FS.tf_readable d) :
  exists st success,
    run_validation d = Some (st, success) /\
    errors st
    = map Facts.msg_missing_required (Facts.missing d required_files)
      ++ flat_map (Facts.bracket_errors d) (FS.glob_tf d)
      ++ Facts.output_block_errors d /\
    (success = true <-> Facts.module_clean d).
Proof.
  destruct (ModuleValidatorProofs.run_validation_total d Hr) as [[st b] H].
  exists st, b. split; [exact H|]. exact (run_validation_clean d (st, b) H).
Qed.

(** the sample module passes, so it is clean *)
Lemma run_validation_passes_witness :
  exists st,
    run_validation Examples.module_clean = Some (st, true) /\
    Facts.module_clean Examples.module_clean.
Proof.
  assert (Hr : FS.tf_readable Examples.module_clean).
  { intros name Hin. vm_compute in Hin.
    repeat (destruct Hin as [<-|Hin]; [eexists; vm_compute; reflexivity|]).
    destruct Hin. }
  destruct (run_validation_passes Examples.module_clean Hr)
    as [st [success [H [_ Hiff]]]].
  assert (Hs : success = true).
  { assert (E : option_map snd (run_validation Examples.module_clean)
                = Some true) by (vm_compute; reflexivity).
    rewrite H in E. cbn in E. now injection E. }
  subst success. exists st. split; [exact H | now apply Hiff].
Defined.

(** *** The naming check *)

Lemma snake_case_pattern_steps (c : ascii) (s1 : string) :
  match_ snake_case_pattern (String c s1)
  = if is_lower c
    then star_loop
           (mt (String.length (String c s1))
               (Cls (fun x => is_lower x || is_digit x || Ascii.eqb x "_")))
           (fun s' cs' =>
              if String.eqb s' EmptyString || String.eqb s' (str1 nl)
              then Some (MObj (String c s1) s' cs')
              else None)
           (String.length s1) s1 []
    else None.
Proof.
  unfold match_, match_at, snake_case_pattern.
  cbn [Cat mt]. now rewrite Nat.eqb_refl.
Qed.

(** what the naming pattern of the validator matches *)
Lemma snake_case_pattern_shape (s : string) :
  is_some (match_ snake_case_pattern s) = true <-> Facts.snake_case s.
Proof.
  unfold Facts.snake_case. split.
  - destruct s as [|c s1]; [discriminate|]. rewrite snake_case_pattern_steps.
    destruct (is_lower c) eqn:Hc; [|discriminate].
    destruct (star_loop _ _ _ s1 []) as [m|] eqn:E; [|discriminate].
    intros _. apply star_cls_sound in E as [body [rest [-> [Hb Hk]]]].
    destruct (String.eqb rest EmptyString || String.eqb rest (str1 nl))
      eqn:Ht; [|discriminate].
    exists c, body, rest. repeat split; try assumption.
    apply orb_true_iff in Ht as [Ht|Ht]; apply String.eqb_eq in Ht; auto.
  - intros [c [body [tail [-> [Hc [Hb Ht]]]]]].
    rewrite snake_case_pattern_steps, Hc. apply star_cls_complete.
    + rewrite length_append. lia.
    + exact Hb.
    + destruct Ht as [-> | ->]; reflexivity.
Qed.

Lemma foldM_warnings {A : Type} (f : findings -> A -> option findings)
      (g : A -> list string) (l : list A) :
  (forall st x st1, f st x = Some st1 -> warnings st1 = warnings st ++ g x) ->
  forall st st',
    Exc.foldM f l st = Some st' ->
    warnings st' = warnings st ++ flat_map g l.
Proof.
  intro Hf. induction l as [|x l IH]; intros st st' H; cbn [Exc.foldM] in H.
  - injection H as <-. cbn. now rewrite app_nil_r.
  - destruct (f st x) as [st1|] eqn:E; cbn [Exc.bind] in H; [|discriminate].
    rewrite (IH st1 st' H), (Hf st x st1 E). cbn [flat_map].
    now rewrite app_assoc.
Qed.

Lemma validate_naming_conventions_warnings d st st' :
  validate_naming_conventions d st = Some st' ->
  warnings st' = warnings st ++ flat_map (Facts.naming_warnings d) (FS.glob_tf d).
Proof.
  apply foldM_warnings. clear. intros st name st1 H.
  unfold Facts.naming_warnings.
  destruct (FS.read d name) as [content|]; cbn [Exc.bind] in H;
    [|discriminate].
  injection H as <-.
  generalize (findall2 resource_name_pattern content). intro l.
  revert st. induction l as [|r l IH]; intro st; cbn [fold_left flat_map].
  - now rewrite app_nil_r.
  - rewrite IH.
    destruct (is_some (match_ snake_case_pattern (snd r)));
      cbn [negb warnings add_warning add_info app];
      [reflexivity | now rewrite <- app_assoc].
Qed.

(** When every [*.tf] file can be read the naming check returns.  It
    warns, file by file and in the order of the file, of each resource
    whose name the pattern [^[a-z][a-z0-9_]*$] does not match, and it
    records no error; the names that the pattern matches are the
    snake-case names, a line break at the end being let through. *)
Theorem naming_convention_is_snake_case
        (d : FS.dir) (st : findings) (Hr : FS.tf_readable d) :
  exists st',
    validate_naming_conventions d st = Some st' /\
    errors st' = errors st /\
    warnings st'
    = warnings st ++ flat_map (Facts.naming_warnings d) (FS.glob_tf d) /\
    forall s,
      is_some (match_ snake_case_pattern s) = true <-> Facts.snake_case s.
Proof.
  destruct (ModuleValidatorProofs.validate_naming_conventions_total d Hr st)
    as [st' H].
  exists st'. split; [exact H|].
  split; [exact (validate_naming_conventions_errors d st st' H)|].
  split; [exact (validate_naming_conventions_warnings d st st' H)|].
  apply snake_case_pattern_shape.
Qed.

Lemma naming_convention_is_snake_case_witness :
  exists st',
    validate_naming_conventions Examples.module_clean init = Some st' /\
    errors st' = [] /\ warnings st' = [].
Proof.
  assert (Hr : FS.tf_readable Examples.module_clean).
  { intros name Hin. vm_compute in Hin.
    repeat (destruct Hin as [<-|Hin]; [eexists; vm_compute; reflexivity|]).
    destruct Hin. }
  destruct (naming_convention_is_snake_case Examples.module_clean init Hr)
    as [st' [H [He [Hw _]]]].
  exists st'. split; [exact H|]. split; [exact He|].
  rewrite Hw. vm_compute. reflexivity.
Defined.

End ModuleValidatorRun.


(** ** The run of the output verifier *)

Module OutputVerifierRun.
Import PyStr OutputVerifier OutputVerifierProofs.

Lemma same_refl st : Facts.same_findings st st.
Proof. repeat split. Qed.

Lemma same_trans st1 st2 st3 :
  Facts.same_findings st1 st2 -> Facts.same_findings st2 st3 ->
  Facts.same_findings st1 st3.
Proof.
  unfold Facts.same_findings. intros [E1 [W1 I1]] [E2 [W2 I2]].
  repeat split; congruence.
Qed.

Lemma same_print st m : Facts.same_findings st (print st m).
Proof. repeat split. Qed.

Lemma same_print_after st st' m :
  Facts.same_findings st st' -> Facts.same_findings st (print st' m).
Proof. intro H. eapply same_trans; [exact H | apply same_print]. Qed.

Lemma same_fold {A : Type} (f : state -> A -> state) (l : list A) :
  (forall st x, Facts.same_findings st (f st x)) ->
  forall st st', Facts.same_findings st st' ->
                 Facts.same_findings st (fold_left f l st').
Proof.
  intro Hf. induction l as [|x l IH]; intros st st' H; cbn [fold_left].
  - exact H.
  - apply IH. eapply same_trans; [exact H | apply Hf].
Qed.

(** what the loaders return does not depend on what was printed before *)
Lemma load_resources_of d rs ds :
  Facts.resources_of d = Some (rs, ds) ->
  forall st, exists st1,
    load_resources d st = Some (rs, ds, st1) /\ Facts.same_findings st st1.
Proof.
  unfold Facts.resources_of, load_resources. intros H st.
  destruct (negb (FS.exists_ d "main.tf")).
  - cbn in H. injection H as <- <-. eexists. split; [reflexivity|].
    apply same_print.
  - destruct (FS.read d "main.tf") as [content|]; cbn in H |- *;
      [|discriminate].
    injection H as <- <-. eexists. split; [reflexivity | apply same_refl].
Qed.

Lemma load_outputs_of d outs :
  Facts.outputs_of d = Some outs ->
  forall st, exists st1,
    load_outputs d st = Some (outs, st1) /\ Facts.same_findings st st1.
Proof.
  unfold Facts.outputs_of, load_outputs. intros H st.
  destruct (negb (FS.exists_ d "outputs.tf")).
  - cbn in H. injection H as <-. eexists. split; [reflexivity|].
    apply same_print.
  - destruct (FS.read d "outputs.tf") as [content|]; cbn in H |- *;
      [|discriminate].
    injection H as <-. eexists. split; [reflexivity | apply same_refl].
Qed.

(** the two last checks of a run only print *)
Lemma verify_common_outputs_prints d outs :
  Facts.outputs_of d = Some outs ->
  forall st, exists st',
    verify_common_outputs d st = Some st' /\ Facts.same_findings st st'.
Proof.
  intros H st. destruct (load_outputs_of d outs H st) as [st1 [E S1]].
  unfold verify_common_outputs. rewrite E. cbn [Exc.bind].
  destruct outs as [|o outs]; [exists st1; auto|].
  destruct (find_common (o :: outs)) as [|f fs].
  - eexists. split; [reflexivity|]. now repeat apply same_print_after.
  - eexists. split; [reflexivity|].
    apply same_fold; [intros; apply same_print|].
    now repeat apply same_print_after.
Qed.

Lemma verify_output_organization_prints d outs :
  Facts.outputs_of d = Some outs ->
  forall st, exists st',
    verify_output_organization d st = Some st' /\ Facts.same_findings st st'.
Proof.
  intros H st. destruct (load_outputs_of d outs H st) as [st1 [E S1]].
  unfold verify_output_organization. rewrite E. cbn [Exc.bind].
  destruct outs as [|o outs]; [exists st1; auto|].
  eexists. split; [reflexivity|].
  repeat apply same_print_after.
  destruct (group_prefixes (map fst (o :: outs))) as [|g gs].
  - now repeat apply same_print_after.
  - apply same_fold.
    + intros st0 x. apply same_fold; [intros; apply same_print|].
      apply same_print.
    + now repeat apply same_print_after.
Qed.

Lemma print_summary_prints st : Facts.same_findings st (print_summary st).
Proof.
  unfold print_summary.
  repeat apply same_print_after.
  match goal with
  | |- Facts.same_findings _ (match info ?s with _ => _ end) =>
      assert (S3 : Facts.same_findings st s); [|destruct (info s);
        [exact S3 | now apply same_print_after]]
  end.
  match goal with
  | |- Facts.same_findings _ (match warnings ?s with _ => _ end) =>
      assert (S2 : Facts.same_findings st s); [|destruct (warnings s);
        [exact S2 | apply same_fold; [intros; apply same_print|];
                    now apply same_print_after]]
  end.
  destruct (errors _).
  - now repeat apply same_print_after.
  - apply same_fold; [intros; apply same_print|].
    repeat apply same_print_after. apply same_refl.
Qed.

(** *** The findings of a run *)

Lemma verify_output_warnings iter_set av st o :
  warnings (verify_output iter_set av st o)
  = warnings st ++ Facts.output_warnings o.
Proof.
  destruct o as [name oi].
  unfold verify_output, Facts.output_warnings, Facts.msg_missing_description,
    _verify_value_references.
  cbn [fst snd].
  destruct (opt_truthy (description oi)), (opt_truthy (value oi)),
    (sensitive oi); cbn [warnings print add_info add_warning add_error];
    rewrite ?check_refs_warnings;
    cbn [warnings print add_info add_warning add_error];
    rewrite ?app_nil_r; reflexivity.
Qed.

Lemma verify_outputs_warnings iter_set av outs :
  forall st,
    warnings (fold_left (verify_output iter_set av) outs st)
    = warnings st ++ flat_map Facts.output_warnings outs.
Proof.
  induction outs as [|o outs IH]; intro st; cbn [fold_left flat_map].
  - now rewrite app_nil_r.
  - now rewrite IH, verify_output_warnings, app_assoc.
Qed.

Lemma bullets_same (l : list string) (st : state) :
  Facts.same_findings
    st (fold_left (fun st ref => print st ("  • " ++ ref)) l st).
Proof. apply same_fold; [intros; apply same_print | apply same_refl]. Qed.

(** the first check of a run: its findings are those of the outputs, one
    after the other *)
Lemma verify_output_references_findings iter_set d rs ds outs :
  Facts.resources_of d = Some (rs, ds) ->
  Facts.outputs_of d = Some outs ->
  forall st, exists st',
    verify_output_references iter_set d st = Some st' /\
    errors st'
    = errors st ++ flat_map (Spec.output_errors iter_set (available rs ds)) outs /\
    warnings st' = warnings st ++ flat_map Facts.output_warnings outs /\
    info st'
    = info st ++ flat_map (Spec.output_findings iter_set (available rs ds)) outs.
Proof.
  intros Hr Ho st.
  destruct (load_resources_of d rs ds Hr st) as [st1 [E1 [Se1 [Sw1 Si1]]]].
  destruct (load_outputs_of d outs Ho st1) as [st2 [E2 [Se2 [Sw2 Si2]]]].
  unfold verify_output_references.
  rewrite E1. cbn [Exc.bind]. rewrite E2. cbn [Exc.bind].
  destruct outs as [|o outs].
  - exists st2. cbn [flat_map]. rewrite !app_nil_r.
    repeat split; congruence.
  - eexists. split; [reflexivity|].
    match goal with
    | |- context [fold_left (fun st ref => print st ("  • " ++ ref)) ?l ?s] =>
        destruct (bullets_same l s) as [-> [-> ->]]
    end.
    cbn [errors warnings info print].
    rewrite verify_outputs_errors, verify_outputs_warnings,
      verify_outputs_info.
    cbn [errors warnings info print]. repeat split; congruence.
Qed.

(** an output adds no error exactly when it passes *)
Lemma output_errors_nil iter_set av o :
  (forall l, Permutation (iter_set l) l) ->
  Spec.output_errors iter_set av o = [] <-> Facts.output_ok av o.
Proof.
  intro Hperm. destruct o as [name oi].
  unfold Spec.output_errors, Facts.output_ok. cbn [snd].
  destruct (opt_truthy (value oi)).
  - rewrite ModuleValidatorRun.flat_map_nil_iff. split.
    + intro H. split; [reflexivity|]. intros ref Hin.
      assert (Hin' : In ref (iter_set (find_refs (opt_str (value oi)))))
        by (eapply Permutation_in; [apply Permutation_sym, Hperm | exact Hin]).
      specialize (H ref Hin'). unfold Spec.ref_errors in H.
      destruct (Spec.is_var_local ref); [now left|].
      destruct (set_mem ref av) eqn:Em; [|discriminate].
      right. now apply set_mem_In.
    + intros [_ H] ref Hin.
      assert (Hin' : In ref (find_refs (opt_str (value oi))))
        by (eapply Permutation_in; [apply Hperm | exact Hin]).
      unfold Spec.ref_errors.
      destruct (H ref Hin') as [-> | Hav]; [reflexivity|].
      apply set_mem_In in Hav. rewrite Hav.
      now destruct (Spec.is_var_local ref).
  - split; [discriminate | intros [H _]; discriminate].
Qed.

(** A run of the verifier on a module whose files can be read returns.
    Its errors and its warnings are those of the outputs taken one
    after the other, the checks for common outputs and for the
    organization adding none; and it reports success exactly when every
    output has a value in which every reference found is a variable, a
    local value or a declared resource or data source. *)
Theorem run_verification_succeeds_iff
        (iter_set : list string -> list string) (d : FS.dir)
        (rs ds : list (string * string))
        (outs : list (string * output_info))
        (Hperm : forall l, Permutation (iter_set l) l)
        (Hres : Facts.resources_of d = Some (rs, ds))
        (Houts : Facts.outputs_of d = Some outs) :
  exists st success,
    run_verification iter_set d = Some (st, success) /\
    errors st = flat_map (Spec.output_errors iter_set (available rs ds)) outs /\
    warnings st = flat_map Facts.output_warnings outs /\
    (success = true <->
     forall o, In o outs -> Facts.output_ok (available rs ds) o).
Proof.
  unfold run_verification.
  destruct (verify_output_references_findings
              iter_set d rs ds outs Hres Houts
              (print (print init "🔍 Starting Output Verification...")
                     (rule 50)))
    as [st1 [E1 [He [Hw _]]]].
  rewrite E1. cbn [Exc.bind].
  destruct (verify_common_outputs_prints d outs Houts st1)
    as [st2 [E2 [Se2 [Sw2 _]]]].
  rewrite E2. cbn [Exc.bind].
  destruct (verify_output_organization_prints d outs Houts st2)
    as [st3 [E3 [Se3 [Sw3 _]]]].
  rewrite E3. cbn [Exc.bind].
  destruct (print_summary_prints st3) as [Se4 [Sw4 _]].
  cbn [errors warnings print init app] in He, Hw.
  assert (Herr : errors (print_summary st3)
                 = flat_map (Spec.output_errors iter_set (available rs ds))
                            outs) by congruence.
  assert (Hwarn : warnings (print_summary st3)
                  = flat_map Facts.output_warnings outs) by congruence.
  assert (Hok : flat_map (Spec.output_errors iter_set (available rs ds)) outs
                = [] <->
                forall o, In o outs -> Facts.output_ok (available rs ds) o).
  { rewrite ModuleValidatorRun.flat_map_nil_iff. split; intros H o Hin.
    - apply (output_errors_nil iter_set); auto.
    - apply (output_errors_nil iter_set); auto. }
  destruct (List.length (errors (print_summary st3)) =? 0)%nat eqn:Eb.
  - eexists. exists true. split; [reflexivity|].
    cbn [errors warnings print]. split; [exact Herr|].
    split; [exact Hwarn|]. split; [intros _|reflexivity].
    apply Hok. rewrite <- Herr. apply Nat.eqb_eq in Eb.
    now apply length_zero_iff_nil.
  - eexists. exists false. split; [reflexivity|].
    cbn [errors warnings print]. split; [exact Herr|].
    split; [exact Hwarn|]. split; [discriminate|].
    intro H. apply Hok in H. rewrite <- Herr in H. rewrite H in Eb.
    discriminate.
Qed.

Lemma run_verification_succeeds_iff_witness :
  exists st success,
    run_verification Examples.in_order Examples.module_valid
    = Some (st, success) /\
    errors st
    = flat_map (Spec.output_errors
                  Examples.in_order (available [("aws_instance", "web")] []))
               [("instance_id",
                 OutputInfo (Some "The instance") (Some "aws_instance.web.id")
                            false)] /\
    warnings st
    = flat_map Facts.output_warnings
               [("instance_id",
                 OutputInfo (Some "The instance") (Some "aws_instance.web.id")
                            false)] /\
    (success = true <->
     forall o,
       In o [("instance_id",
              OutputInfo (Some "The instance") (Some "aws_instance.web.id")
                         false)] ->
       Facts.output_ok (available [("aws_instance", "web")] []) o).
Proof.
  apply (run_verification_succeeds_iff
           Examples.in_order Examples.module_valid
           [("aws_instance", "web")] []
           [("instance_id",
             OutputInfo (Some "The instance") (Some "aws_instance.web.id")
                        false)]).
  - intro l. apply Permutation_refl.
  - vm_compute. reflexivity.
  - vm_compute. reflexivity.
Defined.

(** *** A module without outputs.tf *)

(** When outputs.tf is missing and main.tf is missing or can be read,
    the run reports success: it records no error, no warning and no
    successful check, and the only sign of the missing file is the line
    that each of the three checks prints when it loads the outputs. *)
Theorem missing_outputs_file_passes
        (iter_set : list string -> list string) (d : FS.dir)
        (Hout : FS.exists_ d "outputs.tf" = false)
        (Hmain : FS.exists_ d "main.tf" = false \/
                 exists content, FS.read d "main.tf" = Some content) :
  exists st,
    run_verification iter_set d = Some (st, true) /\
    errors st = [] /\ warnings st = [] /\ info st = [] /\
    count_occ string_dec (out st) Facts.line_outputs_not_found = 3.
Proof.
  unfold run_verification, verify_output_references, verify_common_outputs,
    verify_output_organization, load_resources, load_outputs.
  rewrite Hout. cbn [negb].
  destruct (FS.exists_ d "main.tf") eqn:Em; cbn [negb Exc.bind].
  - destruct Hmain as [Hmain | [content Hmain]]; [discriminate|].
    rewrite Hmain. cbn [Exc.bind].
    eexists. split; [reflexivity|]. repeat split.
  - eexists. split; [reflexivity|]. repeat split.
Qed.

Lemma missing_outputs_file_passes_witness :
  exists st,
    run_verification Examples.in_order [("main.tf", FS.Text Examples.main_tf)]
    = Some (st, true) /\
    errors st = [] /\ warnings st = [] /\ info st = [] /\
    count_occ string_dec (out st) Facts.line_outputs_not_found = 3.
Proof.
  apply (missing_outputs_file_passes
           Examples.in_order [("main.tf", FS.Text Examples.main_tf)]).
  - reflexivity.
  - right. eexists. reflexivity.
Defined.

End OutputVerifierRun.


(** ** Dictionaries filled block by block *)

Module DictFacts.
Import PyStr OutputVerifier OutputVerifierProofs.

Lemma set_add_NoDup (l : list string) (x : string) :
  NoDup l -> NoDup (set_add l x).
Proof.
  intro H. unfold set_add. destruct (set_mem x l) eqn:E; [exact H|].
  assert (Hn : ~ In x l).
  { intro Hin. apply set_mem_In in Hin. congruence. }
  clear E. induction H as [|y l Hy Hl IH]; cbn [app].
  - constructor; [intros []|constructor].
  - constructor.
    + rewrite in_app_iff. intros [H1|[->|[]]]; [auto|]. apply Hn. now left.
    + apply IH. intro H1. apply Hn. now right.
Qed.

Lemma set_update_NoDup (xs l : list string) :
  NoDup l -> NoDup (set_update l xs).
Proof.
  unfold set_update. revert l.
  induction xs as [|x xs IH]; intros l H; cbn [fold_left]; [exact H|].
  apply IH. now apply set_add_NoDup.
Qed.

Lemma set_update_In (xs l : list string) (x : string) :
  In x (set_update l xs) <-> In x l \/ In x xs.
Proof.
  unfold set_update. revert l.
  induction xs as [|y xs IH]; intro l; cbn [fold_left].
  - split; [auto | intros [H|[]]; exact H].
  - rewrite IH, set_add_In. cbn [In]. intuition.
Qed.

(** an assignment leaves the keys as [set.add] leaves a set *)
Lemma dict_set_keys {V : Type} (d : list (string * V)) (k : string) (v : V) :
  map fst (dict_set d k v) = set_add (map fst d) k.
Proof.
  unfold set_add, set_mem.
  induction d as [|[k' v'] d IH]; cbn [dict_set map fst existsb];
    [reflexivity|].
  rewrite (String.eqb_sym k k').
  destruct (String.eqb k' k) eqn:E; cbn [map fst orb].
  - apply String.eqb_eq in E. now subst.
  - rewrite IH. now destruct (existsb (String.eqb k) (map fst d)).
Qed.

Lemma dict_set_In {V : Type} (d : list (string * V)) (k : string) (v : V) :
  NoDup (map fst d) ->
  forall k' v',
    In (k', v') (dict_set d k v) <->
    (k' = k /\ v' = v) \/ (k' <> k /\ In (k', v') d).
Proof.
  induction d as [|[k0 v0] d IH]; cbn [dict_set map fst]; intros Hnd k' v'.
  - cbn [In]. split.
    + intros [H|[]]. injection H as <- <-. now left.
    + intros [[-> ->]|[_ []]]. now left.
  - inversion Hnd as [|? ? Hk0 Hd]; subst.
    destruct (String.eqb k0 k) eqn:E.
    + apply String.eqb_eq in E. subst k0. cbn [In]. split.
      * intros [H|H]; [injection H as <- <-; now left|].
        right. split; [|now right]. intros ->. apply Hk0.
        now apply (in_map fst) in H.
      * intros [[-> ->]|[Hne [H|H]]]; [now left| |now right].
        injection H as <- _. congruence.
    + apply String.eqb_neq in E. cbn [In]. rewrite (IH Hd). split.
      * intros [H|[[-> ->]|[Hne H]]]; [|now left|right; auto].
        injection H as <- <-. right. auto.
      * intros [[-> ->]|[Hne [H|H]]]; auto.
Qed.

Section Build.
Context {C V : Type}.
Variable g : C -> V.

(** the loop that fills a [dict] from the blocks found in a file *)
Let build (blocks : list (string * C)) (acc : list (string * V)) :=
  fold_left (fun acc (blk : string * C) =>
               let '(k, c) := blk in dict_set acc k (g c))
            blocks acc.

Lemma build_keys (blocks : list (string * C)) :
  forall acc,
    map fst (build blocks acc) = set_update (map fst acc) (map fst blocks).
Proof.
  unfold build, set_update.
  induction blocks as [|[k c] blocks IH]; intro acc; cbn [fold_left map fst];
    [reflexivity|].
  now rewrite IH, dict_set_keys.
Qed.

Lemma build_In (blocks : list (string * C)) :
  forall acc, NoDup (map fst acc) ->
    forall k v,
      In (k, v) (build blocks acc) <->
      (exists c, Facts.last_block blocks k c /\ v = g c) \/
      (~ In k (map fst blocks) /\ In (k, v) acc).
Proof.
  unfold build, Facts.last_block.
  induction blocks as [|[k0 c0] blocks IH]; intros acc Hnd k v;
    cbn [fold_left map fst].
  - split.
    + intro H. right. split; [intros []|exact H].
    + intros [[c [[l1 [l2 [E _]]] _]]|[_ H]]; [|exact H].
      now destruct l1.
  - rewrite IH by (rewrite dict_set_keys; now apply set_add_NoDup).
    rewrite (dict_set_In acc k0 (g c0) Hnd). split.
    + intros [[c [[l1 [l2 [E Hn]]] ->]]|[Hn [[-> ->]|[Hne H]]]].
      * left. exists c. split; [|reflexivity].
        exists ((k0, c0) :: l1), l2. split; [now rewrite E | exact Hn].
      * left. exists c0. split; [|reflexivity].
        exists [], blocks. auto.
      * right. split; [|exact H]. cbn [In]. intros [H1|H1]; auto.
    + intros [[c [[l1 [l2 [E Hn]]] ->]]|[Hn H]].
      * destruct l1 as [|b l1]; cbn [app] in E.
        -- injection E as -> -> ->. right. auto.
        -- injection E as <- ->. left. exists c. split; [|reflexivity].
           now exists l1, l2.
      * right. split; [intro H1; apply Hn; now right|].
        right. split; [intros ->; apply Hn; now left | exact H].
Qed.
End Build.

(** An output that outputs.tf declares more than once is kept once: the
    names verified are the names of the blocks in the order of their
    first occurrence, no name twice, and the description, value and
    sensitivity of a name are those of its last block. *)
Theorem load_outputs_last_block_wins
        (d : FS.dir) (st : state) (content : string)
        (Hex : FS.exists_ d "outputs.tf" = true)
        (Hread : FS.read d "outputs.tf" = Some content) :
  exists outs,
    load_outputs d st = Some (outs, st) /\
    map fst outs = set_update [] (map fst (findall2 output_pattern content)) /\
    NoDup (map fst outs) /\
    forall name oi,
      In (name, oi) outs <->
      exists c, Facts.last_block (findall2 output_pattern content) name c /\
                oi = Facts.output_info_of c.
Proof.
  unfold load_outputs. rewrite Hex, Hread. cbn [negb Exc.bind].
  eexists. split; [reflexivity|].
  pose proof (build_keys Facts.output_info_of
                         (findall2 output_pattern content) []) as Hk.
  pose proof (build_In Facts.output_info_of
                       (findall2 output_pattern content) []
                       (NoDup_nil _)) as Hin.
  cbv zeta in Hk, Hin. unfold Facts.output_info_of in Hk, Hin at 1.
  split; [exact Hk|]. split.
  - rewrite Hk. apply set_update_NoDup. constructor.
  - intros name oi. rewrite Hin. split.
    + intros [H|[_ []]]. exact H.
    + intro H. now left.
Qed.

Lemma load_outputs_last_block_wins_witness :
  exists outs,
    load_outputs Examples.module_twice init = Some (outs, init) /\
    map fst outs
    = set_update [] (map fst (findall2 output_pattern
                                       Examples.outputs_tf_twice)) /\
    NoDup (map fst outs) /\
    forall name oi,
      In (name, oi) outs <->
      exists c,
        Facts.last_block (findall2 output_pattern Examples.outputs_tf_twice)
                         name c /\
        oi = Facts.output_info_of c.
Proof.
  apply (load_outputs_last_block_wins
           Examples.module_twice init Examples.outputs_tf_twice);
    reflexivity.
Defined.

End DictFacts.


(** ** The output blocks of a run *)

Module OutputVerifierBlocks.
Import PyStr Re OutputVerifier OutputVerifierProofs.

(** the outputs that a run verifies: one for each name, from the last
    block of the name *)
Lemma outputs_of_read (d : FS.dir) (content : string) :
  FS.read d "outputs.tf" = Some content ->
  exists outs,
    Facts.outputs_of d = Some outs /\
    NoDup (map fst outs) /\
    forall name oi,
      In (name, oi) outs <->
      exists c, Facts.last_block (findall2 output_pattern content) name c /\
                oi = Facts.output_info_of c.
Proof.
  intro Hread. unfold Facts.outputs_of, load_outputs.
  rewrite (read_exists d _ _ Hread), Hread. cbn [negb Exc.bind option_map fst].
  eexists. split; [reflexivity|].
  pose proof (DictFacts.build_keys Facts.output_info_of
                (findall2 output_pattern content) []) as Hk.
  pose proof (DictFacts.build_In Facts.output_info_of
                (findall2 output_pattern content) []
                (NoDup_nil _)) as Hin.
  cbv zeta in Hk, Hin. unfold Facts.output_info_of in Hk, Hin at 1.
  split.
  - rewrite Hk. apply DictFacts.set_update_NoDup. constructor.
  - intros name oi. rewrite Hin. split.
    + intros [H|[_ []]]. exact H.
    + intro H. now left.
Qed.

(** C2, as stated, fails.  In the sample module the output [token] is
    declared twice.  The captured content of the first block holds no
    value key at all -- no line of it matches [value\s*=], and nothing in
    it does --, yet the run records no error for the output: the second
    block, which has a value, takes the place of the first, and only it
    is verified. *)
Lemma shadowed_block_no_error :
  findall2 output_pattern Examples.outputs_tf_shadowed
  = [ ("token", Examples.token_content);
      ("token", Examples.line EmptyString
                  ++ Examples.line "  value = var.token")%string ] /\
  Spec.no_line_matches Spec.value_key_pattern Examples.token_content = true /\
  search Spec.value_key_pattern Examples.token_content = None /\
  option_map (fun st => (errors st, info st))
             (verify_output_references Examples.in_order
                                       Examples.module_shadowed init)
  = Some ([], ["✓ Output 'token' has value"]).
Proof.
  vm_compute. repeat split; reflexivity.
Qed.

(** C2, amended.  A run verifies each output name once, from the last
    parsed block of the name, and its errors and info findings are those
    of the outputs, one output after the other.  When the captured
    content of the last block of an output holds no text that matches
    [value\s*=] -- the blanks between the key and the equals sign may
    hold line breaks, so the content is searched as a whole --, the
    findings of that output are exactly one error, the missing-value
    error, and no finding about a reference. *)
Theorem no_value_key_one_error
        (iter_set : list string -> list string) (d : FS.dir) (st : state)
        (rs ds : list (string * string))
        (content output_name c : string)
        (Hres : Facts.resources_of d = Some (rs, ds))
        (Hread : FS.read d "outputs.tf" = Some content)
        (Hlast : Facts.last_block (findall2 output_pattern content)
                                  output_name c)
        (Hkey : search Spec.value_key_pattern c = None) :
  exists outs st',
    verify_output_references iter_set d st = Some st' /\
    errors st'
    = errors st
      ++ flat_map (Spec.output_errors iter_set (available rs ds)) outs /\
    info st'
    = info st
      ++ flat_map (Spec.output_findings iter_set (available rs ds)) outs /\
    NoDup (map fst outs) /\
    (forall name oi,
        In (name, oi) outs <->
        exists c', Facts.last_block (findall2 output_pattern content) name c'
                   /\ oi = Facts.output_info_of c') /\
    In (output_name, Facts.output_info_of c) outs /\
    Spec.output_errors iter_set (available rs ds)
                       (output_name, Facts.output_info_of c)
    = [Spec.msg_missing_value output_name] /\
    (forall ref, Spec.msg_missing_value output_name
                 <> msg_invalid_ref output_name ref) /\
    (forall ref,
        ~ In (msg_valid_ref output_name ref)
             (Spec.output_findings iter_set (available rs ds)
                                   (output_name, Facts.output_info_of c))).
Proof.
  destruct (outputs_of_read d content Hread) as [outs [Houts [Hnd Hin]]].
  destruct (OutputVerifierRun.verify_output_references_findings
              iter_set d rs ds outs Hres Houts st)
    as [st' [E [He [_ Hi]]]].
  exists outs, st'. split; [exact E|]. split; [exact He|].
  split; [exact Hi|]. split; [exact Hnd|]. split; [exact Hin|].
  split; [apply Hin; now exists c|].
  destruct (verify_output_no_value_key iter_set (available rs ds)
                                       output_name c Hkey) as [H1 H2].
  split; [exact H1|]. split; [apply msg_missing_value_not_ref | exact H2].
Qed.

(** an output that only says it is sensitive *)
Lemma no_value_key_one_error_witness :
  exists st',
    verify_output_references Examples.in_order Examples.module_token init
    = Some st' /\
    errors st' = [Spec.msg_missing_value "token"].
Proof.
  destruct (no_value_key_one_error
              Examples.in_order Examples.module_token init
              [("aws_instance", "web")] [] Examples.outputs_tf_token
              "token" Examples.token_content)
    as [outs [st' [E [He [_ [Hnd [Hall [Hin [Herr _]]]]]]]]].
  - vm_compute. reflexivity.
  - reflexivity.
  - exists [], []. split; [vm_compute; reflexivity | intros []].
  - vm_compute. reflexivity.
  - exists st'. split; [exact E|].
    assert (Eo : outs = [("token",
                          Facts.output_info_of Examples.token_content)]).
    { destruct outs as [|[n oi] outs].
      - destruct Hin.
      - assert (Hn : forall n' oi', In (n', oi') ((n, oi) :: outs) ->
                       n' = "token" /\
                       oi' = Facts.output_info_of Examples.token_content).
        { intros n' oi' H. apply Hall in H as [c' [[l1 [l2 [Eb _]]] ->]].
          assert (Ef : findall2 output_pattern Examples.outputs_tf_token
                       = [("token", Examples.token_content)])
            by (vm_compute; reflexivity).
          rewrite Ef in Eb.
          destruct l1 as [|x l1]; cbn [app] in Eb.
          - now injection Eb as <- <- _.
          - injection Eb as _ Eb. now destruct l1. }
        destruct (Hn n oi (or_introl eq_refl)) as [-> ->].
        destruct outs as [|[n2 oi2] outs]; [reflexivity|].
        destruct (Hn n2 oi2 (or_intror (or_introl eq_refl))) as [-> _].
        exfalso. cbn [map fst] in Hnd. inversion Hnd as [|? ? Hx _].
        apply Hx. now left. }
    rewrite He, Eo. cbn [flat_map errors init app]. rewrite Herr.
    reflexivity.
Defined.

End OutputVerifierBlocks.

(** ** Common outputs and prefixes *)

Module OutputVerifierTables.
Import PyStr OutputVerifier OutputVerifierProofs.

Lemma first_common_reported (output_name description : string) :
  first_common common_outputs output_name = Some description ->
  In description Facts.reported_descriptions /\
  (contains "id" (lower output_name) = true ->
   description = "Resource identifier").
Proof.
  intro H. unfold common_outputs in H. cbn [first_common] in H.
  destruct (contains "id" (lower output_name)) eqn:Eid.
  - injection H as <-. split; [now left | reflexivity].
  - split; [|discriminate].
    destruct (contains "arn" (lower output_name));
      [injection H as <-; cbn; tauto|].
    destruct (contains "name" (lower output_name));
      [injection H as <-; cbn; tauto|].
    destruct (contains "vpc_id" (lower output_name)) eqn:E1.
    { apply (contains_sub "vpc_" "id" EmptyString) in E1. congruence. }
    destruct (contains "subnet_id" (lower output_name)) eqn:E2.
    { apply (contains_sub "subnet_" "id" EmptyString) in E2. congruence. }
    destruct (contains "security_group_id" (lower output_name)) eqn:E3.
    { apply (contains_sub "security_group_" "id" EmptyString) in E3.
      congruence. }
    destruct (contains "instance_id" (lower output_name)) eqn:E4.
    { apply (contains_sub "instance_" "id" EmptyString) in E4. congruence. }
    destruct (contains "private_ip" (lower output_name));
      [injection H as <-; cbn; tauto|].
    destruct (contains "public_ip" (lower output_name));
      [injection H as <-; cbn; tauto|].
    discriminate.
Qed.

Lemma find_common_In (outs : list (string * output_info)) :
  forall acc name description,
    In (name, description)
       (fold_left
          (fun found_common (o : string * output_info) =>
             match first_common common_outputs (fst o) with
             | Some description => found_common ++ [(fst o, description)]
             | None => found_common
             end)
          outs acc) <->
    In (name, description) acc \/
    (In name (map fst outs) /\
     first_common common_outputs name = Some description).
Proof.
  induction outs as [|o outs IH]; intros acc name description;
    cbn [fold_left map In].
  - tauto.
  - rewrite IH. destruct (first_common common_outputs (fst o)) eqn:E.
    + rewrite in_app_iff. cbn [In]. split.
      * intros [[H|[H|[]]]|[H1 H2]]; [tauto| |tauto].
        injection H as <- <-. tauto.
      * intros [H|[[H1|H1] H2]]; [tauto| |tauto].
        subst name. left. right. left. congruence.
    + split; [tauto|]. intros [H|[[H1|H1] H2]]; [tauto| |tauto].
      subst name. congruence.
Qed.

Lemma find_common_flat_map (outs : list (string * output_info)) :
  forall acc,
    fold_left
      (fun found_common (o : string * output_info) =>
         match first_common common_outputs (fst o) with
         | Some description => found_common ++ [(fst o, description)]
         | None => found_common
         end)
      outs acc
    = acc ++ flat_map
               (fun o : string * output_info =>
                  match first_common common_outputs (fst o) with
                  | Some description => [(fst o, description)]
                  | None => []
                  end)
               outs.
Proof.
  induction outs as [|o outs IH]; intro acc; cbn [fold_left flat_map].
  - now rewrite app_nil_r.
  - rewrite IH. destruct (first_common common_outputs (fst o));
      [now rewrite <- app_assoc | reflexivity].
Qed.

(** The verifier lists the outputs of the module in whose lower-cased
    name a common name is found, in the order of the module and each
    with one description, that of the first entry of the table found in
    the name.  The table is read from the top, so an output whose name
    holds [id] is always listed, and as a resource identifier: the
    entries [vpc_id], [subnet_id], [security_group_id] and [instance_id]
    of the table are never listed. *)
Theorem common_output_first_entry_wins
        (outs : list (string * output_info)) :
  find_common outs
  = flat_map (fun o : string * output_info =>
                match first_common common_outputs (fst o) with
                | Some description => [(fst o, description)]
                | None => []
                end)
             outs /\
  (forall output_name,
      In output_name (map fst outs) ->
      contains "id" (lower output_name) = true ->
      In (output_name, "Resource identifier") (find_common outs)) /\
  (forall output_name description,
      In (output_name, description) (find_common outs) ->
      In output_name (map fst outs) /\
      In description Facts.reported_descriptions /\
      (contains "id" (lower output_name) = true ->
       description = "Resource identifier")).
Proof.
  split; [|split].
  - unfold find_common. now rewrite find_common_flat_map.
  - intros output_name Hin Hid. unfold find_common.
    apply find_common_In. right. split; [exact Hin|].
    unfold common_outputs. cbn [first_common]. now rewrite Hid.
  - intros output_name description H.
    unfold find_common in H. apply find_common_In in H as [[]|[H1 H2]].
    split; [exact H1|]. now apply first_common_reported.
Qed.

(** *** Outputs grouped by prefix *)

Lemma under_iff (prefix output_name : string) :
  Facts.under prefix output_name = true <->
  exists rest, output_name = (prefix ++ "_" ++ rest)%string /\
               count_char "_" prefix = 0.
Proof.
  unfold Facts.under, Facts.prefix_of. split.
  - destruct (split "_" output_name) as [|a [|b l]] eqn:E;
      [discriminate..|].
    intro H. apply String.eqb_eq in H. subst a.
    apply split_cons_inv in E as [Hc [[H _]|[rest [-> _]]]]; [discriminate|].
    now exists rest.
  - intros [rest [-> Hc]].
    change (prefix ++ "_" ++ rest)%string
      with (prefix ++ String "_" rest)%string.
    rewrite (split_app "_" prefix rest Hc).
    destruct (split "_" rest) as [|b l] eqn:E.
    + now apply split_not_nil in E.
    + apply String.eqb_refl.
Qed.

Lemma dict_append_keys (d : list (string * list string)) (p n : string) :
  map fst (dict_append d p n) = set_add (map fst d) p.
Proof.
  unfold set_add, set_mem.
  induction d as [|[k l] d IH]; cbn [dict_append map fst existsb];
    [reflexivity|].
  rewrite (String.eqb_sym p k).
  destruct (String.eqb k p) eqn:E; cbn [map fst orb]; [reflexivity|].
  rewrite IH. now destruct (existsb (String.eqb p) (map fst d)).
Qed.

Lemma dict_append_In (d : list (string * list string)) (p n : string) :
  NoDup (map fst d) ->
  forall p' g,
    In (p', g) (dict_append d p n) <->
    (p' = p /\ ((exists g0, In (p, g0) d /\ g = g0 ++ [n]) \/
                (~ In p (map fst d) /\ g = [n]))) \/
    (p' <> p /\ In (p', g) d).
Proof.
  induction d as [|[k l] d IH]; cbn [dict_append map fst]; intros Hnd p' g.
  - cbn [In]. split.
    + intros [H|[]]. injection H as <- <-. left. split; [reflexivity|].
      right. split; [intros []|reflexivity].
    + intros [[-> [[g0 [[] _]]|[_ ->]]]|[_ []]]. now left.
  - inversion Hnd as [|? ? Hk Hd]; subst.
    destruct (String.eqb k p) eqn:E.
    + apply String.eqb_eq in E. subst k. cbn [In]. split.
      * intros [H|H].
        -- injection H as <- <-. left. split; [reflexivity|].
           left. exists l. split; [now left | reflexivity].
        -- right. split; [|now right]. intros ->. apply Hk.
           now apply (in_map fst) in H.
      * intros [[-> [[g0 [[H|H] ->]]|[Hn _]]]|[Hne [H|H]]].
        -- injection H as <-. now left.
        -- exfalso. apply Hk. now apply (in_map fst) in H.
        -- exfalso. apply Hn. now left.
        -- injection H as <- _. congruence.
        -- now right.
    + apply String.eqb_neq in E. cbn [In]. rewrite (IH Hd). split.
      * intros [H|[[-> [[g0 [H ->]]|[Hn ->]]]|[Hne H]]].
        -- injection H as <- <-. right. auto.
        -- left. split; [reflexivity|]. left. exists g0. auto.
        -- left. split; [reflexivity|]. right. split; [|reflexivity].
           intros [H|H]; auto.
        -- right. auto.
      * intros [[-> [[g0 [[H|H] ->]]|[Hn ->]]]|[Hne [H|H]]].
        -- injection H as H _. congruence.
        -- right. left. split; [reflexivity|]. left. now exists g0.
        -- right. left. split; [reflexivity|]. right.
           split; [|reflexivity]. intro H. apply Hn. now right.
        -- now left.
        -- right. right. auto.
Qed.

Lemma filter_snoc {A : Type} (f : A -> bool) (l : list A) (x : A) :
  filter f (l ++ [x]) = filter f l ++ (if f x then [x] else []).
Proof. rewrite filter_app. reflexivity. Qed.

(** the groups, while the names [seen] have been gone through *)
Lemma group_prefixes_loop (names : list string) :
  forall seen acc,
    NoDup (map fst acc) ->
    (forall p g, In (p, g) acc <->
                 g = filter (Facts.under p) seen /\ g <> []) ->
    let r :=
      fold_left
        (fun prefixes output_name =>
           match split "_" output_name with
           | prefix :: _ :: _ => dict_append prefixes prefix output_name
           | _ => prefixes
           end)
        names acc in
    NoDup (map fst r) /\
    (forall p g, In (p, g) r <->
                 g = filter (Facts.under p) (seen ++ names) /\ g <> []).
Proof.
  induction names as [|n names IH]; intros seen acc Hnd Hin; cbn zeta;
    cbn [fold_left].
  - rewrite app_nil_r. auto.
  - replace (seen ++ n :: names) with ((seen ++ [n]) ++ names)
      by (now rewrite <- app_assoc).
    apply IH.
    + destruct (split "_" n) as [|a [|b l]]; [exact Hnd..|].
      rewrite dict_append_keys. now apply DictFacts.set_add_NoDup.
    + intros p g. rewrite filter_snoc. unfold Facts.under at 2.
      unfold Facts.prefix_of.
      destruct (split "_" n) as [|q [|b l]].
      * rewrite app_nil_r. apply Hin.
      * rewrite app_nil_r. apply Hin.
      * rewrite (dict_append_In acc q n Hnd).
        destruct (String.eqb q p) eqn:E.
        -- apply String.eqb_eq in E. subst q. split.
           ++ intros [[_ [[g0 [H ->]]|[Hn ->]]]|[Hne _]]; [| |congruence].
              ** apply Hin in H as [<- _]. split; [reflexivity|].
                 now destruct g0.
              ** destruct (filter (Facts.under p) seen) as [|x xs] eqn:Ef;
                   [split; [reflexivity|discriminate]|].
                 exfalso. apply Hn.
                 assert (H : In (p, x :: xs) acc)
                   by (apply Hin; split; [now rewrite Ef | discriminate]).
                 now apply (in_map fst) in H.
           ++ intros [-> _]. left. split; [reflexivity|].
              destruct (filter (Facts.under p) seen) as [|x xs] eqn:Ef.
              ** right. split; [|reflexivity]. intro H.
                 apply in_map_iff in H as [[p' g0] [Ep H]]. cbn in Ep.
                 subst p'. apply Hin in H as [H1 H2]. congruence.
              ** left. exists (x :: xs). split; [|reflexivity].
                 apply Hin. split; [now rewrite Ef | discriminate].
        -- apply String.eqb_neq in E. rewrite app_nil_r. split.
           ++ intros [[-> _]|[_ H]]; [congruence | now apply Hin].
           ++ intro H. right. split; [congruence | now apply Hin].
Qed.

(** The outputs are filed by the text before their first underscore: a
    prefix has a group exactly when some output has it, the group holds
    the outputs of that prefix in the order of the module, and an output
    without an underscore is in no group. *)
Theorem group_prefixes_by_first_underscore (names : list string) :
  NoDup (map fst (group_prefixes names)) /\
  (forall prefix group,
      In (prefix, group) (group_prefixes names) <->
      group = filter (Facts.under prefix) names /\ group <> []) /\
  (forall prefix output_name,
      Facts.under prefix output_name = true <->
      exists rest, output_name = (prefix ++ "_" ++ rest)%string /\
                   count_char "_" prefix = 0).
Proof.
  destruct (group_prefixes_loop names [] [] (NoDup_nil _)) as [H1 H2].
  { intros p g. cbn. split; [intros [] | intros [-> H]; congruence]. }
  split; [exact H1|]. split; [exact H2|]. apply under_iff.
Qed.

(** *** The references that the module declares *)

Lemma fold_set_add_NoDup {A : Type} (f : A -> string) (xs : list A) :
  forall l, NoDup l ->
            NoDup (fold_left (fun refs r => set_add refs (f r)) xs l).
Proof.
  induction xs as [|x xs IH]; intros l H; cbn [fold_left]; [exact H|].
  apply IH. now apply DictFacts.set_add_NoDup.
Qed.

(** The references against which the outputs are checked are those of
    the resources, [type.name], and of the data sources,
    [data.type.name], that were found in main.tf, each kept once however
    many times it is declared: the number shown with the list counts the
    distinct references. *)
Theorem available_refs_are_declared
        (resources data_sources : list (string * string)) :
  NoDup (available resources data_sources) /\
  forall ref,
    In ref (available resources data_sources) <->
    (exists r, In r resources /\ ref = (fst r ++ "." ++ snd r)%string) \/
    (exists r, In r data_sources /\
               ref = ("data." ++ fst r ++ "." ++ snd r)%string).
Proof.
  split.
  - unfold available. apply fold_set_add_NoDup. apply fold_set_add_NoDup.
    constructor.
  - intro ref. rewrite available_In. split.
    + intros [[r [H <-]]|[r [H <-]]]; eauto.
    + intros [[r [H ->]]|[r [H ->]]]; eauto.
Qed.

End OutputVerifierTables.


(** ** The tests of the variable tester *)

Module VariableTesterRun.
Import PyStr Re VariableTester.

Lemma inner_loop (var_name : string) (vi : var_info)
      (cases : list (pyval * bool * string)) :
  forall acc : nat * nat,
    snd acc <= fst acc ->
    let r :=
      fold_left
        (fun (acc : nat * nat) (tc : pyval * bool * string) =>
           let '(total_tests, passed_tests) := acc in
           let '(test_value, expected_valid, _) := tc in
           let result := simulate_validation var_name test_value vi in
           if Bool.eqb result expected_valid
           then (S total_tests, S passed_tests)
           else (S total_tests, passed_tests))
        cases acc in
    snd r <= fst r /\
    (snd r = fst r <->
     snd acc = fst acc /\
     forall tc, In tc cases -> Facts.agrees var_name vi tc = true).
Proof.
  induction cases as [|[[v e] descr] cases IH]; intros [t p] Hle; cbn zeta;
    cbn [fold_left].
  - split; [exact Hle|]. split; [intro H; split; [exact H | intros ? []]|].
    now intros [H _].
  - cbn [fst snd] in Hle.
    destruct (Bool.eqb (simulate_validation var_name v vi) e) eqn:E.
    + destruct (IH (S t, S p)) as [H1 H2]; [cbn; lia|].
      cbn zeta in H1, H2. split; [exact H1|]. rewrite H2. cbn [fst snd].
      split.
      * intros [Hp H]. split; [lia|]. intros tc [<-|Hin]; [exact E | auto].
      * intros [Hp H]. split; [lia|]. intros tc Hin. apply H. now right.
    + destruct (IH (S t, p)) as [H1 H2]; [cbn; lia|].
      cbn zeta in H1, H2. split; [exact H1|]. rewrite H2. cbn [fst snd].
      split.
      * intros [Hp _]. lia.
      * intros [_ H]. specialize (H (v, e, descr) (or_introl eq_refl)).
        cbn in H. congruence.
Qed.

Lemma run_tests_loop (validations : list (string * var_info)) :
  forall acc : nat * nat,
    snd acc <= fst acc ->
    let r :=
      fold_left
        (fun (acc : nat * nat) (v : string * var_info) =>
           let '(var_name, vi) := v in
           fold_left
             (fun (acc : nat * nat) (tc : pyval * bool * string) =>
                let '(total_tests, passed_tests) := acc in
                let '(test_value, expected_valid, _) := tc in
                let result := simulate_validation var_name test_value vi in
                if Bool.eqb result expected_valid
                then (S total_tests, S passed_tests)
                else (S total_tests, passed_tests))
             (generate_test_cases var_name vi) acc)
        validations acc in
    snd r <= fst r /\
    (snd r = fst r <->
     snd acc = fst acc /\
     forall var_name vi tc,
       In (var_name, vi) validations ->
       In tc (generate_test_cases var_name vi) ->
       Facts.agrees var_name vi tc = true).
Proof.
  induction validations as [|[name vi] validations IH]; intros acc Hle;
    cbn zeta; cbn [fold_left].
  - split; [exact Hle|]. split; [intro H; split; [exact H|]|now intros [H _]].
    intros ? ? ? [].
  - destruct (inner_loop name vi (generate_test_cases name vi) acc Hle)
      as [H1 H2]. cbn zeta in H1, H2.
    destruct (IH _ H1) as [H3 H4]. cbn zeta in H3, H4.
    split; [exact H3|]. rewrite H4, H2. split.
    + intros [[Hacc Hn] Hrest]. split; [exact Hacc|].
      intros name' vi' tc [E|Hin] Htc; [|eauto].
      injection E as <- <-. auto.
    + intros [Hacc H]. split; [split; [exact Hacc|]|].
      * intros tc Htc. apply (H name vi tc); [now left | exact Htc].
      * intros name' vi' tc Hin Htc. apply (H name' vi' tc); [now right|].
        exact Htc.
Qed.

(** the result of the tests, once the variables are loaded *)
Lemma test_variable_combinations_result
      (d : FS.dir) (validations : list (string * var_info)) :
  load_variable_validations d = Some validations ->
  exists success,
    test_variable_combinations d = Some success /\
    (success = true <->
     validations <> [] /\
     forall var_name vi tc,
       In (var_name, vi) validations ->
       In tc (generate_test_cases var_name vi) ->
       Facts.agrees var_name vi tc = true).
Proof.
  intro H. unfold test_variable_combinations. rewrite H. cbn [Exc.bind].
  destruct validations as [|v validations].
  - exists false. split; [reflexivity|]. split; [discriminate|].
    now intros [H1 _].
  - destruct (run_tests_loop (v :: validations) (0, 0) (le_n 0)) as [_ H2].
    cbn zeta in H2. unfold run_tests.
    destruct (fold_left _ (v :: validations) (0, 0)) as [t p] eqn:E.
    cbn [fst snd] in H2. exists (p =? t)%nat. split; [reflexivity|].
    rewrite Nat.eqb_eq, H2. split.
    + intros [_ Hall]. split; [discriminate | exact Hall].
    + intros [_ Hall]. split; [reflexivity | exact Hall].
Qed.

(** the number of tests run *)
Lemma inner_total (var_name : string) (vi : var_info)
      (cases : list (pyval * bool * string)) :
  forall acc : nat * nat,
    fst (fold_left
           (fun (acc : nat * nat) (tc : pyval * bool * string) =>
              let '(total_tests, passed_tests) := acc in
              let '(test_value, expected_valid, _) := tc in
              let result := simulate_validation var_name test_value vi in
              if Bool.eqb result expected_valid
              then (S total_tests, S passed_tests)
              else (S total_tests, passed_tests))
           cases acc)
    = fst acc + List.length cases.
Proof.
  induction cases as [|[[v e] descr] cases IH]; intros [t p];
    cbn [fold_left List.length fst]; [lia|].
  destruct (Bool.eqb _ e); rewrite IH; cbn [fst]; lia.
Qed.

Lemma run_tests_total (validations : list (string * var_info)) :
  forall acc : nat * nat,
    fst (fold_left
           (fun (acc : nat * nat) (v : string * var_info) =>
              let '(var_name, vi) := v in
              fold_left
                (fun (acc : nat * nat) (tc : pyval * bool * string) =>
                   let '(total_tests, passed_tests) := acc in
                   let '(test_value, expected_valid, _) := tc in
                   let result := simulate_validation var_name test_value vi in
                   if Bool.eqb result expected_valid
                   then (S total_tests, S passed_tests)
                   else (S total_tests, passed_tests))
                (generate_test_cases var_name vi) acc)
           validations acc)
    = fst acc
      + List.length
          (flat_map (fun v : string * var_info =>
                       generate_test_cases (fst v) (snd v))
                    validations).
Proof.
  induction validations as [|[name vi] validations IH]; intro acc;
    cbn [fold_left flat_map List.length fst snd]; [lia|].
  rewrite IH, inner_total, length_app. lia.
Qed.

(** The tester runs every test case of every variable, and counts no
    more passes than tests.  It reports success exactly when some
    variable is declared and the simulator gives every test case of
    every variable the result that its table expects. *)
Theorem tests_pass_iff_all_agree
        (d : FS.dir) (validations : list (string * var_info))
        (Hload : load_variable_validations d = Some validations) :
  fst (run_tests validations)
  = List.length (flat_map (fun v : string * var_info =>
                             generate_test_cases (fst v) (snd v))
                          validations) /\
  snd (run_tests validations) <= fst (run_tests validations) /\
  exists success,
    test_variable_combinations d = Some success /\
    (success = true <->
     validations <> [] /\
     forall var_name vi tc,
       In (var_name, vi) validations ->
       In tc (generate_test_cases var_name vi) ->
       Facts.agrees var_name vi tc = true).
Proof.
  split; [|split].
  - unfold run_tests. now rewrite run_tests_total.
  - unfold run_tests.
    now destruct (run_tests_loop validations (0, 0) (le_n 0)) as [H _].
  - now apply test_variable_combinations_result.
Qed.

Lemma tests_pass_iff_all_agree_witness :
  test_variable_combinations (Examples.module_var "aws_region") = Some true /\
  fst (run_tests [("aws_region", VarInfo (Some "string") None [])]) = 4.
Proof.
  destruct (tests_pass_iff_all_agree
              (Examples.module_var "aws_region")
              [("aws_region", VarInfo (Some "string") None [])])
    as [Ht [_ [success [H Hiff]]]].
  - vm_compute. reflexivity.
  - split; [|rewrite Ht; reflexivity].
    rewrite H. f_equal. apply Hiff. split; [discriminate|].
    intros var_name vi tc [E|[]] Htc. injection E as <- <-.
    vm_compute in Htc.
    repeat (destruct Htc as [<-|Htc]; [vm_compute; reflexivity|]).
    destruct Htc.
Defined.

(** a variable of these kinds has a test case that the simulator fails *)
Lemma unpassable_has_failure (var_name : string) (vi : var_info) :
  Facts.unpassable var_name vi = true ->
  existsb (fun tc => negb (Facts.agrees var_name vi tc))
          (generate_test_cases var_name vi) = true.
Proof.
  unfold Facts.unpassable, generate_test_cases, Facts.agrees,
    simulate_validation.
  cbv zeta.
  destruct (contains "region" (lower var_name)); [discriminate|].
  destruct (contains "cidr" (lower var_name)); [discriminate|].
  cbn [negb andb].
  destruct (contains "bool" (OutputVerifier.opt_str (type vi)));
    destruct (contains "list" (OutputVerifier.opt_str (type vi)));
    destruct (contains "instance_type" (lower var_name));
    destruct (contains "ami" (lower var_name));
    destruct (contains "name" (lower var_name));
    destruct (contains "prefix" (lower var_name));
    cbn [negb andb orb]; try discriminate; try (intros _; reflexivity);
    destruct (contains "environment" (lower var_name));
    destruct (contains "env" (lower var_name));
    cbn [negb andb orb]; try discriminate; try (intros _; reflexivity);
    destruct (type_has "list" vi); destruct (type_has "bool" vi);
    cbn [negb andb orb]; try discriminate; intros _; reflexivity.
Qed.

(** A variable whose name holds [instance_type], or [env] outside the
    name category, or that falls in no category and is not declared a
    list or a boolean, has a test case that the simulator fails: a
    module that declares one never passes the tester. *)
Theorem unpassable_variable_fails
        (d : FS.dir) (validations : list (string * var_info))
        (var_name : string) (vi : var_info)
        (Hload : load_variable_validations d = Some validations)
        (Hin : In (var_name, vi) validations)
        (Hkind : Facts.unpassable var_name vi = true) :
  test_variable_combinations d = Some false /\
  exit_status (test_variable_combinations d) = 1%Z.
Proof.
  destruct (test_variable_combinations_result d validations Hload)
    as [success [E H]].
  rewrite E. destruct success; [|auto].
  exfalso. destruct (proj1 H eq_refl) as [_ Hall].
  apply unpassable_has_failure in Hkind.
  apply existsb_exists in Hkind as [tc [Htc Hneg]].
  rewrite (Hall var_name vi tc Hin Htc) in Hneg. discriminate.
Qed.

Lemma unpassable_variable_fails_witness :
  test_variable_combinations (Examples.module_var "instance_type")
  = Some false /\
  exit_status (test_variable_combinations
                 (Examples.module_var "instance_type")) = 1%Z.
Proof.
  apply (unpassable_variable_fails
           (Examples.module_var "instance_type")
           [("instance_type", VarInfo (Some "string") None [])]
           "instance_type" (VarInfo (Some "string") None [])).
  - vm_compute. reflexivity.
  - left. reflexivity.
  - vm_compute. reflexivity.
Defined.

End VariableTesterRun.


(** ** The blocks that the patterns capture *)

Module RegexBlocks.
Import PyStr Re.

Section Results.
Context {R : Type}.
Variable n0 : nat.

Lemma seq_result (a b : re) (s : string) (cs : caps) (k : @cont R) (x : R) :
  mt n0 (Seq a b) s cs k = Some x ->
  exists pre s' cs', s = (pre ++ s')%string /\ mt n0 b s' cs' k = Some x.
Proof. cbn [mt]. apply mt_result. Qed.

(** a pattern that requires a character matches no text without it *)
Lemma requires_char (c : ascii) (r : re) :
  Facts.requires c r = true ->
  forall s cs (k : @cont R) x,
    mt n0 r s cs k = Some x -> count_char c s <> 0.
Proof.
  induction r as [|y|p|a IHa b IHb|a IHa b IHb|a IHa|i a IHa| |];
    cbn [Facts.requires]; intro Hreq; try discriminate;
    intros s cs k x; cbn [mt].
  - destruct s as [|z s]; [discriminate|].
    destruct (Ascii.eqb z y) eqn:E; [|discriminate].
    apply Ascii.eqb_eq in E. subst z. intros _. cbn [count_char].
    rewrite Hreq. discriminate.
  - apply orb_true_iff in Hreq as [Ha|Hb].
    + apply (IHa Ha).
    + intro H. apply mt_result in H as [pre [s' [cs' [-> H]]]].
      apply (IHb Hb) in H. rewrite count_char_app. lia.
  - apply andb_true_iff in Hreq as [Ha Hb].
    destruct (mt n0 a s cs k) as [y|] eqn:E.
    + intro H. now apply (IHa Ha) in E.
    + apply (IHb Hb).
  - apply (IHa Hreq).
Qed.

(** the longest run of a class goes first *)
Lemma star_cls_first (p : ascii -> bool) (k : @cont R) (pre : string) :
  forall fuel rest cs x,
    String.length pre <= fuel ->
    forall_chars p pre = true ->
    (forall k' : @cont R, mt n0 (Cls p) rest cs k' = None) ->
    k rest cs = Some x ->
    star_loop (mt n0 (Cls p)) k fuel (pre ++ rest) cs = Some x.
Proof.
  induction pre as [|c pre IH]; intros fuel rest cs x Hf Hp Hnone Hk.
  - destruct fuel as [|fuel]; cbn [star_loop append]; [exact Hk|].
    now rewrite Hnone.
  - destruct fuel as [|fuel]; [simpl in Hf; lia|].
    cbn [forall_chars] in Hp. apply andb_true_iff in Hp as [Hc Hp].
    cbn [star_loop append]. rewrite mt_cls, Hc.
    replace (String.length (pre ++ rest)
             <? String.length (String c (pre ++ rest)))%nat with true
      by (symmetry; apply Nat.ltb_lt; simpl; lia).
    rewrite (IH fuel rest cs x); [reflexivity| |exact Hp|exact Hnone|exact Hk].
    simpl in Hf. lia.
Qed.
End Results.

Lemma upto_brace_some (s run r : string) :
  Facts.upto_brace s = Some (run, r) ->
  s = (run ++ String "}" r)%string /\
  forall_chars (fun x => negb (Ascii.eqb x "}")) run = true.
Proof.
  revert run r. induction s as [|c s IH]; intros run r; cbn [Facts.upto_brace];
    [discriminate|].
  destruct (Ascii.eqb c "}") eqn:E.
  - apply Ascii.eqb_eq in E. subst c. intro H. injection H as <- <-. auto.
  - destruct (Facts.upto_brace s) as [[run' r']|]; [|discriminate].
    intro H. injection H as <- <-. destruct (IH run' r' eq_refl) as [-> Hrun].
    cbn [append forall_chars]. now rewrite E, Hrun.
Qed.

Lemma upto_brace_none (s : string) :
  Facts.upto_brace s = None -> count_char "}" s = 0.
Proof.
  induction s as [|c s IH]; cbn [Facts.upto_brace count_char];
    [reflexivity|].
  destruct (Ascii.eqb c "}"); [discriminate|].
  destruct (Facts.upto_brace s) as [[run' r']|]; [discriminate|].
  intros _. now rewrite IH.
Qed.

Lemma no_brace_count (run : string) :
  forall_chars (fun x => negb (Ascii.eqb x "}")) run = true ->
  count_char "}" run = 0.
Proof.
  induction run as [|c run IH]; cbn [forall_chars count_char];
    [reflexivity|].
  intro H. apply andb_true_iff in H as [Hc H].
  destruct (Ascii.eqb c "}"); [discriminate|]. now rewrite IH.
Qed.

(** a continuation that needs a closing brace fails on a text without *)
Lemma no_brace_fails {R : Type} (n0 : nat) (r : re) (k : @cont R)
      (s : string) (cs : caps) :
  Facts.requires "}" r = true -> count_char "}" s = 0 ->
  mt n0 r s cs k = None.
Proof.
  intros Hreq Hc. destruct (mt n0 r s cs k) as [x|] eqn:E; [|reflexivity].
  now apply (requires_char n0 "}" r Hreq) in E.
Qed.

(** [[^}]+], what follows it, and the closing brace: when what follows
    can match the empty text and cannot start on a closing brace, the run
    goes to the first closing brace *)
Lemma run_then_brace (n0 : nat) (tail : re) (s0 s : string) (cs : caps) :
  (forall r cs' (k : @cont mobj),
      mt n0 tail (String "}" r) cs' k = k (String "}" r) cs') ->
  mt n0 (Seq (Grp 2 (Seq (Plus (Not "}")) tail)) (Cat [Chr "}"])) s cs
     (fun s' cs' => Some (MObj s0 s' cs'))
  = Facts.block_result s0 s cs.
Proof.
  intro Htail. unfold Facts.block_result.
  destruct (Facts.upto_brace s) as [[run r]|] eqn:E.
  - apply upto_brace_some in E as [-> Hrun].
    destruct run as [|c run]; [reflexivity|].
    cbn [append forall_chars] in *. apply andb_true_iff in Hrun as [Hc Hrun].
    unfold Plus. cbn [mt Cat]. unfold Not. rewrite mt_cls, Hc.
    erewrite (star_cls_first n0 _ _ run); cycle 1.
    + rewrite length_append. lia.
    + exact Hrun.
    + intro k'. reflexivity.
    + rewrite Htail. cbn [mt].
      change (Ascii.eqb "}" "}") with true. cbv iota. reflexivity.
    + change (String c (run ++ String "}" r))
        with (String c run ++ String "}" r)%string.
      now rewrite consumed_app.
  - apply upto_brace_none in E.
    apply no_brace_fails; [|exact E].
    cbn [Facts.requires Cat]. apply orb_true_iff. right. reflexivity.
Qed.

(** The body of a block as the patterns for variables and outputs have
    it, and as the simpler pattern of the module validator has it: the
    nested blocks that the first allows for are never taken. *)
Lemma block_body_eval (n0 : nat) (s0 s : string) (cs : caps) :
  mt n0 (Seq (Grp 2 Facts.block_body) (Cat [Chr "}"])) s cs
     (fun s' cs' => Some (MObj s0 s' cs'))
  = Facts.block_result s0 s cs.
Proof.
  apply run_then_brace. intros r cs' k.
  cbn [mt Cat String.length star_loop].
  change (Ascii.eqb "}" "{") with false. cbv iota. reflexivity.
Qed.

Lemma simple_body_eval (n0 : nat) (s0 s : string) (cs : caps) :
  mt n0 (Seq (Grp 2 (Plus (Not "}"))) (Cat [Chr "}"])) s cs
     (fun s' cs' => Some (MObj s0 s' cs'))
  = Facts.block_result s0 s cs.
Proof.
  rewrite <- (run_then_brace n0 Eps s0 s cs) by reflexivity.
  unfold Plus. cbn [mt]. reflexivity.
Qed.

Lemma block_body_stops (n0 : nat) (s0 s : string) (cs : caps) (m : mobj) :
  mt n0 (Seq (Grp 2 Facts.block_body) (Cat [Chr "}"])) s cs
     (fun s' cs' => Some (MObj s0 s' cs')) = Some m ->
  s = (group 2 m ++ String "}" (m_rest m))%string /\
  count_char "}" (group 2 m) = 0 /\
  m_caps m = (2, group 2 m) :: cs /\
  group 2 m <> EmptyString.
Proof.
  rewrite block_body_eval. unfold Facts.block_result.
  destruct (Facts.upto_brace s) as [[[|c run] r]|] eqn:E; try discriminate.
  intro H. injection H as <-. apply upto_brace_some in E as [-> Hrun].
  unfold group. cbn [m_caps m_rest get_cap Nat.eqb].
  split; [reflexivity|]. split; [now apply no_brace_count|].
  split; [reflexivity | discriminate].
Qed.

(** *** The matches of a search *)

Lemma search_from_match (n0 : nat) (r : re) (s : string) (m : mobj) :
  search_from n0 r s = Some m ->
  exists pre, s = (pre ++ m_from m)%string /\
              match_at n0 r (m_from m) = Some m.
Proof.
  induction s as [|c s IH]; cbn [search_from].
  - destruct (match_at n0 r EmptyString) as [m'|] eqn:E; [|discriminate].
    intro H. injection H as <-.
    destruct (match_at_result _ _ _ _ E) as [Hf _]. rewrite Hf.
    now exists EmptyString.
  - destruct (match_at n0 r (String c s)) as [m'|] eqn:E.
    + intro H. injection H as <-.
      destruct (match_at_result _ _ _ _ E) as [Hf _]. rewrite Hf.
      now exists EmptyString.
    + intro H. apply IH in H as [pre [-> H]]. now exists (String c pre).
Qed.

Lemma findall_loop_match (n0 : nat) (r : re) (fuel : nat) :
  forall s m,
    In m (findall_loop fuel n0 r s) ->
    exists pre, s = (pre ++ m_from m)%string /\
                match_at n0 r (m_from m) = Some m.
Proof.
  induction fuel as [|fuel IH]; intros s m; cbn [findall_loop]; [intros []|].
  destruct (search_from n0 r s) as [m1|] eqn:E; [|intros []].
  apply search_from_match in E as [pre1 [-> E]].
  intros [<-|Hin]; [now exists pre1|].
  destruct (match_at_result _ _ _ _ E) as [_ [pre2 [Hs _]]].
  destruct (_ <? _)%nat.
  - apply IH in Hin as [pre [Hr Hm]]. rewrite Hs, Hr.
    exists (pre1 ++ pre2 ++ pre)%string.
    split; [now rewrite !append_assoc | exact Hm].
  - destruct (m_rest m1) as [|c s'] eqn:Er; [destruct Hin|].
    apply IH in Hin as [pre [Hr Hm]]. rewrite Hs, Hr.
    exists (pre1 ++ pre2 ++ String c pre)%string. split; [|exact Hm].
    rewrite !append_assoc. reflexivity.
Qed.

(** a pattern that requires a character finds nothing in a text
    without it *)
Lemma requires_finds_nothing (c : ascii) (r : re) (s : string) :
  Facts.requires c r = true -> count_char c s = 0 -> finditer r s = [].
Proof.
  intros Hreq Hc. apply finditer_none. unfold search.
  generalize (String.length s) as n0. intro n0.
  destruct (search_from n0 r s) as [m|] eqn:E; [|reflexivity].
  exfalso. apply search_from_match in E as [pre [Hs E]].
  unfold match_at in E. apply (requires_char n0 c r Hreq) in E.
  rewrite Hs, count_char_app in Hc. lia.
Qed.

(** the blocks that the two block patterns find *)
Lemma block_pattern_match (n0 : nat) (word : string) (s : string) (m : mobj) :
  match_at n0
           (Cat [Lit word; Plus ws; Chr dq; Grp 1 (Plus (Not dq)); Chr dq;
                 Star ws; Chr "{"; Grp 2 Facts.block_body; Chr "}"])
           s = Some m ->
  count_char "}" (group 2 m) = 0 /\
  contains (group 2 m ++ "}") s = true.
Proof.
  unfold match_at. cbn [Cat]. intro H.
  apply seq_result in H as [p1 [s1 [cs1 [-> H]]]].
  apply seq_result in H as [p2 [s2 [cs2 [-> H]]]].
  apply seq_result in H as [p3 [s3 [cs3 [-> H]]]].
  apply seq_result in H as [p4 [s4 [cs4 [-> H]]]].
  apply seq_result in H as [p5 [s5 [cs5 [-> H]]]].
  apply seq_result in H as [p6 [s6 [cs6 [-> H]]]].
  apply seq_result in H as [p7 [s7 [cs7 [-> H]]]].
  apply block_body_stops in H as [-> [Hc _]]. split; [exact Hc|].
  apply contains_iff.
  exists (p1 ++ p2 ++ p3 ++ p4 ++ p5 ++ p6 ++ p7)%string, (m_rest m).
  rewrite !append_assoc. reflexivity.
Qed.

Lemma block_pattern_findall (word content name c : string) :
  In (name, c)
     (findall2
        (Cat [Lit word; Plus ws; Chr dq; Grp 1 (Plus (Not dq)); Chr dq;
              Star ws; Chr "{"; Grp 2 Facts.block_body; Chr "}"])
        content) ->
  count_char "}" c = 0 /\ contains (c ++ "}") content = true.
Proof.
  unfold findall2, finditer. intro H.
  apply in_map_iff in H as [m [E H]]. injection E as _ <-.
  apply findall_loop_match in H as [pre [Hs H]].
  apply block_pattern_match in H as [Hc H]. split; [exact Hc|].
  apply contains_iff in H as [pre' [post H]].
  apply contains_iff. exists (pre ++ pre')%string, post.
  rewrite Hs, H, !append_assoc. reflexivity.
Qed.


(** *** The parts of a block *)

Section Plain.
Context {R : Type}.
Variable n0 : nat.
Variable p : ascii -> bool.

Lemma star_loop_plain
      (body : string -> caps -> @cont R -> option R) (k : @cont R) :
  (forall s cs k' x,
      body s cs k' = Some x ->
      exists pre s', s = (pre ++ s')%string /\
                     forall_chars p pre = true /\ k' s' cs = Some x) ->
  forall fuel s cs x,
    star_loop body k fuel s cs = Some x ->
    exists pre s', s = (pre ++ s')%string /\
                   forall_chars p pre = true /\ k s' cs = Some x.
Proof.
  intros Hbody fuel.
  induction fuel as [|fuel IH]; intros s cs x; cbn [star_loop].
  - intro H. now exists EmptyString, s.
  - destruct (body s cs _) as [y|] eqn:E.
    + intro H. injection H as <-.
      apply Hbody in E as [pre [s' [-> [Hp E]]]].
      destruct (_ <? _)%nat; [|discriminate].
      apply IH in E as [pre' [s'' [-> [Hp' E]]]].
      exists (pre ++ pre')%string, s''.
      rewrite append_assoc, forall_chars_app, Hp, Hp'. auto.
    + intro H. now exists EmptyString, s.
Qed.

(** a pattern without a group hands the groups on as it found them *)
Lemma mt_plain (r : re) :
  Facts.no_group r = true -> Facts.takes_only p r ->
  forall s cs (k : @cont R) x,
    mt n0 r s cs k = Some x ->
    exists pre s', s = (pre ++ s')%string /\
                   forall_chars p pre = true /\ k s' cs = Some x.
Proof.
  induction r as [|c|q|a IHa b IHb|a IHa b IHb|a IHa|i a IHa| |];
    cbn [Facts.no_group Facts.takes_only]; intros Hg Hr s cs k x;
    try discriminate; cbn [mt].
  - intro H. now exists EmptyString, s.
  - destruct s as [|y s]; [discriminate|].
    destruct (Ascii.eqb y c) eqn:E; [|discriminate].
    apply Ascii.eqb_eq in E. subst y.
    intro H. exists (str1 c), s. cbn. now rewrite Hr.
  - destruct s as [|y s]; [discriminate|].
    destruct (q y) eqn:E; [|discriminate].
    intro H. exists (str1 y), s. cbn. now rewrite (Hr y E).
  - apply andb_true_iff in Hg as [Hga Hgb]. destruct Hr as [Ha Hb].
    intro H. apply (IHa Hga Ha) in H as [pre [s' [-> [Hp H]]]].
    apply (IHb Hgb Hb) in H as [pre' [s'' [-> [Hp' H]]]].
    exists (pre ++ pre')%string, s''.
    rewrite append_assoc, forall_chars_app, Hp, Hp'. auto.
  - apply andb_true_iff in Hg as [Hga Hgb]. destruct Hr as [Ha Hb].
    destruct (mt n0 a s cs k) as [y|] eqn:E.
    + intro H. injection H as <-. now apply (IHa Hga Ha) in E.
    + apply (IHb Hgb Hb).
  - apply star_loop_plain. intros s0 cs0 k' y. apply (IHa Hg Hr).
  - destruct (_ =? _)%nat; [|discriminate].
    intro H. now exists EmptyString, s.
  - destruct (_ || _); [|discriminate].
    intro H. now exists EmptyString, s.
Qed.

Lemma seq_plain (a b : re) (s : string) (cs : caps) (k : @cont R) (x : R) :
  Facts.no_group a = true -> Facts.takes_only p a ->
  mt n0 (Seq a b) s cs k = Some x ->
  exists pre s', s = (pre ++ s')%string /\ forall_chars p pre = true /\
                 mt n0 b s' cs k = Some x.
Proof. intros Hg Hr. cbn [mt]. apply (mt_plain a Hg Hr). Qed.

Lemma plus_cls_result (q : ascii -> bool) (s : string) (cs : caps)
      (k : @cont R) (x : R) :
  (forall y, q y = true -> p y = true) ->
  mt n0 (Plus (Cls q)) s cs k = Some x ->
  exists pre s', s = (pre ++ s')%string /\ pre <> EmptyString /\
                 forall_chars p pre = true /\ k s' cs = Some x.
Proof.
  intro Hq. unfold Plus. destruct s as [|y s]; [discriminate|].
  cbn [mt]. destruct (q y) eqn:E; [|discriminate].
  intro H. change (mt n0 (Star (Cls q)) s cs k = Some x) in H.
  apply (mt_plain (Star (Cls q)) eq_refl Hq) in H as [pre [s' [-> [Hp H]]]].
  exists (String y pre), s'. cbn [append forall_chars].
  rewrite (Hq y E), Hp. repeat split; [discriminate | exact H].
Qed.
End Plain.

Lemma seq_chr {R : Type} (n0 : nat) (c : ascii) (b : re) (s : string)
      (cs : caps) (k : @cont R) (x : R) :
  mt n0 (Seq (Chr c) b) s cs k = Some x ->
  exists s', s = String c s' /\ mt n0 b s' cs k = Some x.
Proof.
  cbn [mt]. destruct s as [|y s]; [discriminate|].
  destruct (Ascii.eqb y c) eqn:E; [|discriminate].
  apply Ascii.eqb_eq in E. subst y. intro H. now exists s.
Qed.

Lemma seq_lit {R : Type} (n0 : nat) (w : string) (b : re) :
  forall (s : string) (cs : caps) (k : @cont R) (x : R),
    mt n0 (Seq (Lit w) b) s cs k = Some x ->
    exists s', s = (w ++ s')%string /\ mt n0 b s' cs k = Some x.
Proof.
  induction w as [|c w IH]; intros s cs k x H.
  - now exists s.
  - cbn [Lit] in H.
    change (mt n0 (Seq (Seq (Chr c) (Lit w)) b) s cs k)
      with (mt n0 (Seq (Chr c) (Seq (Lit w) b)) s cs k) in H.
    apply seq_chr in H as [s1 [-> H]].
    apply IH in H as [s2 [-> H]]. now exists s2.
Qed.

(** a run of a class holds a character; a group records the run *)
Lemma seq_plus_cls {R : Type} (n0 : nat) (q : ascii -> bool) (b : re)
      (s : string) (cs : caps) (k : @cont R) (x : R) :
  mt n0 (Seq (Plus (Cls q)) b) s cs k = Some x ->
  exists pre s', s = (pre ++ s')%string /\ pre <> EmptyString /\
                 forall_chars q pre = true /\ mt n0 b s' cs k = Some x.
Proof.
  intro H.
  change (mt n0 (Plus (Cls q)) s cs (fun s' cs' => mt n0 b s' cs' k) = Some x)
    in H.
  now apply (plus_cls_result n0 q) in H.
Qed.

Lemma seq_group_plus {R : Type} (n0 i : nat) (q : ascii -> bool) (b : re)
      (s : string) (cs : caps) (k : @cont R) (x : R) :
  mt n0 (Seq (Grp i (Plus (Cls q))) b) s cs k = Some x ->
  exists pre s', s = (pre ++ s')%string /\ pre <> EmptyString /\
                 forall_chars q pre = true /\
                 mt n0 b s' ((i, pre) :: cs) k = Some x.
Proof.
  intro H.
  change (mt n0 (Plus (Cls q)) s cs
             (fun s' cs' => mt n0 b s' ((i, consumed s s') :: cs') k)
          = Some x) in H.
  apply (plus_cls_result n0 q) in H as [pre [s' [-> [Hne [Hp H]]]]]; [|auto].
  rewrite consumed_app in H. now exists pre, s'.
Qed.

Lemma not_char_count (c : ascii) (s : string) :
  forall_chars (fun x => negb (Ascii.eqb x c)) s = true <-> count_char c s = 0.
Proof.
  induction s as [|y s IH]; cbn [forall_chars count_char]; [tauto|].
  rewrite andb_true_iff, IH, negb_true_iff.
  destruct (Ascii.eqb y c); split; try intros [? ?]; try discriminate; auto.
Qed.

(** the parts of a match of a block pattern *)
Lemma block_match_parts (n0 : nat) (word : string) (s : string) (m : mobj) :
  match_at n0
           (Cat [Lit word; Plus ws; Chr dq; Grp 1 (Plus (Not dq)); Chr dq;
                 Star ws; Chr "{"; Grp 2 Facts.block_body; Chr "}"])
           s = Some m ->
  exists w1 w2 : string,
    s = Facts.block_text word w1 (group 1 m) w2 (group 2 m) (m_rest m) /\
    Facts.block_shape w1 (group 1 m) w2 (group 2 m).
Proof.
  unfold match_at. cbn [Cat]. intro H.
  apply seq_lit in H as [s1 [-> H]].
  apply seq_plus_cls in H as [w1 [s2 [-> [Hne [Hw1 H]]]]].
  apply seq_chr in H as [s3 [-> H]].
  apply seq_group_plus in H as [name [s4 [-> [Hnm [Hname H]]]]].
  apply seq_chr in H as [s5 [-> H]].
  apply (seq_plain n0 is_space) in H as [w2 [s6 [-> [Hw2 H]]]];
    [|reflexivity|cbn; auto].
  apply seq_chr in H as [s7 [-> H]].
  apply block_body_stops in H as [-> [Hc [Hcaps Hbody]]].
  assert (Eg : group 1 m = name).
  { unfold group at 1. rewrite Hcaps. reflexivity. }
  rewrite Eg. exists w1, w2.
  split; [reflexivity|]. unfold Facts.block_shape.
  split; [exact Hw1|]. split; [exact Hne|]. split; [exact Hw2|].
  split; [exact Hnm|]. split; [now apply not_char_count|].
  split; [exact Hbody | exact Hc].
Qed.

Lemma block_findall_at (word content name c : string) :
  In (name, c)
     (findall2
        (Cat [Lit word; Plus ws; Chr dq; Grp 1 (Plus (Not dq)); Chr dq;
              Star ws; Chr "{"; Grp 2 Facts.block_body; Chr "}"])
        content) ->
  Facts.block_at word name c content.
Proof.
  unfold findall2, finditer. intro H.
  apply in_map_iff in H as [m [E H]]. injection E as <- <-.
  apply findall_loop_match in H as [pre [Hs H]].
  apply block_match_parts in H as [w1 [w2 [E Hshape]]].
  exists pre, w1, w2, (m_rest m). rewrite Hs at 1. now rewrite E at 1.
Qed.

(** *** The block at the head of a text *)

Section Forward.
Context {R : Type}.
Variable n0 : nat.

Lemma lit_step (w s : string) (cs : caps) (k : @cont R) :
  mt n0 (Lit w) (w ++ s) cs k = k s cs.
Proof.
  induction w as [|c w IH]; cbn [Lit append mt]; [reflexivity|].
  rewrite Ascii.eqb_refl. exact IH.
Qed.

Lemma chr_step (c : ascii) (s : string) (cs : caps) (k : @cont R) :
  mt n0 (Chr c) (String c s) cs k = k s cs.
Proof. cbn [mt]. now rewrite Ascii.eqb_refl. Qed.

Lemma star_cls_run (q : ascii -> bool) (pre rest : string) (cs : caps)
      (k : @cont R) (x : R) :
  forall_chars q pre = true ->
  (forall k' : @cont R, mt n0 (Cls q) rest cs k' = None) ->
  k rest cs = Some x ->
  mt n0 (Star (Cls q)) (pre ++ rest) cs k = Some x.
Proof.
  intros Hp Hnone Hk. cbn [mt].
  apply (star_cls_first n0 q k pre); auto.
  rewrite length_append. lia.
Qed.

Lemma plus_cls_run (q : ascii -> bool) (pre rest : string) (cs : caps)
      (k : @cont R) (x : R) :
  forall_chars q pre = true -> pre <> EmptyString ->
  (forall k' : @cont R, mt n0 (Cls q) rest cs k' = None) ->
  k rest cs = Some x ->
  mt n0 (Plus (Cls q)) (pre ++ rest) cs k = Some x.
Proof.
  intros Hp Hne Hnone Hk. destruct pre as [|y pre]; [congruence|].
  cbn [forall_chars] in Hp. apply andb_true_iff in Hp as [Hy Hp].
  unfold Plus. cbn [mt append]. rewrite Hy.
  now apply (star_cls_run q pre rest cs k x).
Qed.
End Forward.

Lemma upto_brace_app (c post : string) :
  count_char "}" c = 0 ->
  Facts.upto_brace (c ++ String "}" post) = Some (c, post).
Proof.
  induction c as [|y c IH]; cbn [count_char append Facts.upto_brace];
    [reflexivity|].
  destruct (Ascii.eqb y "}"); [discriminate|].
  intro H. now rewrite (IH H).
Qed.

(** a block at the head of a text is matched there *)
Lemma block_match_head (n0 : nat) (word w1 name w2 c post : string) :
  Facts.block_shape w1 name w2 c ->
  match_at n0
           (Cat [Lit word; Plus ws; Chr dq; Grp 1 (Plus (Not dq)); Chr dq;
                 Star ws; Chr "{"; Grp 2 Facts.block_body; Chr "}"])
           (Facts.block_text word w1 name w2 c post)
  = Some (MObj (Facts.block_text word w1 name w2 c post) post
               [(2, c); (1, name)]).
Proof.
  intros [Hw1 [Hne [Hw2 [Hnm [Hname [Hbody Hc]]]]]].
  unfold match_at. generalize (Facts.block_text word w1 name w2 c post) at 2 3.
  intro s0. unfold Facts.block_text. cbn [Cat].
  change (mt n0 (Lit word) (word ++ w1 ++ String dq (name ++ String dq (w2
                    ++ String "{" (c ++ String "}" post)))) []
             (fun s1 cs1 =>
                mt n0 (Plus ws) s1 cs1
                   (fun s2 cs2 =>
                      mt n0 (Seq (Chr dq)
                                 (Seq (Grp 1 (Plus (Not dq)))
                                      (Seq (Chr dq)
                                           (Seq (Star ws)
                                                (Seq (Chr "{")
                                                     (Seq (Grp 2 Facts.block_body)
                                                          (Cat [Chr "}"])))))))
                         s2 cs2 (fun s' cs => Some (MObj s0 s' cs))))
          = Some (MObj s0 post [(2, c); (1, name)])).
  rewrite lit_step.
  apply plus_cls_run; [exact Hw1 | exact Hne | reflexivity |].
  cbn [mt]. rewrite Ascii.eqb_refl.
  change (mt n0 (Plus (Not dq)) (name ++ String dq (w2
                    ++ String "{" (c ++ String "}" post))) []
             (fun s1 cs1 =>
                mt n0 (Seq (Chr dq)
                           (Seq (Star ws)
                                (Seq (Chr "{")
                                     (Seq (Grp 2 Facts.block_body)
                                          (Cat [Chr "}"])))))
                   s1 ((1, consumed (name ++ String dq (w2
                          ++ String "{" (c ++ String "}" post))) s1) :: cs1)
                   (fun s' cs => Some (MObj s0 s' cs)))
          = Some (MObj s0 post [(2, c); (1, name)])).
  apply plus_cls_run; [now apply not_char_count | exact Hnm | reflexivity |].
  rewrite consumed_app.
  change (mt n0 (Chr dq) (String dq (w2 ++ String "{" (c ++ String "}" post)))
             [(1, name)]
             (fun s1 cs1 =>
                mt n0 (Star ws) s1 cs1
                   (fun s2 cs2 =>
                      mt n0 (Seq (Chr "{")
                                 (Seq (Grp 2 Facts.block_body) (Cat [Chr "}"])))
                         s2 cs2 (fun s' cs => Some (MObj s0 s' cs))))
          = Some (MObj s0 post [(2, c); (1, name)])).
  rewrite chr_step.
  apply star_cls_run; [exact Hw2 | reflexivity |].
  change (mt n0 (Chr "{") (String "{" (c ++ String "}" post)) [(1, name)]
             (fun s1 cs1 =>
                mt n0 (Seq (Grp 2 Facts.block_body) (Cat [Chr "}"])) s1 cs1
                   (fun s' cs => Some (MObj s0 s' cs)))
          = Some (MObj s0 post [(2, c); (1, name)])).
  rewrite chr_step.
  rewrite block_body_eval. unfold Facts.block_result.
  rewrite (upto_brace_app c post Hc).
  destruct c as [|y c]; [congruence | reflexivity].
Qed.

Lemma search_from_head (n0 : nat) (r : re) (s : string) (m : mobj) :
  match_at n0 r s = Some m -> search_from n0 r s = Some m.
Proof. intro H. destruct s; cbn [search_from]; now rewrite H. Qed.

(** a pattern that starts with a word finds nothing in a text
    without it *)
Lemma word_finds_nothing (n0 : nat) (w : string) (b : re) (s : string) :
  contains w s = false -> search_from n0 (Seq (Lit w) b) s = None.
Proof.
  intro Hc. destruct (search_from n0 (Seq (Lit w) b) s) as [m|] eqn:E;
    [|reflexivity].
  apply search_from_match in E as [pre [Hs E]].
  unfold match_at in E. apply seq_lit in E as [s' [Hm _]].
  assert (H : contains w s = true).
  { apply contains_iff. exists pre, s'. now rewrite Hs, Hm. }
  congruence.
Qed.

(** the blocks found in a text that is one block and a rest without
    the word *)
Lemma block_findall_head (word w1 name w2 c post : string) :
  Facts.block_shape w1 name w2 c ->
  contains word post = false ->
  findall2
    (Cat [Lit word; Plus ws; Chr dq; Grp 1 (Plus (Not dq)); Chr dq;
          Star ws; Chr "{"; Grp 2 Facts.block_body; Chr "}"])
    (Facts.block_text word w1 name w2 c post)
  = [(name, c)].
Proof.
  intros Hshape Hpost. unfold findall2, finditer. cbn [findall_loop].
  rewrite (search_from_head _ _ _ _ (block_match_head _ word w1 name w2 c post
                                                       Hshape)).
  cbn [m_rest m_from map group m_caps get_cap Nat.eqb].
  assert (Hl : (String.length post
                <? String.length (Facts.block_text word w1 name w2 c post))%nat
               = true).
  { apply Nat.ltb_lt. unfold Facts.block_text.
    repeat first [rewrite length_append | progress cbn [String.length]].
    lia. }
  rewrite Hl.
  destruct (String.length (Facts.block_text word w1 name w2 c post))
    as [|fuel]; [reflexivity|].
  cbn [findall_loop Cat]. now rewrite (word_finds_nothing _ word _ post Hpost).
Qed.

(** *** What the loaders keep of a block *)

(** a text without a closing brace holds no validation block *)
Lemma no_brace_no_rules (content : string) :
  count_char "}" content = 0 ->
  VariableTester._extract_validation_rules content = [].
Proof.
  intro H. unfold VariableTester._extract_validation_rules, findall1.
  now rewrite (requires_finds_nothing "}" VariableTester.validation_pattern
                                      content eq_refl H).
Qed.

Lemma loaded_rules_empty
      (d : FS.dir) (validations : list (string * VariableTester.var_info))
      (var_name : string) (vi : VariableTester.var_info) :
  VariableTester.load_variable_validations d = Some validations ->
  In (var_name, vi) validations ->
  VariableTester.validation_rules vi = [].
Proof.
  intros Hload Hin.
  unfold VariableTester.load_variable_validations in Hload.
  destruct (negb (FS.exists_ d "variables.tf")).
  - injection Hload as <-. destruct Hin.
  - destruct (FS.read d "variables.tf") as [content|]; cbn [Exc.bind] in Hload;
      [|discriminate].
    injection Hload as <-.
    pose proof (DictFacts.build_In
                  (fun c => VariableTester.VarInfo
                              (VariableTester._extract_type c)
                              (VariableTester._extract_default c)
                              (VariableTester._extract_validation_rules c))
                  (findall2 VariableTester.variable_block_pattern content)
                  [] (NoDup_nil _) var_name vi) as Hb.
    cbv zeta beta in Hb. apply Hb in Hin as [[c [[l1 [l2 [E _]]] ->]]|[_ []]].
    cbn [VariableTester.validation_rules].
    apply no_brace_no_rules.
    apply (block_pattern_findall "variable" content var_name c).
    change (Cat [Lit "variable"; Plus ws; Chr dq; Grp 1 (Plus (Not dq));
                 Chr dq; Star ws; Chr "{"; Grp 2 Facts.block_body; Chr "}"])
      with VariableTester.variable_block_pattern.
    rewrite E. apply in_or_app. right. now left.
Qed.

(** The tester never extracts a validation rule: when [variables.tf] is
    missing or can be read, the variables are loaded, each with an empty
    list of rules.  The text kept of a variable block stops before the
    first closing brace of the block, which is the end of its first
    nested block when it has one, and the pattern for a validation block
    needs a closing brace. *)
Theorem validation_rules_never_extracted
        (d : FS.dir)
        (Hfile : FS.exists_ d "variables.tf" = false \/
                 exists content, FS.read d "variables.tf" = Some content) :
  exists validations,
    VariableTester.load_variable_validations d = Some validations /\
    forall var_name vi,
      In (var_name, vi) validations ->
      VariableTester.validation_rules vi = [].
Proof.
  assert (H : exists validations,
             VariableTester.load_variable_validations d = Some validations).
  { unfold VariableTester.load_variable_validations.
    destruct Hfile as [->|[content Hread]]; [cbn; eauto|].
    rewrite (read_exists d _ _ Hread), Hread. cbn. eauto. }
  destruct H as [validations H]. exists validations. split; [exact H|].
  intros var_name vi. now apply (loaded_rules_empty d validations).
Qed.

Lemma validation_rules_never_extracted_witness :
  exists validations,
    VariableTester.load_variable_validations Examples.module_validated
    = Some validations /\
    forall var_name vi,
      In (var_name, vi) validations ->
      VariableTester.validation_rules vi = [].
Proof.
  apply (validation_rules_never_extracted Examples.module_validated).
  right. eexists. reflexivity.
Defined.

(** What the verifier reads of an output block is the text between the
    opening brace of the block and the first closing brace after it.
    Every output that is loaded stands in the file as a block: the word
    [output], blanks, the name between double quotes, blanks maybe, an
    opening brace; and its description, its value and its sensitivity
    are looked for in the text from that brace to the first closing brace
    that follows.  When the file is one such block and a rest that does
    not hold the word [output], the block is what is loaded, whatever the
    rest holds: a value written after a nested block is not seen. *)
Theorem output_block_ends_at_first_brace
        (d : FS.dir) (st : OutputVerifier.state) (content : string)
        (Hread : FS.read d "outputs.tf" = Some content) :
  exists outs,
    OutputVerifier.load_outputs d st = Some (outs, st) /\
    (forall output_name oi,
        In (output_name, oi) outs ->
        exists c,
          Facts.block_at "output" output_name c content /\
          oi = Facts.output_info_of c) /\
    (forall w1 output_name w2 c post,
        content = Facts.block_text "output" w1 output_name w2 c post ->
        Facts.block_shape w1 output_name w2 c ->
        contains "output" post = false ->
        outs = [(output_name, Facts.output_info_of c)]).
Proof.
  unfold OutputVerifier.load_outputs.
  rewrite (read_exists d _ _ Hread), Hread.
  cbn [negb Exc.bind]. eexists. split; [reflexivity|]. split.
  - intros output_name oi Hin.
    pose proof (DictFacts.build_In
                  Facts.output_info_of
                  (findall2 OutputVerifier.output_pattern content)
                  [] (NoDup_nil _) output_name oi) as Hb.
    cbv zeta in Hb. unfold Facts.output_info_of in Hb at 1.
    apply Hb in Hin as [[c [[l1 [l2 [E _]]] ->]]|[_ []]].
    exists c. split; [|reflexivity].
    apply (block_findall_at "output" content output_name c).
    change (Cat [Lit "output"; Plus ws; Chr dq; Grp 1 (Plus (Not dq));
                 Chr dq; Star ws; Chr "{"; Grp 2 Facts.block_body; Chr "}"])
      with OutputVerifier.output_pattern.
    rewrite E. apply in_or_app. right. now left.
  - intros w1 output_name w2 c post -> Hshape Hpost.
    change OutputVerifier.output_pattern
      with (Cat [Lit "output"; Plus ws; Chr dq; Grp 1 (Plus (Not dq));
                 Chr dq; Star ws; Chr "{"; Grp 2 Facts.block_body; Chr "}"]).
    rewrite (block_findall_head "output" w1 output_name w2 c post Hshape Hpost).
    reflexivity.
Qed.

(** the value of the sample output stands after a nested block: it is
    not loaded *)
Lemma output_block_ends_at_first_brace_witness :
  OutputVerifier._extract_value Examples.nested_rest
  = Some "aws_instance.web.id" /\
  exists outs,
    OutputVerifier.load_outputs Examples.module_nested OutputVerifier.init
    = Some (outs, OutputVerifier.init) /\
    outs = [("instance_id", OutputVerifier.OutputInfo None None false)].
Proof.
  split; [vm_compute; reflexivity|].
  destruct (output_block_ends_at_first_brace
              Examples.module_nested OutputVerifier.init
              Examples.outputs_tf_nested eq_refl)
    as [outs [Hload [_ Hone]]].
  exists outs. split; [exact Hload|].
  rewrite (Hone " " "instance_id" " " Examples.nested_body
                Examples.nested_rest); [vm_compute; reflexivity|reflexivity| |].
  - unfold Facts.block_shape. repeat split; try discriminate; reflexivity.
  - vm_compute. reflexivity.
Defined.

(** *** The two patterns for output blocks *)

Lemma seq_ext {R : Type} (n0 : nat) (a b1 b2 : re) (s : string) (cs : caps)
      (k : @cont R) :
  (forall s' cs', mt n0 b1 s' cs' k = mt n0 b2 s' cs' k) ->
  mt n0 (Seq a b1) s cs k = mt n0 (Seq a b2) s cs k.
Proof. intro H. cbn [mt]. now apply mt_ext. Qed.

Lemma findall_loop_ext (n0 : nat) (r1 r2 : re) :
  (forall s, match_at n0 r1 s = match_at n0 r2 s) ->
  forall fuel s, findall_loop fuel n0 r1 s = findall_loop fuel n0 r2 s.
Proof.
  intros H fuel. induction fuel as [|fuel IH]; intro s; cbn [findall_loop];
    [reflexivity|].
  rewrite (search_from_ext n0 r1 r2 H).
  destruct (search_from n0 r2 s) as [m|]; [|reflexivity].
  f_equal. destruct (_ <? _)%nat; [apply IH|].
  destruct (m_rest m); [reflexivity | apply IH].
Qed.

(** The output verifier and the module validator find the same output
    blocks, with the same names and the same contents: the nested blocks
    that the pattern of the verifier allows for are never taken, and its
    matches are those of the simpler pattern of the validator. *)
Theorem output_patterns_agree (content : string) :
  findall2 OutputVerifier.output_pattern content
  = findall2 ModuleValidator.output_block_pattern content.
Proof.
  unfold findall2, finditer. f_equal.
  apply findall_loop_ext. intro s.
  unfold match_at, OutputVerifier.output_pattern,
    ModuleValidator.output_block_pattern.
  cbn [Cat].
  do 7 (apply seq_ext; intros ? ?).
  rewrite (block_body_eval (String.length content) s).
  now rewrite (simple_body_eval (String.length content) s).
Qed.

End RegexBlocks.


(** ** The orchestrator and its three scripts *)

Module OrchestratorRun.
Import Orchestrator OrchestratorProofs.

Lemma exit_status_zero (r : option bool) :
  exit_status r = 0%Z <-> r = Some true.
Proof.
  unfold exit_status. destruct r as [[|]|]; split; congruence.
Qed.

Lemma validator_status_zero (r : option (ModuleValidator.findings * bool)) :
  (ModuleValidator.exit_status r =? 0)%Z = true <->
  exists st, r = Some (st, true).
Proof.
  unfold ModuleValidator.exit_status. destruct r as [[st [|]]|]; cbn.
  - split; [eauto | reflexivity].
  - split; [discriminate | intros [st' H]; congruence].
  - split; [discriminate | intros [st' H]; congruence].
Qed.

Lemma tester_status_zero (r : option bool) :
  (VariableTester.exit_status r =? 0)%Z = true <-> r = Some true.
Proof.
  unfold VariableTester.exit_status. destruct r as [[|]|]; cbn;
    split; congruence.
Qed.

Lemma verifier_status_zero (r : option (OutputVerifier.state * bool)) :
  (OutputVerifier.exit_status r =? 0)%Z = true <->
  exists st, r = Some (st, true).
Proof.
  unfold OutputVerifier.exit_status. destruct r as [[st [|]]|]; cbn.
  - split; [eauto | reflexivity].
  - split; [discriminate | intros [st' H]; congruence].
  - split; [discriminate | intros [st' H]; congruence].
Qed.

(** the orchestrator succeeds only if each of its scripts does *)
Lemma main_needs_scripts (e : env) :
  main e = Some true ->
  run_validation_script e "terraform_module_validator.py" = true /\
  run_validation_script e "variable_validation_tester.py" = true /\
  run_validation_script e "output_verifier.py" = true /\
  (exists bp, check_terraform_best_practices (module_dir e) = Some bp) /\
  report_writable e = true.
Proof.
  intro H. apply main_returns in H as [results [Hres [Hw Hall]]].
  pose proof (validation_results_entries e results Hres) as E.
  rewrite E in Hall. cbn [forallb snd] in Hall. symmetry in Hall.
  rewrite !andb_true_iff in Hall. destruct Hall as [H1 [H2 [H3 _]]].
  repeat (split; [assumption|]). split; [|exact Hw].
  unfold validation_results in Hres.
  destruct (check_terraform_best_practices (module_dir e)) as [bp|];
    [eauto | discriminate].
Qed.

Lemma main_with_scripts (e : env) :
  run_validation_script e "terraform_module_validator.py" = true ->
  run_validation_script e "variable_validation_tester.py" = true ->
  run_validation_script e "output_verifier.py" = true ->
  (exists bp, check_terraform_best_practices (module_dir e) = Some bp) ->
  report_writable e = true ->
  main e = Some true.
Proof.
  intros H1 H2 H3 [bp Hbp] Hw.
  assert (Hres : exists results, validation_results e = Some results).
  { unfold validation_results. rewrite Hbp. cbn [Exc.bind]. eauto. }
  destruct Hres as [results Hres].
  rewrite (main_value e results Hres Hw).
  rewrite (validation_results_entries e results Hres).
  cbn [forallb snd]. now rewrite H1, H2, H3.
Qed.

(** When each child process ends with the status that its script gives
    for the module directory, the comprehensive validator ends with
    status 0 exactly when the module validator, the variable tester and
    the output verifier each report success on the directory, the files
    that the best-practices check opens can be read, and the report can
    be written. *)
Theorem comprehensive_passes_iff
        (iter_set : list string -> list string) (e : env)
        (Hch : Facts.children_run iter_set e) :
  exit_status (main e) = 0%Z <->
  (exists st, ModuleValidator.run_validation (module_dir e) = Some (st, true)) /\
  VariableTester.test_variable_combinations (module_dir e) = Some true /\
  (exists st, OutputVerifier.run_verification iter_set (module_dir e)
              = Some (st, true)) /\
  (exists bp, check_terraform_best_practices (module_dir e) = Some bp) /\
  report_writable e = true.
Proof.
  destruct Hch as [C1 [C2 C3]]. cbv zeta in C1, C2, C3.
  split.
  - intro H. apply exit_status_zero in H.
    apply main_needs_scripts in H as [H1 [H2 [H3 [H4 H5]]]].
    unfold run_validation_script in H1, H2, H3.
    rewrite C1 in H1. rewrite C2 in H2. rewrite C3 in H3.
    apply validator_status_zero in H1. apply tester_status_zero in H2.
    apply verifier_status_zero in H3. auto.
  - intros [H1 [H2 [H3 [H4 H5]]]]. apply exit_status_zero.
    apply validator_status_zero in H1. apply tester_status_zero in H2.
    apply verifier_status_zero in H3.
    apply main_with_scripts; try assumption;
      unfold run_validation_script; [rewrite C1|rewrite C2|rewrite C3];
      assumption.
Qed.

Lemma comprehensive_passes_iff_witness :
  exit_status (main (Examples.env_of Examples.module_clean)) = 0%Z.
Proof.
  apply (comprehensive_passes_iff
           Examples.in_order (Examples.env_of Examples.module_clean)).
  - repeat split.
  - split; [eexists; vm_compute; reflexivity|].
    split; [vm_compute; reflexivity|].
    split; [eexists; vm_compute; reflexivity|].
    split; [eexists; vm_compute; reflexivity | reflexivity].
Defined.



(** *** The report *)

Lemma line_attention_inj (d1 d2 : string) :
  Facts.line_attention d1 = Facts.line_attention d2 -> d1 = d2.
Proof.
  unfold Facts.line_attention. intro H.
  apply append_inv_head in H. now apply append_inv_tail in H.
Qed.

Lemma concat_cons (x : string) (l : list string) :
  String.concat "" (x :: l) = (x ++ String.concat "" l)%string.
Proof.
  destruct l as [|y l]; cbn [String.concat append]; [|reflexivity].
  now rewrite append_nil_r.
Qed.

(** the lines of a text that holds no line break, then a line break,
    then a rest *)
Lemma split_line (a rest : string) :
  count_char nl a = 0 ->
  split nl (a ++ str1 nl ++ rest) = a :: split nl rest.
Proof. intro H. now apply (split_app nl a rest). Qed.

(** the first lines of the report: the title, and the module path as it
    was given *)
Lemma report_first_lines (e : env) (results : list (string * bool))
      (chunks : list string) :
  count_char nl (module_path e) = 0 ->
  generate_validation_report e results = Some chunks ->
  Facts.report_lines chunks
  = "# Terraform Module Validation Report"
      :: ""
      :: ("**Module Path:** `" ++ module_path e ++ "`")%string
      :: Facts.report_lines (skipn 2 chunks).
Proof.
  intros Hpath. unfold generate_validation_report.
  destruct (report_writable e); [|discriminate]. cbn [negb].
  intro H. injection H as <-. cbn [app skipn].
  unfold Facts.report_lines. do 2 rewrite concat_cons.
  set (rest := String.concat "" _).
  transitivity
    (split nl ("# Terraform Module Validation Report" ++ str1 nl
                 ++ "" ++ str1 nl
                 ++ ("**Module Path:** `" ++ module_path e ++ "`") ++ str1 nl
                 ++ rest)).
  { f_equal. cbn [append str1]. rewrite !append_assoc. reflexivity. }
  rewrite !split_line; try reflexivity.
  rewrite !count_char_app, Hpath. reflexivity.
Qed.

(** a text is among given lines, or it is none of them *)
Ltac find_line := repeat first [left; reflexivity | right].

Ltac not_this_line H :=
  cbn [append Facts.line_congratulation Facts.line_attention] in H;
  discriminate H.

Ltac advised_check H description :=
  symmetry in H;
  first
    [ apply (line_attention_inj
               description "Module Structure and Syntax Validation") in H
    | apply (line_attention_inj description "Variable Validation Testing")
        in H
    | apply (line_attention_inj description "Output Verification") in H
    | apply (line_attention_inj description "Terraform Best Practices") in H ];
  subst description; find_line.

(** When the report can be written and the module path holds no line
    break, the report file holds one line for each check, with its
    status; the line that congratulates is among its lines exactly when
    [main] returns [True], and the line that advises on a check is among
    them exactly when that check failed: the report and the exit status
    never disagree. *)
Theorem report_agrees_with_exit
        (e : env) (results : list (string * bool))
        (Hw : report_writable e = true)
        (Hres : validation_results e = Some results)
        (Hpath : count_char nl (module_path e) = 0) :
  exists chunks,
    generate_validation_report e results = Some chunks /\
    (forall r, In r results -> In (Facts.line_row r) (Facts.report_lines chunks))
    /\
    (In Facts.line_congratulation (Facts.report_lines chunks)
     <-> main e = Some true) /\
    (forall description,
        In (Facts.line_attention description) (Facts.report_lines chunks) <->
        In (description, false) results).
Proof.
  assert (Hgen : exists chunks,
             generate_validation_report e results = Some chunks).
  { unfold generate_validation_report. rewrite Hw. cbn [negb]. eauto. }
  destruct Hgen as [chunks Hgen]. exists chunks. split; [exact Hgen|].
  rewrite (report_first_lines e results chunks Hpath Hgen).
  rewrite (main_value e results Hres Hw).
  unfold generate_validation_report in Hgen. rewrite Hw in Hgen.
  cbn [negb] in Hgen. injection Hgen as <-.
  rewrite (validation_results_entries e results Hres).
  destruct (run_validation_script e "terraform_module_validator.py"),
           (run_validation_script e "variable_validation_tester.py"),
           (run_validation_script e "output_verifier.py");
    cbn [forallb snd andb app skipn];
    match goal with
    | |- context [Facts.report_lines ?t] =>
        let v := eval vm_compute in (Facts.report_lines t) in
        change (Facts.report_lines t) with v
    end.
  all: split;
    [intros r [<-|[<-|[<-|[<-|[]]]]]; right; right; right; find_line|].
  all: split; [split; intro H | intro description; split; intro H].
  (* the congratulation: it is written, or [main] returns [False] *)
  all: try solve [reflexivity | discriminate H].
  all: try solve [right; right; right; find_line].
  all: try solve [exfalso;
                  repeat (destruct H as [H|H]; [not_this_line H|]); exact H].
  (* the advice: a line of that shape names a check that failed *)
  all: try solve [repeat (destruct H as [H|H];
                          [first [not_this_line H
                                 | advised_check H description]|]);
                  destruct H].
  all: repeat (destruct H as [H|H];
               [first [discriminate H
                      | injection H as <-; right; right; right; find_line]|]);
    destruct H.
Qed.

Lemma report_agrees_with_exit_witness :
  exists chunks,
    generate_validation_report
      (Examples.env_of Examples.module_clean)
      [ ("Module Structure and Syntax Validation", true);
        ("Variable Validation Testing", true);
        ("Output Verification", true);
        ("Terraform Best Practices", true) ]
    = Some chunks /\
    In Facts.line_congratulation (Facts.report_lines chunks).
Proof.
  destruct (report_agrees_with_exit
              (Examples.env_of Examples.module_clean)
              [ ("Module Structure and Syntax Validation", true);
                ("Variable Validation Testing", true);
                ("Output Verification", true);
                ("Terraform Best Practices", true) ])
    as [chunks [H [_ [Hc _]]]].
  - reflexivity.
  - vm_compute. reflexivity.
  - reflexivity.
  - exists chunks. split; [exact H|]. apply Hc. vm_compute. reflexivity.
Defined.

End OrchestratorRun.


(** ** The references found in a value *)

Module References.
Import PyStr Re OutputVerifier OutputVerifierProofs.

Section Taken.
Context {R : Type}.
Variable n0 : nat.
Variable p : ascii -> bool.

Lemma star_loop_takes
      (body : string -> caps -> @cont R -> option R) (k : @cont R) :
  (forall s cs k' x,
      body s cs k' = Some x ->
      exists pre s' cs', s = (pre ++ s')%string /\
                         forall_chars p pre = true /\ k' s' cs' = Some x) ->
  forall fuel s cs x,
    star_loop body k fuel s cs = Some x ->
    exists pre s' cs', s = (pre ++ s')%string /\
                       forall_chars p pre = true /\ k s' cs' = Some x.
Proof.
  intros Hbody fuel.
  induction fuel as [|fuel IH]; intros s cs x; cbn [star_loop].
  - intro H. now exists EmptyString, s, cs.
  - destruct (body s cs _) as [y|] eqn:E.
    + intro H. injection H as <-.
      apply Hbody in E as [pre [s' [cs' [-> [Hp E]]]]].
      destruct (_ <? _)%nat; [|discriminate].
      apply IH in E as [pre' [s'' [cs'' [-> [Hp' E]]]]].
      exists (pre ++ pre')%string, s'', cs''.
      rewrite append_assoc, forall_chars_app, Hp, Hp'. auto.
    + intro H. now exists EmptyString, s, cs.
Qed.

(** what a pattern takes from the text, when all it can take is in [p] *)
Lemma mt_takes (r : re) :
  Facts.takes_only p r ->
  forall s cs (k : @cont R) x,
    mt n0 r s cs k = Some x ->
    exists pre s' cs', s = (pre ++ s')%string /\
                       forall_chars p pre = true /\ k s' cs' = Some x.
Proof.
  induction r as [|c|q|a IHa b IHb|a IHa b IHb|a IHa|i a IHa| |];
    cbn [Facts.takes_only]; intros Hr s cs k x; cbn [mt].
  - intro H. now exists EmptyString, s, cs.
  - destruct s as [|y s]; [discriminate|].
    destruct (Ascii.eqb y c) eqn:E; [|discriminate].
    apply Ascii.eqb_eq in E. subst y.
    intro H. exists (str1 c), s, cs. cbn. now rewrite Hr.
  - destruct s as [|y s]; [discriminate|].
    destruct (q y) eqn:E; [|discriminate].
    intro H. exists (str1 y), s, cs. cbn. now rewrite (Hr y E).
  - destruct Hr as [Ha Hb].
    intro H. apply (IHa Ha) in H as [pre [s' [cs' [-> [Hp H]]]]].
    apply (IHb Hb) in H as [pre' [s'' [cs'' [-> [Hp' H]]]]].
    exists (pre ++ pre')%string, s'', cs''.
    rewrite append_assoc, forall_chars_app, Hp, Hp'. auto.
  - destruct Hr as [Ha Hb].
    destruct (mt n0 a s cs k) as [y|] eqn:E.
    + intro H. injection H as <-. now apply (IHa Ha) in E.
    + apply (IHb Hb).
  - apply star_loop_takes. intros s0 cs0 k' y. apply (IHa Hr).
  - intro H. apply (IHa Hr) in H as [pre [s' [cs' [-> [Hp H]]]]].
    exists pre, s', ((i, consumed (pre ++ s') s') :: cs'). auto.
  - destruct (_ =? _)%nat; [|discriminate].
    intro H. now exists EmptyString, s, cs.
  - destruct (_ || _); [|discriminate].
    intro H. now exists EmptyString, s, cs.
Qed.

(** a pattern of literal characters takes its characters *)
Lemma mt_fixed (r : re) :
  Facts.fixed r = true ->
  forall s cs (k : @cont R) x,
    mt n0 r s cs k = Some x ->
    exists s', s = (Facts.leading r ++ s')%string /\ k s' cs = Some x.
Proof.
  induction r as [|c|q|a IHa b IHb|a IHa b IHb|a IHa|i a IHa| |];
    cbn [Facts.fixed]; intro Hf; try discriminate;
    intros s cs k x; cbn [mt Facts.leading].
  - intro H. now exists s.
  - destruct s as [|y s]; [discriminate|].
    destruct (Ascii.eqb y c) eqn:E; [|discriminate].
    apply Ascii.eqb_eq in E. subst y. intro H. now exists s.
  - apply andb_true_iff in Hf as [Ha Hb]. rewrite Ha.
    intro H. apply (IHa Ha) in H as [s1 [-> H]].
    apply (IHb Hb) in H as [s2 [-> H]].
    exists s2. now rewrite append_assoc.
Qed.

Lemma fixed_takes (r : re) :
  Facts.fixed r = true -> Facts.takes_only p r ->
  forall_chars p (Facts.leading r) = true.
Proof.
  induction r as [|c|q|a IHa b IHb|a IHa b IHb|a IHa|i a IHa| |];
    cbn [Facts.fixed Facts.takes_only Facts.leading]; intros Hf Hr;
    try discriminate; try reflexivity.
  - cbn. now rewrite Hr.
  - apply andb_true_iff in Hf as [Ha Hb]. destruct Hr as [Hra Hrb].
    now rewrite Ha, forall_chars_app, IHa, IHb.
Qed.

(** a match starts with the leading characters of the pattern *)
Lemma mt_leading (r : re) :
  Facts.takes_only p r ->
  forall s cs (k : @cont R) x,
    mt n0 r s cs k = Some x ->
    exists pre s' cs', s = ((Facts.leading r ++ pre) ++ s')%string /\
                       forall_chars p (Facts.leading r ++ pre) = true /\
                       k s' cs' = Some x.
Proof.
  induction r as [|c|q|a IHa b IHb|a IHa b IHb|a IHa|i a IHa| |];
    intros Hr s cs k x H;
    try (destruct (mt_takes _ Hr _ _ _ _ H) as [pre [s' [cs' [E [Hp Hk]]]]];
         exists pre, s', cs'; cbn [Facts.leading append]; now auto).
  - cbn [mt] in H. destruct s as [|y s]; [discriminate|].
    destruct (Ascii.eqb y c) eqn:E; [|discriminate].
    apply Ascii.eqb_eq in E. subst y. cbn [Facts.takes_only] in Hr.
    exists EmptyString, s, cs. cbn. now rewrite Hr.
  - destruct Hr as [Hra Hrb]. cbn [mt] in H. cbn [Facts.leading].
    destruct (Facts.fixed a) eqn:Hf.
    + apply (mt_fixed a Hf) in H as [s1 [-> H]].
      apply (IHb Hrb) in H as [pre [s' [cs' [-> [Hp H]]]]].
      exists pre, s', cs'. split; [now rewrite !append_assoc|].
      split; [|exact H].
      rewrite append_assoc, forall_chars_app, Hp.
      now rewrite (fixed_takes a Hf Hra).
    + apply (IHa Hra) in H as [pre [s1 [cs1 [-> [Hp H]]]]].
      apply (mt_takes b Hrb) in H as [pre' [s' [cs' [-> [Hp' H]]]]].
      exists (pre ++ pre')%string, s', cs'. rewrite append_nil_r.
      split; [now rewrite !append_assoc|]. split; [|exact H].
      now rewrite <- append_assoc, forall_chars_app, Hp, Hp'.
Qed.
End Taken.

(** the texts that a pattern finds *)
Lemma findall0_shape (p : ascii -> bool) (r : re) (value ref : string) :
  Facts.takes_only p r ->
  In ref (findall0 r value) ->
  forall_chars p ref = true /\ startswith (Facts.leading r) ref = true /\
  contains ref value = true.
Proof.
  intros Hp Hin. unfold findall0, finditer in Hin.
  apply in_map_iff in Hin as [m [<- Hin]].
  apply RegexBlocks.findall_loop_match in Hin as [pre [Hv Hm]].
  unfold match_at in Hm.
  apply (mt_leading _ p r Hp) in Hm as [taken [s' [cs' [Es [Ht Hk]]]]].
  injection Hk as Hk.
  assert (Eg : group0 m = (Facts.leading r ++ taken)%string).
  { unfold group0. rewrite <- Hk. cbn [m_from m_rest].
    rewrite Es. apply consumed_app. }
  rewrite Eg. split; [exact Ht|]. split.
  - apply prefix_app.
  - apply contains_iff. exists pre, s'. rewrite Hv, Es. reflexivity.
Qed.

Lemma find_refs_In (value ref : string) :
  In ref (find_refs value) <->
  exists pattern, In pattern ref_patterns /\ In ref (findall0 pattern value).
Proof.
  unfold find_refs, ref_patterns. cbn [fold_left].
  rewrite !DictFacts.set_update_In. cbn [In]. split.
  - intros [[[[[[[]|H]|H]|H]|H]|H]|H]; eexists; (split; [|exact H]); tauto.
  - intros [pattern [[<-|[<-|[<-|[<-|[<-|[<-|[]]]]]]] H]]; tauto.
Qed.

Lemma ref_patterns_shape (pattern : re) :
  In pattern ref_patterns ->
  Facts.takes_only Facts.ref_char pattern /\
  In (Facts.leading pattern) Facts.ref_prefixes.
Proof.
  assert (Hlu : forall c, (is_lower c || Ascii.eqb c "_") = true ->
                          Facts.ref_char c = true).
  { intros c Hc. unfold Facts.ref_char. now rewrite Hc. }
  unfold ref_patterns. cbn [In].
  intros [<-|[<-|[<-|[<-|[<-|[<-|[]]]]]]];
    (split; [|cbn; tauto]);
    cbn [Cat Lit Plus lower_us Facts.takes_only];
    repeat split; try exact Hlu; reflexivity.
Qed.

(** The references that the verifier finds in a value are parts of the
    value made of lower-case letters, underscores and dots, each found
    once, and each starts with [aws_], [azurerm_], [google_], [data.],
    [local.] or [var.]: a reference stops at the first digit, capital
    letter or hyphen of a name, and the resources of other providers and
    the outputs of modules are not looked at. *)
Theorem found_references_shape (value : string) :
  NoDup (find_refs value) /\
  forall ref,
    In ref (find_refs value) ->
    forall_chars Facts.ref_char ref = true /\
    contains ref value = true /\
    exists word, In word Facts.ref_prefixes /\ startswith word ref = true.
Proof.
  split.
  - unfold find_refs, ref_patterns. cbn [fold_left].
    repeat apply DictFacts.set_update_NoDup. constructor.
  - intros ref Hin. apply find_refs_In in Hin as [pattern [Hp Hin]].
    apply ref_patterns_shape in Hp as [Ht Hw].
    destruct (findall0_shape Facts.ref_char pattern value ref Ht Hin)
      as [H1 [H2 H3]].
    split; [exact H1|]. split; [exact H3|].
    exists (Facts.leading pattern). auto.
Qed.

End References.
